(** * Whisper_app: the transcription pipeline, embedded and verified

    A shallow embedding of the worker that drives the pipeline
    (workers/workers_base.py, workers/workers_transcription.py) and of the
    collaborators it calls (core/core_whisper.py, core/core_summarizer.py,
    core/translator.py, core/core_file_handler.py).

    Conventions of the embedding.
    - A Python [str] is a [string]; each [ascii] stands for the code point of
      the same number, so the texts covered are those of code points below
      256.  [str.isspace] is exact on that range.
    - A Python [float] is a binary64 [float] of the kernel; [int(x)], [x % n]
      and the conversions are computed exactly from the mantissa and the
      exponent, the other operations are the kernel's.
    - Signals, files and calls of libraries outside the repository are
      recorded, in the order they happen, in one log of the world the worker
      thread runs in.  The user-visible status texts are constructors of
      [status_msg], each documented with the literal it stands for.
    - The libraries outside the repository (whisper, nltk, sumy, googletrans,
      reportlab, the file system) and the moment the observer asks for
      cancellation are fields of an [environment]. *)

From Stdlib Require Import ZArith String Ascii List Lia Bool DecimalString.
From Stdlib Require Import Floats.PrimFloat Floats.FloatOps Floats.SpecFloat.
From Stdlib Require Import Uint63.
From stdpp Require Import gmap strings list.

Open Scope string_scope.
Open Scope Z_scope.

(** ** Python strings *)

Module PyStr.

(** [c.isspace()] for the code points below 256. *)
Definition is_space (c : ascii) : bool :=
  let n := nat_of_ascii c in
  ((9 <=? n) && (n <=? 13) || (28 <=? n) && (n <=? 32) || (n =? 133) || (n =? 160))%nat.

Fixpoint lstrip (s : string) : string :=
  match s with
  | EmptyString => EmptyString
  | String c s' => if is_space c then lstrip s' else s
  end.

Fixpoint rstrip (s : string) : string :=
  match s with
  | EmptyString => EmptyString
  | String c s' =>
      let r := rstrip s' in
      if is_space c && String.eqb r EmptyString then EmptyString else String c r
  end.

(** [s.strip()] *)
Definition strip (s : string) : string := rstrip (lstrip s).

(** Truth value of a string: [if s:]. *)
Definition truthy (s : string) : bool := negb (String.eqb s EmptyString).

(** Truth value of an optional string: [if s:] where [s] may be [None]. *)
Definition truthy_opt (o : option string) : bool :=
  match o with Some s => truthy s | None => false end.

(** Every character is white space ([not s.strip()] for a non-empty [s]). *)
Fixpoint all_space (s : string) : bool :=
  match s with
  | EmptyString => true
  | String c s' => is_space c && all_space s'
  end.

(** [s.split(sep)] for a one-character separator. *)
Fixpoint split_on (sep : ascii) (s : string) : list string :=
  match s with
  | EmptyString => [EmptyString]
  | String c s' =>
      let r := split_on sep s' in
      if Ascii.eqb c sep then EmptyString :: r
      else match r with
           | h :: t => String c h :: t
           | [] => [String c EmptyString]
           end
  end.

(** Whether a string starts a word: its first character is no white
    space. *)
Definition starts_word (s : string) : bool :=
  match s with
  | EmptyString => false
  | String c _ => negb (is_space c)
  end.

(** [s.split()]: the words of [s], that is its maximal runs of characters
    that are not white space, in order. *)
Fixpoint split (s : string) : list string :=
  match s with
  | EmptyString => []
  | String c s' =>
      if is_space c then split s'
      else if starts_word s' then
        match split s' with
        | h :: t => String c h :: t
        | [] => [String c EmptyString]
        end
      else String c EmptyString :: split s'
  end.

(** [s.rfind(c)], [None] for -1. *)
Fixpoint rfind (c : ascii) (s : string) : option nat :=
  match s with
  | EmptyString => None
  | String d s' =>
      match rfind c s' with
      | Some i => Some (S i)
      | None => if Ascii.eqb d c then Some O else None
      end
  end.

Definition newline : string := String (ascii_of_nat 10) EmptyString.

(** Decimal digits of a natural number: [str(n)] for [n >= 0]. *)
Definition digits (n : Z) : string := NilZero.string_of_uint (N.to_uint (Z.to_N n)).

Fixpoint zeros (k : nat) : string :=
  match k with
  | O => EmptyString
  | S k' => String "0" (zeros k')
  end.

(** [f"{z:0{width}d}"]: the sign, then the digits padded with zeros up to
    [width] characters in all. *)
Definition format_d (width : nat) (z : Z) : string :=
  let sign := if z <? 0 then "-" else "" in
  let ds := digits (Z.abs z) in
  sign +:+ zeros (width - String.length sign - String.length ds) +:+ ds.

End PyStr.

(** ** Python floats *)

Module PyFloat.

(** [int(x)]: truncation towards zero; [None] when Python raises
    (ValueError for a NaN, OverflowError for an infinity). *)
Definition py_int (x : float) : option Z :=
  match Prim2SF x with
  | S754_zero _ => Some 0
  | S754_finite s m e =>
      let v := if 0 <=? e then Z.shiftl (Zpos m) e else Z.shiftr (Zpos m) (- e) in
      Some (if s then - v else v)
  | S754_infinity _ => None
  | S754_nan => None
  end.

(** [float(z)] for an integer below 2^63 in absolute value. *)
Definition of_int (z : Z) : float :=
  if z <? 0 then PrimFloat.opp (of_uint63 (Uint63.of_Z (- z)))
  else of_uint63 (Uint63.of_Z z).

(** [x % w] for a float [x] and a positive integer literal [w]: C's [fmod],
    which is exact, then CPython's adjustment of the sign
    ([float_rem]: a negative remainder gets [w] added, a zero one is [+0.0]). *)
Definition py_mod (x : float) (w : Z) : float :=
  match Prim2SF x with
  | S754_zero _ => PrimFloat.zero
  | S754_finite s m e =>
      let '(r, e') :=
        if 0 <=? e then ((Z.shiftl (Zpos m) e) mod w, 0)
        else ((Zpos m) mod (Z.shiftl w (- e)), e) in
      if r =? 0 then PrimFloat.zero
      else
        let a := Z.ldexp (of_uint63 (Uint63.of_Z r)) e' in
        if s then PrimFloat.add (PrimFloat.opp a) (of_int w) else a
  | S754_infinity _ => PrimFloat.nan
  | S754_nan => PrimFloat.nan
  end.

End PyFloat.

(** ** pathlib (PurePosixPath, as used by the file handler) *)

Module PyPath.

Record path := { p_root : string; p_parts : list string }.

Definition slash : ascii := "/"%char.

(** The root of a POSIX path: exactly two leading slashes are kept, any
    other number of them is one. *)
Definition split_root (s : string) : string :=
  match s with
  | String a (String b (String c _)) =>
      if Ascii.eqb a slash then
        if Ascii.eqb b slash then (if Ascii.eqb c slash then "/" else "//") else "/"
      else ""
  | String a (String b EmptyString) =>
      if Ascii.eqb a slash then (if Ascii.eqb b slash then "//" else "/") else ""
  | String a EmptyString => if Ascii.eqb a slash then "/" else ""
  | EmptyString => ""
  end.

Definition keep_part (c : string) : bool :=
  negb (String.eqb c "") && negb (String.eqb c ".").

(** [Path(s)] *)
Definition parse (s : string) : path :=
  {| p_root := split_root s;
     p_parts := List.filter keep_part (PyStr.split_on slash s) |}.

(** [str(p)] *)
Definition to_str (p : path) : string :=
  match p_root p, p_parts p with
  | EmptyString, [] => "."
  | r, ps => r +:+ String.concat "/" ps
  end.

(** [p.parent] *)
Definition parent (p : path) : path :=
  {| p_root := p_root p; p_parts := removelast (p_parts p) |}.

(** [p.name] *)
Definition name (p : path) : string := List.last (p_parts p) "".

(** [p.stem]: the name without its last suffix; a leading or a trailing dot
    starts none. *)
Definition stem (p : path) : string :=
  let n := name p in
  match PyStr.rfind "."%char n with
  | Some i =>
      if ((0 <? i) && (i <? String.length n - 1))%nat then String.substring 0 i n else n
  | None => n
  end.

(** [p / s] *)
Definition join (p : path) (s : string) : path :=
  let q := parse s in
  if String.eqb (p_root q) "" then {| p_root := p_root p; p_parts := p_parts p ++ p_parts q |}
  else q.

End PyPath.

(** ** Data model *)

(** One timed span of the transcript (a whisper segment; the keys the
    repository reads are [start], [end] and [text]). *)
Record segment := { seg_start : float; seg_end : float; seg_text : string }.

(** The dictionary whisper returns: the full text and the segments. *)
Record transcription := { tr_text : string; tr_segments : list segment }.

(** [self.result['translation']] *)
Record translation := {
  tl_text : option string;
  tl_summary : option string;
  tl_segments : option (list segment)
}.

(** [self.result] of the transcription worker. *)
Record job_result := {
  res_transcript : option transcription;
  res_summary : option string;
  res_translation : option translation;
  res_files : list string
}.

(** What a written file holds: text (txt, srt), or the document the PDF
    canvas was given (title, summary section, segments), whose page layout is
    not modelled. *)
Inductive file_content :=
| TextFile (content : string)
| PdfFile (title : string) (summary : option string) (segments : list segment).

(** The status texts handed to [update_status]. *)
Inductive status_msg :=
(* workers_transcription.py *)
| SLoadingModel            (* "Whisper 모델 로드 중..." *)
| STranscribing            (* "음성 파일 전사 중..." *)
| SSummarizing             (* "텍스트 요약 생성 중..." *)
| STranslatingTo (lang : string)   (* f"{lang}로 번역 중..." *)
| SCreatingFiles           (* "파일 생성 중..." *)
| SAllDone                 (* "작업 완료!" *)
(* core_whisper.py *)
| SModelCached (size : string)       (* f"캐시된 {size} 모델 사용" *)
| SModelFromCache (size : string)    (* f"캐시에서 {size} 모델 로드 완료" *)
| SModelDownloading (size : string)  (* f"{size} 모델 다운로드 및 로드 중..." *)
| SModelLoaded (size : string)       (* f"{size} 모델 로드 완료" *)
| SModelLoadFailed                   (* f"모델 로드 실패: {e}" *)
| STranscribingFile (path : string)  (* f"파일 전사 중: {path}" *)
| STranscribed                       (* "전사 완료" *)
| STranscribeFailed                  (* f"전사 실패: {e}" *)
(* core_summarizer.py *)
| SAnalysing                         (* "텍스트 분석 중..." *)
| SSummaryOf (k n : Z)               (* f"요약 생성 중 ({k}/{n} 문장)..." *)
| SSummaryDone                       (* "요약 완료" *)
| SSummaryFailed                     (* f"요약 실패: {e}" *)
(* translator.py *)
| STranslated                        (* "번역 완료" *)
| STranslateFailed                   (* f"번역 실패: {e}" *)
| SSegmentOf (i total : Z)           (* f"세그먼트 번역 중... ({i}/{total})" *)
| SSegmentsDone                      (* "세그먼트 번역 완료" *)
| SSegmentsFailed                    (* f"세그먼트 번역 실패: {e}" *)
(* core_file_handler.py *)
| SSrtCreating (path : string)       (* f"SRT 파일 생성 중: {path}" *)
| SSrtDone                           (* "SRT 파일 생성 완료" *)
| SSrtFailed                         (* f"SRT 파일 생성 실패: {e}" *)
| STxtCreating (path : string)       (* f"TXT 파일 생성 중: {path}" *)
| STxtDone                           (* "TXT 파일 생성 완료" *)
| STxtFailed                         (* f"TXT 파일 생성 실패: {e}" *)
| SPdfCreating (path : string)       (* f"PDF 파일 생성 중: {path}" *)
| SPdfDone                           (* "PDF 파일 생성 완료" *)
| SPdfFailed.                        (* f"PDF 파일 생성 실패: {e}" *)

(** The texts handed to [emit_error]. *)
Inductive error_msg :=
| ErrModelLoad      (* "모델 로드 실패" *)
| ErrTranscription. (* "전사 실패" *)

(** The second argument of the [finished] signal. *)
Inductive payload :=
| PNone                       (* None *)
| PCancelled                  (* "작업이 취소되었습니다" *)
| PResult (r : job_result).   (* self.result *)

(** The collaborator calls the worker makes. *)
Inductive collaborator :=
| CLoadModel
| CTranscribe
| CSummarize
| CTranslateText
| CTranslateSummary
| CTranslateSegments
| CCreateTxt (path : string)
| CCreateSrt (path : string)
| CCreatePdf (path : string).

(** Calls of the libraries outside the repository. *)
Inductive external :=
| XWhisperLoad (size : string)                  (* whisper.load_model *)
| XWhisperTranscribe (path : string)            (* model.transcribe *)
| XSentTokenize (text : string)                 (* nltk sent_tokenize *)
| XLsa (text : string) (sentences : Z)          (* sumy LsaSummarizer *)
| XGoogleTranslate (text dest src : string)     (* googletrans translate *)
| XSleep.                                       (* time.sleep(0.5) *)

(** What happens during a run, in order.  The first four are the Qt
    signals of [BaseWorker]; [ECancelRequested] is the observer calling
    [cancel]; [EWrite] is a file opened for writing and filled.  The others
    are marks that no observer sees: a stage comment of [run] reached, one of
    the cancellation checks of [run] made, a collaborator called by the
    worker and what it returned (as a truth value), a library called. *)
Inductive event :=
| EProgress (value : Z)
| EStatus (m : status_msg)
| EError (m : error_msg)
| EFinished (success : bool) (result : payload)
| ECancelRequested
| EWrite (path : string)
| EStage (n : nat)
| ECheckpoint (n : nat)
| ECall (c : collaborator)
| EReturn (c : collaborator) (ok : bool)
| EExternal (x : external).

(** The handle of a loaded whisper model. *)
Definition whisper_model := N.

(** [WhisperProcessor]: the singleton's attributes and the class-level
    cache. *)
Record whisper_state := {
  current_model : option whisper_model;
  current_model_size : option string;
  _models : gmap string whisper_model
}.

(** What lies outside the repository. [None] stands for a raised exception. *)
Record environment := {
  (** [whisper.load_model(size, device=...)] *)
  whisper_load_model : string -> option whisper_model;
  (** [model.transcribe(path, language=..., verbose=False)] *)
  whisper_transcribe : whisper_model -> string -> option string -> option transcription;
  (** [len(sent_tokenize(text))] *)
  sent_tokenize_count : string -> option Z;
  (** the sentences the LSA summarizer picks, joined by blanks *)
  lsa_summary : string -> Z -> option string;
  (** [GoogleTranslator().translate(text, dest, src).text]; the first argument
      counts the requests made before this one *)
  google_translate : nat -> string -> string -> string -> option string;
  (** [open(path, "w", encoding="utf-8")] succeeds *)
  fs_open_ok : string -> bool;
  (** drawing on the reportlab canvas of that file and saving it succeeds *)
  canvas_ok : string -> bool;
  (** the scheduling point at which the observer calls [cancel], if it does *)
  cancel_at : option nat
}.

(** The world of the worker thread. *)
Record world := {
  w_cancelled : bool;                    (* BaseWorker._is_cancelled *)
  w_interruption : bool;                 (* QThread's interruption request *)
  w_clock : nat;                         (* scheduling points passed *)
  w_log : list event;                    (* oldest first *)
  w_whisper : whisper_state;
  w_disk : gmap string file_content;
  w_result : job_result
}.

Definition set_flags (c i : bool) (w : world) : world :=
  {| w_cancelled := c; w_interruption := i; w_clock := w_clock w; w_log := w_log w;
     w_whisper := w_whisper w; w_disk := w_disk w; w_result := w_result w |}.

Definition set_clock (n : nat) (w : world) : world :=
  {| w_cancelled := w_cancelled w; w_interruption := w_interruption w; w_clock := n;
     w_log := w_log w; w_whisper := w_whisper w; w_disk := w_disk w;
     w_result := w_result w |}.

Definition set_log (l : list event) (w : world) : world :=
  {| w_cancelled := w_cancelled w; w_interruption := w_interruption w;
     w_clock := w_clock w; w_log := l; w_whisper := w_whisper w; w_disk := w_disk w;
     w_result := w_result w |}.

Definition set_whisper (s : whisper_state) (w : world) : world :=
  {| w_cancelled := w_cancelled w; w_interruption := w_interruption w;
     w_clock := w_clock w; w_log := w_log w; w_whisper := s; w_disk := w_disk w;
     w_result := w_result w |}.

Definition set_disk (d : gmap string file_content) (w : world) : world :=
  {| w_cancelled := w_cancelled w; w_interruption := w_interruption w;
     w_clock := w_clock w; w_log := w_log w; w_whisper := w_whisper w; w_disk := d;
     w_result := w_result w |}.

Definition set_result (r : job_result) (w : world) : world :=
  {| w_cancelled := w_cancelled w; w_interruption := w_interruption w;
     w_clock := w_clock w; w_log := w_log w; w_whisper := w_whisper w;
     w_disk := w_disk w; w_result := r |}.

(** ** The monad of the worker thread: state passing over the world *)

Definition M (A : Type) : Type := world -> A * world.

Definition ret {A} (a : A) : M A := fun w => (a, w).

Definition bind {A B} (m : M A) (k : A -> M B) : M B :=
  fun w => let (a, w') := m w in k a w'.

Declare Scope worker_scope.
Delimit Scope worker_scope with worker.
Notation "x <- m ;; k" := (bind m (fun x => k))
  (at level 100, m at next level, k at level 200, right associativity, only parsing)
  : worker_scope.
Notation "m ;; k" := (bind m (fun _ => k))
  (at level 100, k at level 200, right associativity, only parsing) : worker_scope.
Open Scope worker_scope.

(** Adds an event at the end of the log. *)
Definition record (e : event) : M unit :=
  fun w => (tt, set_log (w_log w ++ [e]) w).

(** [when b m]: [if b: m]. *)
Definition when (b : bool) (m : M unit) : M unit := if b then m else ret tt.

(** A callback argument that may be [None]: [if cb: cb(msg)]. *)
Definition callback (cb : option (status_msg -> M unit)) (msg : status_msg) : M unit :=
  match cb with
  | Some f => f msg
  | None => ret tt
  end.

(** ** workers/workers_base.py *)

Module BaseWorker.
Section WithEnvironment.
Context (E : environment).

(** [cancel()], called from the observer's thread: the flag is set and Qt is
    asked to interrupt the thread. *)
Definition cancel : M unit :=
  fun w => (tt, set_flags true true (set_log (w_log w ++ [ECancelRequested]) w)).

(** A scheduling point of the worker thread: the observer's thread may run
    here, and calls [cancel] when its moment has come. *)
Definition yield : M unit :=
  fun w =>
    let w1 := if bool_decide (cancel_at E = Some (w_clock w)) then snd (cancel w) else w in
    (tt, set_clock (S (w_clock w1)) w1).

Definition is_cancelled : M bool :=
  yield ;; (fun w => (w_cancelled w || w_interruption w, w)).

Definition update_progress (value : Z) : M unit :=
  c <- is_cancelled ;;
  when (negb c) (record (EProgress (Z.max 0 (Z.min 100 value)))).

Definition update_status (message : status_msg) : M unit :=
  c <- is_cancelled ;;
  when (negb c) (record (EStatus message)).

Definition emit_error (message : error_msg) : M unit := record (EError message).

Definition emit_finished (success : bool) (result : payload) : M unit :=
  record (EFinished success result).

(** A library outside the repository is called: time passes, the call is
    logged. *)
Definition external_call (x : external) : M unit := yield ;; record (EExternal x).

(** The worker calls a collaborator: the call and the truth value of what it
    returns are logged. *)
Definition invoke {A} (c : collaborator) (truth : A -> bool) (m : M A) : M A :=
  record (ECall c) ;;
  r <- m ;;
  record (EReturn c (truth r)) ;;
  ret r.

(** One of the cancellation checks of [run]: [self.is_cancelled()], marked in
    the log once made. *)
Definition checkpoint (n : nat) : M bool :=
  c <- is_cancelled ;;
  record (ECheckpoint n) ;;
  ret c.

End WithEnvironment.
End BaseWorker.

(** ** core/core_whisper.py *)

Module WhisperProcessor.
Section WithEnvironment.
Context (E : environment).

Definition get_state : M whisper_state := fun w => (w_whisper w, w).
Definition put_state (s : whisper_state) : M unit := fun w => (tt, set_whisper s w).

(** [WhisperProcessor.get_instance()]: [cls()] returns the one instance, and
    runs [__init__] on it again, which forgets the current model; the cache
    of the class stays. *)
Definition get_instance : M unit :=
  s <- get_state ;;
  put_state {| current_model := None; current_model_size := None; _models := _models s |}.

Definition load_model (model_size : string) (progress_callback : option (status_msg -> M unit))
  : M bool :=
  s <- get_state ;;
  if bool_decide (current_model_size s = Some model_size)
     && bool_decide (is_Some (current_model s))
  then
    callback progress_callback (SModelCached model_size) ;;
    ret true
  else
    match _models s !! model_size with
    | Some m =>
        put_state {| current_model := Some m; current_model_size := Some model_size;
                     _models := _models s |} ;;
        callback progress_callback (SModelFromCache model_size) ;;
        ret true
    | None =>
        callback progress_callback (SModelDownloading model_size) ;;
        BaseWorker.external_call E (XWhisperLoad model_size) ;;
        match whisper_load_model E model_size with
        | Some m =>
            s' <- get_state ;;
            put_state {| current_model := Some m; current_model_size := Some model_size;
                         _models := <[model_size := m]> (_models s') |} ;;
            callback progress_callback (SModelLoaded model_size) ;;
            ret true
        | None =>
            callback progress_callback SModelLoadFailed ;;
            ret false
        end
    end.

Definition transcribe (file_path : string) (language : option string)
  (progress_callback : option (status_msg -> M unit)) : M (option transcription) :=
  s <- get_state ;;
  match current_model s with
  | None => ret None
  | Some m =>
      callback progress_callback (STranscribingFile file_path) ;;
      BaseWorker.external_call E (XWhisperTranscribe file_path) ;;
      match whisper_transcribe E m file_path language with
      | Some result =>
          callback progress_callback STranscribed ;;
          ret (Some result)
      | None =>
          callback progress_callback STranscribeFailed ;;
          ret None
      end
  end.

(** [clear_cache()] *)
Definition clear_cache : M unit :=
  put_state {| current_model := None; current_model_size := None; _models := ∅ |}.

End WithEnvironment.
End WhisperProcessor.

(** ** core/core_summarizer.py *)

Module TextSummarizer.
Section WithEnvironment.
Context (E : environment).

(** [summarize(text, ratio, progress_callback=...)], with [min_sentences = 1]
    and [max_sentences = None] as the worker leaves them. *)
Definition summarize (text : string) (ratio : float)
  (progress_callback : option (status_msg -> M unit)) : M (option string) :=
  if negb (PyStr.truthy text) || negb (PyStr.truthy (PyStr.strip text)) then ret None
  else
    callback progress_callback SAnalysing ;;
    BaseWorker.external_call E (XSentTokenize text) ;;
    match sent_tokenize_count E text with
    | None => callback progress_callback SSummaryFailed ;; ret None
    | Some sentence_count =>
        if sentence_count <=? 1 then ret (Some text)
        else
          match PyFloat.py_int (PyFloat.of_int sentence_count * ratio)%float with
          | None => callback progress_callback SSummaryFailed ;; ret None
          | Some k =>
              let summary_sentence_count := Z.max 1 k in
              callback progress_callback (SSummaryOf summary_sentence_count sentence_count) ;;
              BaseWorker.external_call E (XLsa text summary_sentence_count) ;;
              match lsa_summary E text summary_sentence_count with
              | Some summary_text =>
                  callback progress_callback SSummaryDone ;;
                  ret (Some summary_text)
              | None => callback progress_callback SSummaryFailed ;; ret None
              end
          end
    end.

End WithEnvironment.
End TextSummarizer.

(** ** core/translator.py *)

Module Translator.
Section WithEnvironment.
Context (E : environment).

(** The translation requests made so far. *)
Fixpoint requests (l : list event) : nat :=
  match l with
  | [] => O
  | EExternal (XGoogleTranslate _ _ _) :: l' => S (requests l')
  | _ :: l' => requests l'
  end.

(** [self.translator.translate(text, dest=..., src=...).text] *)
Definition request (text dest src : string) : M (option string) :=
  fun w =>
    let n := requests (w_log w) in
    let (_, w') := BaseWorker.external_call E (XGoogleTranslate text dest src) w in
    (google_translate E n text dest src, w').

Definition translate_text (text target_lang source_lang : string)
  (progress_callback : option (status_msg -> M unit)) : M (option string) :=
  if negb (PyStr.truthy text) || negb (PyStr.truthy (PyStr.strip text)) then ret None
  else
    callback progress_callback (STranslatingTo target_lang) ;;
    r <- request text target_lang source_lang ;;
    match r with
    | Some translated_text =>
        callback progress_callback STranslated ;;
        ret (Some translated_text)
    | None =>
        callback progress_callback STranslateFailed ;;
        ret None
    end.

Definition set_text (s : segment) (t : string) : segment :=
  {| seg_start := seg_start s; seg_end := seg_end s; seg_text := t |}.

(** One turn of the loop of [translate_segments] for the segment of index
    [i]: the copy of the segment to append. *)
Definition translate_segment (target_lang source_lang : string)
  (progress_callback : option (status_msg -> M unit)) (total : Z) (i : Z) (seg : segment)
  : M segment :=
  callback progress_callback (SSegmentOf (i + 1) total) ;;
  if PyStr.truthy (seg_text seg) then
    translated_text <- translate_text (PyStr.strip (seg_text seg)) target_lang source_lang None ;;
    if PyStr.truthy_opt translated_text
    then ret (set_text seg (default "" translated_text))
    else ret seg
  else ret seg.

(** The loop of [translate_segments]; [None] when [(i + 1) % batch_size]
    raises ZeroDivisionError, which leaves the loop. *)
Fixpoint translate_loop (target_lang source_lang : string)
  (progress_callback : option (status_msg -> M unit)) (batch_size total : Z)
  (i : Z) (segments translated_segments : list segment) : M (option (list segment)) :=
  match segments with
  | [] => ret (Some translated_segments)
  | seg :: rest =>
      translated_segment <- translate_segment target_lang source_lang progress_callback total i seg ;;
      let translated_segments := (translated_segments ++ [translated_segment])%list in
      if batch_size =? 0 then ret None
      else
        when ((i + 1) mod batch_size =? 0) (BaseWorker.external_call E XSleep) ;;
        translate_loop target_lang source_lang progress_callback batch_size total
          (i + 1) rest translated_segments
  end.

Definition translate_segments (segments : list segment) (target_lang source_lang : string)
  (progress_callback : option (status_msg -> M unit)) (batch_size : Z)
  : M (option (list segment)) :=
  match segments with
  | [] => ret None
  | _ :: _ =>
      r <- translate_loop target_lang source_lang progress_callback batch_size
             (Z.of_nat (List.length segments)) 0 segments [] ;;
      match r with
      | Some translated_segments =>
          callback progress_callback SSegmentsDone ;;
          ret (Some translated_segments)
      | None =>
          callback progress_callback SSegmentsFailed ;;
          ret None
      end
  end.

(** The default values of the parameters the worker leaves out. *)
Definition default_source_lang : string := "auto".
Definition default_batch_size : Z := 10.

End WithEnvironment.
End Translator.

(** ** core/core_file_handler.py *)

Module FileHandler.

(** [format_time(seconds)]; [None] when [int] raises on a NaN or an
    infinity. *)
Definition format_time (seconds : float) : option string :=
  match PyFloat.py_int (seconds / PyFloat.of_int 3600)%float with
  | None => None
  | Some hours =>
      match PyFloat.py_int (PyFloat.py_mod seconds 3600 / PyFloat.of_int 60)%float with
      | None => None
      | Some minutes =>
          let secs := PyFloat.py_mod seconds 60 in
          match PyFloat.py_int secs with
          | None => None
          | Some int_secs =>
              match PyFloat.py_int ((secs - PyFloat.of_int int_secs) * PyFloat.of_int 1000)%float with
              | None => None
              | Some millisecs =>
                  Some (PyStr.format_d 2 hours +:+ ":" +:+ PyStr.format_d 2 minutes +:+ ":"
                        +:+ PyStr.format_d 2 int_secs +:+ "," +:+ PyStr.format_d 3 millisecs)
              end
          end
      end
  end.

(** The loop of [_wrap_text]: [current_line] is the line being filled,
    [lines] the lines that are full. *)
Fixpoint wrap_words (max_width : Z) (words : list string) (current_line : string)
  (lines : list string) : list string :=
  match words with
  | [] => if PyStr.truthy current_line then (lines ++ [current_line])%list else lines
  | word :: rest =>
      let test_line :=
        if PyStr.truthy current_line then current_line +:+ " " +:+ word else word in
      if Z.of_nat (String.length test_line) <=? max_width
      then wrap_words max_width rest test_line lines
      else
        wrap_words max_width rest word
          (if PyStr.truthy current_line then (lines ++ [current_line])%list else lines)
  end.

(** [_wrap_text(text, max_width)] *)
Definition _wrap_text (text : string) (max_width : Z) : list string :=
  wrap_words max_width (PyStr.split text) "" [].

(** The three writes of one turn of the loop of [create_srt], for the
    segment of index [i], added to what the file holds; [false] when
    [format_time] raises, after the number line is written. *)
Definition write_cue (i : Z) (seg : segment) (written : string) : string * bool :=
  let written := written +:+ PyStr.digits (i + 1) +:+ PyStr.newline in
  match format_time (seg_start seg) with
  | None => (written, false)
  | Some start_time =>
      match format_time (seg_end seg) with
      | None => (written, false)
      | Some end_time =>
          let written := written +:+ start_time +:+ " --> " +:+ end_time +:+ PyStr.newline in
          let text := PyStr.strip (seg_text seg) in
          (written +:+ text +:+ PyStr.newline +:+ PyStr.newline, true)
      end
  end.

(** [for i, segment in enumerate(segments): ...] from index [i] on. *)
Fixpoint write_cues (i : Z) (segments : list segment) (written : string) : string * bool :=
  match segments with
  | [] => (written, true)
  | seg :: rest =>
      let (written', ok) := write_cue i seg written in
      if ok then write_cues (i + 1) rest written' else (written', false)
  end.

(** The file system takes the file: it is on the disk, and in the log. *)
Definition store (path : string) (content : file_content) : M unit :=
  fun w => (tt, set_disk (<[path := content]> (w_disk w)) (set_log (w_log w ++ [EWrite path]) w)).

Section WithEnvironment.
Context (E : environment).

(** The file at [path] is created or truncated and holds [content] once
    closed. *)
Definition write_file (path : string) (content : file_content) : M unit :=
  BaseWorker.yield E ;;
  store path content.

Definition create_srt (segments : list segment) (output_file : string)
  (progress_callback : option (status_msg -> M unit)) : M bool :=
  callback progress_callback (SSrtCreating output_file) ;;
  if fs_open_ok E output_file then
    let (written, ok) := write_cues 0 segments "" in
    write_file output_file (TextFile written) ;;
    if ok then callback progress_callback SSrtDone ;; ret true
    else callback progress_callback SSrtFailed ;; ret false
  else
    callback progress_callback SSrtFailed ;; ret false.

Definition create_txt (text : string) (output_file : string)
  (progress_callback : option (status_msg -> M unit)) : M bool :=
  callback progress_callback (STxtCreating output_file) ;;
  if fs_open_ok E output_file then
    write_file output_file (TextFile text) ;;
    callback progress_callback STxtDone ;;
    ret true
  else
    callback progress_callback STxtFailed ;; ret false.

(** Whether the time stamps of every segment can be drawn. *)
Definition times_drawable (segments : list segment) : bool :=
  forallb (fun seg => bool_decide (is_Some (format_time (seg_start seg)))
                      && bool_decide (is_Some (format_time (seg_end seg)))) segments.

(** [create_pdf]: the canvas is drawn on (title, the summary section when
    there is a summary, then each segment's time stamps and text) and saved at
    the end; nothing is written when drawing or saving raises.  The
    [full_text] argument is not read by the source. *)
Definition create_pdf (segments : list segment) (output_file : string) (title : string)
  (full_text summary_text : option string)
  (progress_callback : option (status_msg -> M unit)) : M bool :=
  callback progress_callback (SPdfCreating output_file) ;;
  if times_drawable segments && canvas_ok E output_file then
    write_file output_file
      (PdfFile title (if PyStr.truthy_opt summary_text then summary_text else None) segments) ;;
    callback progress_callback SPdfDone ;;
    ret true
  else
    callback progress_callback SPdfFailed ;; ret false.

End WithEnvironment.

Definition get_output_path (input_file suffix extension : string) : string :=
  let input_path := PyPath.parse input_file in
  let output_dir := PyPath.parent input_path in
  let base_name := PyPath.stem input_path in
  let output_filename := base_name +:+ suffix +:+ "." +:+ extension in
  PyPath.to_str (PyPath.join output_dir output_filename).

End FileHandler.

(** ** workers/workers_transcription.py *)

Module TranscriptionWorker.

(** The attributes [__init__] stores. *)
Record config := {
  file_path : string;
  model_size : string;
  language : option string;
  output_formats : list string;
  enable_summary : bool;
  summary_ratio : float;
  enable_translation : bool;
  target_language : string
}.

(** [output_formats or ['txt', 'srt']] *)
Definition formats_or_default (output_formats : option (list string)) : list string :=
  match output_formats with
  | Some (f :: fs) => f :: fs
  | Some [] => ["txt"; "srt"]
  | None => ["txt"; "srt"]
  end.

(** [self.result] as [__init__] leaves it. *)
Definition empty_result : job_result :=
  {| res_transcript := None; res_summary := None; res_translation := None; res_files := [] |}.

(** The world a fresh worker starts in: not cancelled, nothing logged. *)
Definition initial_world (s : whisper_state) (disk : gmap string file_content) : world :=
  {| w_cancelled := false; w_interruption := false; w_clock := O; w_log := [];
     w_whisper := s; w_disk := disk; w_result := empty_result |}.

(** ['txt' in self.output_formats] *)
Definition has_format (fmt : string) (formats : list string) : bool :=
  existsb (String.eqb fmt) formats.

(** [if translated_segments:] *)
Definition truthy_segments (o : option (list segment)) : bool :=
  match o with
  | Some (_ :: _) => true
  | _ => false
  end.

Section WithEnvironment.
Context (E : environment) (self : config).

Definition update_status := BaseWorker.update_status E.
Definition update_progress := BaseWorker.update_progress E.

(** The path is appended to [created_files] when the renderer returns
    true. *)
Definition render (c : collaborator) (path : string) (m : M bool)
  (created_files : list string) : M (list string) :=
  ok <- BaseWorker.invoke c id m ;;
  ret (if ok then (created_files ++ [path])%list else created_files).

Definition _create_output_files (transcript_text : string) (segments : list segment)
  (summary_text translated_text translated_summary : option string)
  (translated_segments : option (list segment)) : M (list string) :=
  let created_files := [] in
  let base_name := PyPath.stem (PyPath.parse (file_path self)) in
  (* TXT *)
  created_files <-
    (if has_format "txt" (output_formats self) then
       let txt_file := FileHandler.get_output_path (file_path self) "" "txt" in
       created_files <- render (CCreateTxt txt_file) txt_file
         (FileHandler.create_txt E transcript_text txt_file (Some update_status))
         created_files ;;
       created_files <-
         (if PyStr.truthy_opt summary_text then
            let summary_file := FileHandler.get_output_path (file_path self) "_summary" "txt" in
            render (CCreateTxt summary_file) summary_file
              (FileHandler.create_txt E (default "" summary_text) summary_file
                 (Some update_status))
              created_files
          else ret created_files) ;;
       created_files <-
         (if PyStr.truthy_opt translated_text then
            let trans_file :=
              FileHandler.get_output_path (file_path self) ("_" +:+ target_language self) "txt" in
            render (CCreateTxt trans_file) trans_file
              (FileHandler.create_txt E (default "" translated_text) trans_file
                 (Some update_status))
              created_files
          else ret created_files) ;;
       (if PyStr.truthy_opt translated_summary then
          let trans_summary_file :=
            FileHandler.get_output_path (file_path self)
              ("_summary_" +:+ target_language self) "txt" in
          render (CCreateTxt trans_summary_file) trans_summary_file
            (FileHandler.create_txt E (default "" translated_summary) trans_summary_file
               (Some update_status))
            created_files
        else ret created_files)
     else ret created_files) ;;
  (* SRT *)
  created_files <-
    (if has_format "srt" (output_formats self) then
       let srt_file := FileHandler.get_output_path (file_path self) "" "srt" in
       created_files <- render (CCreateSrt srt_file) srt_file
         (FileHandler.create_srt E segments srt_file (Some update_status))
         created_files ;;
       (if truthy_segments translated_segments then
          let trans_srt_file :=
            FileHandler.get_output_path (file_path self) ("_" +:+ target_language self) "srt" in
          render (CCreateSrt trans_srt_file) trans_srt_file
            (FileHandler.create_srt E (default [] translated_segments) trans_srt_file
               (Some update_status))
            created_files
        else ret created_files)
     else ret created_files) ;;
  (* PDF *)
  (if has_format "pdf" (output_formats self) then
     let pdf_file := FileHandler.get_output_path (file_path self) "_transcript" "pdf" in
     created_files <- render (CCreatePdf pdf_file) pdf_file
       (FileHandler.create_pdf E segments pdf_file (base_name +:+ " - Transcript")
          (Some transcript_text) summary_text (Some update_status))
       created_files ;;
     (if truthy_segments translated_segments then
        let trans_pdf_file :=
          FileHandler.get_output_path (file_path self)
            ("_transcript_" +:+ target_language self) "pdf" in
        render (CCreatePdf trans_pdf_file) trans_pdf_file
          (FileHandler.create_pdf E (default [] translated_segments) trans_pdf_file
             (base_name +:+ " - Transcript (" +:+ target_language self +:+ ")")
             translated_text translated_summary (Some update_status))
          created_files
      else ret created_files)
   else ret created_files).

Definition get_result : M job_result := fun w => (w_result w, w).
Definition put_result (r : job_result) : M unit := fun w => (tt, set_result r w).

(** [self.result['transcript'] = ...] and the like. *)
Definition set_transcript (t : transcription) : M unit :=
  r <- get_result ;;
  put_result {| res_transcript := Some t; res_summary := res_summary r;
                res_translation := res_translation r; res_files := res_files r |}.

Definition set_summary (s : string) : M unit :=
  r <- get_result ;;
  put_result {| res_transcript := res_transcript r; res_summary := Some s;
                res_translation := res_translation r; res_files := res_files r |}.

Definition set_translation (t : translation) : M unit :=
  r <- get_result ;;
  put_result {| res_transcript := res_transcript r; res_summary := res_summary r;
                res_translation := Some t; res_files := res_files r |}.

Definition set_files (fs : list string) : M unit :=
  r <- get_result ;;
  put_result {| res_transcript := res_transcript r; res_summary := res_summary r;
                res_translation := res_translation r; res_files := fs |}.

(** Stage 5 and the end of [run] (lines 163 to 185). *)
Definition run_stage5 (transcript_text : string) (segments : list segment)
  (summary_text translated_text translated_summary : option string)
  (translated_segments : option (list segment)) : M unit :=
  record (EStage 5) ;;
  update_status SCreatingFiles ;;
  created_files <- _create_output_files transcript_text segments summary_text
                     translated_text translated_summary translated_segments ;;
  c <- BaseWorker.checkpoint E 5 ;;
  if c then BaseWorker.emit_finished false PCancelled
  else
    set_files created_files ;;
    update_progress 100 ;;
    update_status SAllDone ;;
    r <- get_result ;;
    BaseWorker.emit_finished true (PResult r).

(** Stage 4 and what follows (lines 119 to 185). *)
Definition run_stage4 (transcript_text : string) (segments : list segment)
  (summary_text : option string) : M unit :=
  record (EStage 4) ;;
  if enable_translation self then
    update_status (STranslatingTo (target_language self)) ;;
    translated_text <-
      BaseWorker.invoke CTranslateText PyStr.truthy_opt
        (Translator.translate_text E transcript_text (target_language self)
           Translator.default_source_lang (Some update_status)) ;;
    translated_summary <-
      (if PyStr.truthy_opt summary_text then
         BaseWorker.invoke CTranslateSummary PyStr.truthy_opt
           (Translator.translate_text E (default "" summary_text) (target_language self)
              Translator.default_source_lang (Some update_status))
       else ret None) ;;
    translated_segments <-
      BaseWorker.invoke CTranslateSegments truthy_segments
        (Translator.translate_segments E segments (target_language self)
           Translator.default_source_lang (Some update_status)
           Translator.default_batch_size) ;;
    set_translation {| tl_text := translated_text; tl_summary := translated_summary;
                       tl_segments := translated_segments |} ;;
    c <- BaseWorker.checkpoint E 4 ;;
    if c then BaseWorker.emit_finished false PCancelled
    else
      update_progress 85 ;;
      run_stage5 transcript_text segments summary_text translated_text translated_summary
        translated_segments
  else
    update_progress 85 ;;
    run_stage5 transcript_text segments summary_text None None None.

(** Stage 3 and what follows (lines 98 to 185). *)
Definition run_stage3 (transcript_text : string) (segments : list segment) : M unit :=
  record (EStage 3) ;;
  if enable_summary self then
    update_status SSummarizing ;;
    summary_text <-
      BaseWorker.invoke CSummarize PyStr.truthy_opt
        (TextSummarizer.summarize E transcript_text (summary_ratio self)
           (Some update_status)) ;;
    when (PyStr.truthy_opt summary_text) (set_summary (default "" summary_text)) ;;
    c <- BaseWorker.checkpoint E 3 ;;
    if c then BaseWorker.emit_finished false PCancelled
    else
      update_progress 70 ;;
      run_stage4 transcript_text segments summary_text
  else
    update_progress 70 ;;
    run_stage4 transcript_text segments None.

(** Stage 2 and what follows (lines 74 to 185). *)
Definition run_stage2 : M unit :=
  record (EStage 2) ;;
  update_status STranscribing ;;
  transcription_result <-
    BaseWorker.invoke CTranscribe (fun r : option transcription => bool_decide (is_Some r))
      (WhisperProcessor.transcribe E (file_path self) (language self)
         (Some update_status)) ;;
  match transcription_result with
  | None =>
      BaseWorker.emit_error ErrTranscription ;;
      BaseWorker.emit_finished false PNone
  | Some result =>
      c <- BaseWorker.checkpoint E 2 ;;
      if c then BaseWorker.emit_finished false PCancelled
      else
        set_transcript result ;;
        update_progress 60 ;;
        run_stage3 (tr_text result) (tr_segments result)
  end.

(** [run()]. The stages follow one another as in the source, each with what
    comes after it; an early [return] ends the computation.  The handler of
    the outer [try] is not reached: every operation of the embedding handles
    its own faults, as the collaborators of the source do. *)
Definition run : M unit :=
  record (EStage 1) ;;
  update_progress 0 ;;
  update_status SLoadingModel ;;
  WhisperProcessor.get_instance ;;
  loaded <-
    BaseWorker.invoke CLoadModel id
      (WhisperProcessor.load_model E (model_size self) (Some update_status)) ;;
  if negb loaded then
    BaseWorker.emit_error ErrModelLoad ;;
    BaseWorker.emit_finished false PNone
  else
    c <- BaseWorker.checkpoint E 1 ;;
    if c then BaseWorker.emit_finished false PCancelled
    else
      update_progress 10 ;;
      run_stage2.

End WithEnvironment.
End TranscriptionWorker.

(** ** Properties of logs and worlds used in the statements *)

Definition flag (w : world) : bool := w_cancelled w || w_interruption w.

Definition is_cancel_request (e : event) : bool :=
  match e with ECancelRequested => true | _ => false end.

(** The observer has asked for cancellation somewhere in the log. *)
Definition requested (l : list event) : bool := existsb is_cancel_request l.

(** The flags of the worker say what the log says. *)
Definition consistent (w : world) : Prop := flag w = requested (w_log w).

Definition is_progress (e : event) : bool :=
  match e with EProgress _ => true | _ => false end.

Definition is_status (e : event) : bool :=
  match e with EStatus _ => true | _ => false end.

Definition is_write (e : event) : bool :=
  match e with EWrite _ => true | _ => false end.

Definition is_finished (e : event) : bool :=
  match e with EFinished _ _ => true | _ => false end.

(** The values of the progress notifications of a log, in order. *)
Fixpoint progress_values (l : list event) : list Z :=
  match l with
  | [] => []
  | EProgress v :: l' => v :: progress_values l'
  | _ :: l' => progress_values l'
  end.

(** The stage a collaborator call belongs to. *)
Definition stage_of_collaborator (c : collaborator) : nat :=
  match c with
  | CLoadModel => 1
  | CTranscribe => 2
  | CSummarize => 3
  | CTranslateText | CTranslateSummary | CTranslateSegments => 4
  | CCreateTxt _ | CCreateSrt _ | CCreatePdf _ => 5
  end.

(** The stage a library call belongs to. *)
Definition stage_of_external (x : external) : nat :=
  match x with
  | XWhisperLoad _ => 1
  | XWhisperTranscribe _ => 2
  | XSentTokenize _ | XLsa _ _ => 3
  | XGoogleTranslate _ _ _ | XSleep => 4
  end.

Definition is_renderer (c : collaborator) : bool :=
  match c with
  | CCreateTxt _ | CCreateSrt _ | CCreatePdf _ => true
  | _ => false
  end.

(** The collaborators of the required stages, 1 and 2. *)
Definition is_required (c : collaborator) : bool :=
  match c with
  | CLoadModel | CTranscribe => true
  | _ => false
  end.

(** The events the collaborator of stage [n] (1 to 4) may add to the log
    while it runs: status texts through its callback, calls of its
    libraries, and the observer's request. *)
Definition collaborator_event (n : nat) (e : event) : bool :=
  match e with
  | EStatus _ | ECancelRequested => true
  | EExternal x => (stage_of_external x =? n)%nat
  | _ => false
  end.

(** The events output generation may add: status texts, the observer's
    request, files written, renderers called and returning. *)
Definition output_event (e : event) : bool :=
  match e with
  | EStatus _ | ECancelRequested | EWrite _ => true
  | ECall c | EReturn c _ => is_renderer c
  | _ => false
  end.

(** The work of the stages after stage [n]: their marks in the log, their
    collaborator and library calls, the files. *)
Definition work_after (n : nat) (e : event) : bool :=
  match e with
  | EStage k | ECheckpoint k => (n <? k)%nat
  | ECall c | EReturn c _ => (n <? stage_of_collaborator c)%nat
  | EExternal x => (n <? stage_of_external x)%nat
  | EWrite _ => true
  | _ => false
  end.

(** The events the stages from [n] on may add: their own work, signals but
    the error signal when [n] is above 2 (only the required stages fail), and
    the observer's request. *)
Definition from_stage (n : nat) (e : event) : bool :=
  match e with
  | EStage k | ECheckpoint k => (n <=? k)%nat
  | ECall c | EReturn c _ => (n <=? stage_of_collaborator c)%nat
  | EExternal x => (n <=? stage_of_external x)%nat
  | EError _ => (n <=? 2)%nat
  | _ => true
  end.

(** [preserves I m]: the operation keeps the property of worlds. *)
Definition preserves (I : world -> Prop) {A} (m : M A) : Prop :=
  forall w, I w -> I (snd (m w)).

(** The log has grown from [l] by events of the class [K]. *)
Definition grown (K : event -> bool) (l : list event) (w : world) : Prop :=
  exists d, w_log w = (l ++ d)%list /\ forallb K d = true.

(** ** The subtitle file, as the specification words it *)

Module SrtSpec.

(** One cue block: its number, the header, the trimmed text, a blank
    line. *)
Definition cue (n : Z) (seg : segment) : option string :=
  match FileHandler.format_time (seg_start seg), FileHandler.format_time (seg_end seg) with
  | Some start_time, Some end_time =>
      Some (PyStr.digits n +:+ PyStr.newline
            +:+ start_time +:+ " --> " +:+ end_time +:+ PyStr.newline
            +:+ PyStr.strip (seg_text seg) +:+ PyStr.newline +:+ PyStr.newline)
  | _, _ => None
  end.

(** The cue blocks of the segments, numbered from [n] on. *)
Fixpoint cues (n : Z) (segments : list segment) : option string :=
  match segments with
  | [] => Some ""
  | seg :: rest =>
      match cue n seg, cues (n + 1) rest with
      | Some c, Some r => Some (c +:+ r)
      | _, _ => None
      end
  end.

(** [format_time] returns a string for the start and for the end of every
    segment: none of its conversions to an integer raises (as [int] does for
    a NaN and for an infinity). *)
Definition printable_times (segments : list segment) : Prop :=
  Forall (fun seg => is_Some (FileHandler.format_time (seg_start seg))
                     /\ is_Some (FileHandler.format_time (seg_end seg))) segments.

End SrtSpec.

(** The segment list of the specification's example; 5.999 is the binary64
    number nearest to it. *)
Definition seg_a : segment :=
  {| seg_start := 0x0p+0%float; seg_end := 0x1.4p+1%float; seg_text := "a" |}.
Definition seg_b : segment :=
  {| seg_start := 0x1.4p+1%float; seg_end := 0x1.7fef9db22d0e5p+2%float; seg_text := "b" |}.
Definition example_segments : list segment := [seg_a; seg_b].

(** The subtitle file the specification expects for the example, and the one
    with the end of the second cue one millisecond earlier. *)
Definition example_srt_of_spec : string :=
  "1" +:+ PyStr.newline +:+ "00:00:00,000 --> 00:00:02,500" +:+ PyStr.newline
  +:+ "a" +:+ PyStr.newline +:+ PyStr.newline
  +:+ "2" +:+ PyStr.newline +:+ "00:00:02,500 --> 00:00:05,999" +:+ PyStr.newline
  +:+ "b" +:+ PyStr.newline +:+ PyStr.newline.
Definition example_srt : string :=
  "1" +:+ PyStr.newline +:+ "00:00:00,000 --> 00:00:02,500" +:+ PyStr.newline
  +:+ "a" +:+ PyStr.newline +:+ PyStr.newline
  +:+ "2" +:+ PyStr.newline +:+ "00:00:02,500 --> 00:00:05,998" +:+ PyStr.newline
  +:+ "b" +:+ PyStr.newline +:+ PyStr.newline.

(** A callback keeps the property of worlds. *)
Definition keeps_property (I : world -> Prop) (cb : option (status_msg -> M unit)) : Prop :=
  forall m, preserves I (callback cb m).

(** What a class of events lets an operation do: use the libraries of a
    stage, call its collaborators, leave its marks, report progress, write
    files, signal an error, signal the completion. *)
Definition class_uses (K : event -> bool) (n : nat) : Prop :=
  forall x, stage_of_external x = n -> K (EExternal x) = true.
Definition class_calls (K : event -> bool) (n : nat) : Prop :=
  forall c, stage_of_collaborator c = n ->
    K (ECall c) = true /\ forall b, K (EReturn c b) = true.
Definition class_marks (K : event -> bool) (n : nat) : Prop :=
  K (EStage n) = true /\ K (ECheckpoint n) = true.
Definition class_progress (K : event -> bool) : Prop :=
  forall v, K (EProgress (Z.max 0 (Z.min 100 v))) = true.
Definition class_store (K : event -> bool) : Prop := forall p, K (EWrite p) = true.
Definition class_error (K : event -> bool) : Prop := forall m, K (EError m) = true.
Definition class_finished (K : event -> bool) : Prop := forall b p, K (EFinished b p) = true.
(** Every class holds the status texts and the observer's request. *)
Definition class_base (K : event -> bool) : Prop :=
  K ECancelRequested = true /\ forall m, K (EStatus m) = true.

(** The worker is in a consistent world, its log grown from [l] by events of
    the class [K]. *)
Definition after (K : event -> bool) (l : list event) (w : world) : Prop :=
  consistent w /\ grown K l w.

(** An operation that leaves the log and the flags alone. *)
Definition silent {A} (m : M A) : Prop :=
  forall w, w_log (snd (m w)) = w_log w /\ flag (snd (m w)) = flag w.

(** A callback leaves the files alone. *)
Definition keeps_disk (cb : option (status_msg -> M unit)) : Prop :=
  forall m w, w_disk (snd (callback cb m w)) = w_disk w.

(** A callback leaves the whisper models alone. *)
Definition keeps_whisper (cb : option (status_msg -> M unit)) : Prop :=
  forall m w, w_whisper (snd (callback cb m w)) = w_whisper w.

(** A status text or the observer's request. *)
Definition is_status_or_request (e : event) : bool := is_status e || is_cancel_request e.

(** A callback adds status texts to the log, and nothing else but the
    observer's request. *)
Definition adds_status_only (cb : option (status_msg -> M unit)) : Prop :=
  forall m w, exists d,
    w_log (snd (callback cb m w)) = (w_log w ++ d)%list
    /\ forallb is_status_or_request d = true.

(** The current model of the whisper processor is the model the cache holds
    for the current size. *)
Definition coherent (s : whisper_state) : Prop :=
  forall m, current_model s = Some m ->
    exists size, current_model_size s = Some size /\ _models s !! size = Some m.

(** A callback makes no translation request. *)
Definition makes_no_request (cb : option (status_msg -> M unit)) : Prop :=
  forall m w, Translator.requests (w_log (snd (callback cb m w))) = Translator.requests (w_log w).

(** The numbers of sentences the LSA summarizer was asked for, in order. *)
Fixpoint lsa_requests (l : list event) : list Z :=
  match l with
  | [] => []
  | EExternal (XLsa _ k) :: l' => k :: lsa_requests l'
  | _ :: l' => lsa_requests l'
  end.

(** What [summarize] asks the LSA summarizer for a text and a ratio: nothing
    for a blank text, for a text of one sentence at most, or when counting
    fails; else the sentences of the text times the ratio, truncated, and one
    at least. *)
Definition lsa_request_of (E : environment) (text : string) (ratio : float) : list Z :=
  if PyStr.all_space text then []
  else
    match sent_tokenize_count E text with
    | Some n =>
        if n <=? 1 then []
        else match PyFloat.py_int (PyFloat.of_int n * ratio)%float with
             | Some k => [Z.max 1 k]
             | None => []
             end
    | None => []
    end.

(** The pauses ([time.sleep(0.5)]) of a log. *)
Fixpoint sleeps (l : list event) : nat :=
  match l with
  | [] => O
  | EExternal XSleep :: l' => S (sleeps l')
  | _ :: l' => sleeps l'
  end.

(** ** Segment translation, as the specification words it *)

Module TranslateSpec.
Section WithEnvironment.
Context (E : environment) (target_lang source_lang : string).

(** Translation of the text of a segment is attempted when the text is not
    blank; [n] requests were made before. *)
Definition attempt (n : nat) (seg : segment) : option string :=
  if PyStr.all_space (seg_text seg) then None
  else google_translate E n (PyStr.strip (seg_text seg)) target_lang source_lang.

(** The attempt succeeds when it yields a text that is not empty. *)
Definition succeeds (r : option string) : bool := PyStr.truthy_opt r.

(** The text a segment ends with. *)
Definition final_text (seg : segment) (r : option string) : string :=
  if succeeds r then default "" r else seg_text seg.

(** The requests made for the segments of a list: one for each text that is
    not blank. *)
Definition requests_for (segments : list segment) : nat :=
  List.length (List.filter (fun seg => negb (PyStr.all_space (seg_text seg))) segments).

End WithEnvironment.
End TranslateSpec.

(** ** The output planner, as the specification words it *)

Module PlanSpec.

Inductive variant := Original | Summary | Translated | TranslatedSummary.
Inductive format := Text | Subtitle | Document.

Definition extension (f : format) : string :=
  match f with
  | Text => "txt"
  | Subtitle => "srt"
  | Document => "pdf"
  end.

(** The suffix of a variant; the two documents carry [_transcript]. *)
Definition suffix (target_lang : string) (f : format) (v : variant) : string :=
  match f, v with
  | Document, Original => "_transcript"
  | Document, _ => "_transcript_" +:+ target_lang
  | _, Original => ""
  | _, Summary => "_summary"
  | _, Translated => "_" +:+ target_lang
  | _, TranslatedSummary => "_summary_" +:+ target_lang
  end.

(** The directory of the input file joined with its base name, the suffix
    and the extension. *)
Definition output_path (input_file target_lang : string) (f : format) (v : variant) : string :=
  let input := PyPath.parse input_file in
  PyPath.to_str
    (PyPath.join (PyPath.parent input)
       (PyPath.stem input +:+ suffix target_lang f v +:+ "." +:+ extension f)).

(** The renderer call of a format for a path. *)
Definition renderer (f : format) (path : string) : collaborator :=
  match f with
  | Text => CCreateTxt path
  | Subtitle => CCreateSrt path
  | Document => CCreatePdf path
  end.

(** What stage 5 is given. *)
Record data := {
  d_summary : option string;
  d_translated_text : option string;
  d_translated_summary : option string;
  d_translated_segments : option (list segment)
}.

Definition optional {A} (b : bool) (x : A) : list A := if b then [x] else [].

(** The files to attempt, in order, for the requested formats. *)
Definition plan (formats : list string) (d : data) : list (format * variant) :=
  (if TranscriptionWorker.has_format "txt" formats then
     [(Text, Original)]
     ++ optional (PyStr.truthy_opt (d_summary d)) (Text, Summary)
     ++ optional (PyStr.truthy_opt (d_translated_text d)) (Text, Translated)
     ++ optional (PyStr.truthy_opt (d_translated_summary d)) (Text, TranslatedSummary)
   else [])
  ++ (if TranscriptionWorker.has_format "srt" formats then
        [(Subtitle, Original)]
        ++ optional (TranscriptionWorker.truthy_segments (d_translated_segments d))
             (Subtitle, Translated)
      else [])
  ++ (if TranscriptionWorker.has_format "pdf" formats then
        [(Document, Original)]
        ++ optional (TranscriptionWorker.truthy_segments (d_translated_segments d))
             (Document, Translated)
      else []).

(** The eight combinations of variant and format. *)
Definition all_combinations : list (format * variant) :=
  [(Text, Original); (Text, Summary); (Text, Translated); (Text, TranslatedSummary);
   (Subtitle, Original); (Subtitle, Translated); (Document, Original); (Document, Translated)].

End PlanSpec.

(** The renderer calls of a log, in order. *)
Fixpoint renderer_calls (l : list event) : list collaborator :=
  match l with
  | [] => []
  | ECall c :: l' => if is_renderer c then c :: renderer_calls l' else renderer_calls l'
  | _ :: l' => renderer_calls l'
  end.

(** The renderer calls of a log that returned false. *)
Definition is_failed_render (e : event) : bool :=
  match e with
  | EReturn c false => is_renderer c
  | _ => false
  end.

(** The paths of the files written, in order. *)
Fixpoint written (l : list event) : list string :=
  match l with
  | [] => []
  | EWrite p :: l' => p :: written l'
  | _ :: l' => written l'
  end.

(** The path a renderer is called for. *)
Definition renderer_path (c : collaborator) : option string :=
  match c with
  | CCreateTxt p | CCreateSrt p | CCreatePdf p => Some p
  | _ => None
  end.

(** The paths of the renderers that returned true, in order. *)
Fixpoint rendered_files (l : list event) : list string :=
  match l with
  | [] => []
  | EReturn c true :: l' =>
      match renderer_path c with
      | Some p => p :: rendered_files l'
      | None => rendered_files l'
      end
  | _ :: l' => rendered_files l'
  end.

(** The path and the renderer call of an item of the plan, for the input
    file and the target language of a job. *)
Definition plan_path (self : TranscriptionWorker.config) (it : PlanSpec.format * PlanSpec.variant)
  : string :=
  PlanSpec.output_path (TranscriptionWorker.file_path self)
    (TranscriptionWorker.target_language self) (fst it) (snd it).

Definition plan_call (self : TranscriptionWorker.config) (it : PlanSpec.format * PlanSpec.variant)
  : collaborator :=
  PlanSpec.renderer (fst it) (plan_path self it).

(** [hoare P m Q]: from a world of [P], the operation [m] returns a value
    and a world of [Q]. *)
Definition hoare {A} (P : world -> Prop) (m : M A) (Q : A -> world -> Prop) : Prop :=
  forall w, P w -> Q (fst (m w)) (snd (m w)).

(** The operation [m] renders the file at [path]: it calls no renderer, it
    writes no other file and changes no other file, every file there before is
    still there, the file is on the disk when [m] returns true, and no
    renderer returns meanwhile. *)
Definition renders (path : string) (m : M bool) : Prop :=
  forall w, exists d,
    w_log (snd (m w)) = (w_log w ++ d)%list
    /\ renderer_calls d = []
    /\ incl (written d) [path]
    /\ (forall p, p <> path -> w_disk (snd (m w)) !! p = w_disk w !! p)
    /\ (fst (m w) = true -> is_Some (w_disk (snd (m w)) !! path))
    /\ (forall p, is_Some (w_disk w !! p) -> is_Some (w_disk (snd (m w)) !! p))
    /\ rendered_files d = [].

(** Where output generation stands once the items [done] of the plan are
    through, from the log [l0] and the disk [disk0]: the renderers were called
    for these items, in order; only their files were written, the others are
    as they were; the files created are among theirs, in order, and on the
    disk; they are the files of the renderers that returned true. *)
Definition rendered (self : TranscriptionWorker.config) (l0 : list event)
  (disk0 : gmap string file_content) (done : list (PlanSpec.format * PlanSpec.variant))
  (created : list string) (w : world) : Prop :=
  exists d,
    w_log w = (l0 ++ d)%list
    /\ renderer_calls d = map (plan_call self) done
    /\ incl (written d) (map (plan_path self) done)
    /\ (forall p, ~ In p (map (plan_path self) done) -> w_disk w !! p = disk0 !! p)
    /\ Forall (fun p => is_Some (w_disk w !! p)) created
    /\ sublist created (map (plan_path self) done)
    /\ created = rendered_files d
    /\ (forallb (fun e => negb (is_failed_render e)) d = true ->
        created = map (plan_path self) done).

(** What stage 5 is given, as the arguments of [_create_output_files]. *)
Definition plan_data (summary_text translated_text translated_summary : option string)
  (translated_segments : option (list segment)) : PlanSpec.data :=
  {| PlanSpec.d_summary := summary_text;
     PlanSpec.d_translated_text := translated_text;
     PlanSpec.d_translated_summary := translated_summary;
     PlanSpec.d_translated_segments := translated_segments |}.

(** No white space in a string. *)
Fixpoint no_space (s : string) : bool :=
  match s with
  | EmptyString => true
  | String c s' => negb (PyStr.is_space c) && no_space s'
  end.

(** A word: a string that is not empty and holds no white space. *)
Definition is_word (w : string) : Prop := w <> "" /\ no_space w = true.

(** Lines given as groups of words are filled greedily: the first word of
    a line did not fit at the end of the line before. *)
Fixpoint greedy_groups (max_width : Z) (groups : list (list string)) : Prop :=
  match groups with
  | [] => True
  | g :: rest =>
      match rest with
      | (w :: _) :: _ =>
          max_width < Z.of_nat (String.length (String.concat " " (g ++ [w])%list))
      | _ => True
      end
      /\ greedy_groups max_width rest
  end.

(** The same for lines given as strings. *)
Fixpoint greedy_lines (max_width : Z) (lines : list string) : Prop :=
  match lines with
  | [] => True
  | line :: rest =>
      match rest with
      | next :: _ =>
          match PyStr.split next with
          | w :: _ => max_width < Z.of_nat (String.length (line +:+ " " +:+ w))
          | [] => True
          end
      | [] => True
      end
      /\ greedy_lines max_width rest
  end.

(** No slash in a string. *)
Fixpoint no_slash (s : string) : bool :=
  match s with
  | EmptyString => true
  | String c s' => negb (Ascii.eqb c PyPath.slash) && no_slash s'
  end.

(** ** The logs of a run, as the state machine of the specification

    [Idle -> ModelLoad -> Transcribe -> Summarize (optional) ->
    Translate (optional) -> Render -> Done | Cancelled | Failed]: each stage
    is a step, that is a relation between the log so far and what is added to
    it. *)

Module Trace.

Definition step := list event -> list event -> Prop.

(** Only requests of the observer. *)
Definition request_only (y : list event) : Prop := forallb is_cancel_request y = true.

Definition emit (e : event) : step := fun _ d => d = [e].

Definition seq (s1 s2 : step) : step :=
  fun l d => exists d1 d2, s1 l d1 /\ s2 (l ++ d1)%list d2 /\ d = (d1 ++ d2)%list.

(** Events of a class, any number of them. *)
Definition events (K : event -> bool) : step := fun _ d => forallb K d = true.

(** A progress or status notification: the observer may ask for
    cancellation just before; the notification is dropped once it has. *)
Definition signal (e : event) : step :=
  fun l d => exists y, request_only y
    /\ d = (y ++ (if requested (l ++ y) then [] else [e]))%list.

(** A cancellation check, and what follows it either way. *)
Definition check (n : nat) (k : bool -> step) : step :=
  fun l d => exists y d', request_only y
    /\ k (requested (l ++ y)) (l ++ y ++ [ECheckpoint n])%list d'
    /\ d = (y ++ ECheckpoint n :: d')%list.

(** A collaborator is called, adds events of its class, returns; what
    follows depends on the truth value of what it returns. *)
Definition call (K : event -> bool) (c : collaborator) (k : bool -> step) : step :=
  fun l d => exists body ok d', forallb K body = true
    /\ k ok (l ++ ECall c :: body ++ [EReturn c ok])%list d'
    /\ d = (ECall c :: body ++ EReturn c ok :: d')%list.

Definition cancelled : step := emit (EFinished false PCancelled).

Definition failed (m : error_msg) : step :=
  seq (emit (EError m)) (emit (EFinished false PNone)).

Definition succeeded : step := fun _ d => exists r, d = [EFinished true (PResult r)].

(** The work of an optional stage: status texts, requests of the observer,
    its libraries and collaborators. *)
Definition stage_work (n : nat) (e : event) : bool :=
  match e with
  | EStatus _ | ECancelRequested => true
  | EExternal x => (stage_of_external x =? n)%nat
  | ECall c | EReturn c _ => (stage_of_collaborator c =? n)%nat
  | _ => false
  end.

Section Stages.
Context (self : TranscriptionWorker.config).

Definition render : step :=
  seq (emit (EStage 5))
   (seq (events output_event)
     (check 5 (fun c =>
        if c then cancelled
        else seq (signal (EProgress 100)) (seq (signal (EStatus SAllDone)) succeeded)))).

Definition translate : step :=
  seq (emit (EStage 4))
    (if TranscriptionWorker.enable_translation self then
       seq (events (stage_work 4))
         (check 4 (fun c => if c then cancelled else seq (signal (EProgress 85)) render))
     else seq (signal (EProgress 85)) render).

Definition summarize : step :=
  seq (emit (EStage 3))
    (if TranscriptionWorker.enable_summary self then
       seq (events (stage_work 3))
         (check 3 (fun c => if c then cancelled else seq (signal (EProgress 70)) translate))
     else seq (signal (EProgress 70)) translate).

Definition transcribe : step :=
  seq (emit (EStage 2))
   (seq (signal (EStatus STranscribing))
     (call (collaborator_event 2) CTranscribe (fun ok =>
        if ok then
          check 2 (fun c => if c then cancelled else seq (signal (EProgress 60)) summarize)
        else failed ErrTranscription))).

Definition model_load : step :=
  seq (emit (EStage 1))
   (seq (signal (EProgress 0))
     (seq (signal (EStatus SLoadingModel))
       (call (collaborator_event 1) CLoadModel (fun ok =>
          if ok then
            check 1 (fun c => if c then cancelled else seq (signal (EProgress 10)) transcribe)
          else failed ErrModelLoad)))).

End Stages.

(** The operation [m] follows the step [s]: from a consistent world it
    reaches a consistent world, and what it adds to the log is allowed by
    [s]. *)
Definition follows {A} (m : M A) (s : step) : Prop :=
  forall w, consistent w ->
    consistent (snd (m w))
    /\ exists d, w_log (snd (m w)) = (w_log w ++ d)%list /\ s (w_log w) d.

End Trace.

(** Every step of [s] adds events of the class [K]. *)
Definition within (K : event -> bool) (s : Trace.step) : Prop :=
  forall l d, s l d -> forallb K d = true.

(** The success completion signal. *)
Definition is_success (e : event) : bool :=
  match e with EFinished true _ => true | _ => false end.

(** A progress notification carries a value from 0 to 100. *)
Definition progress_in_range (e : event) : bool :=
  match e with EProgress v => (0 <=? v) && (v <=? 100) | _ => true end.

(** A progress or status notification. *)
Definition is_notification (e : event) : bool := is_progress e || is_status e.

(** A call of one of the two notification operations of [BaseWorker]. *)
Inductive notification :=
| NProgress (value : Z)
| NStatus (message : status_msg).

Definition notify (E : environment) (n : notification) : M unit :=
  match n with
  | NProgress value => BaseWorker.update_progress E value
  | NStatus message => BaseWorker.update_status E message
  end.

(** The calls of a list, made one after the other. *)
Fixpoint notify_all (E : environment) (calls : list notification) : M unit :=
  match calls with
  | [] => ret tt
  | n :: rest => notify E n ;; notify_all E rest
  end.

(** ** Statements about the order of events in a log *)

(** The observer's request comes after the event [a] and before any
    event [b]. *)
Definition requested_between (a b : event) (l : list event) : Prop :=
  exists pre post, l = (pre ++ ECancelRequested :: post)%list /\ In a pre /\ ~ In b pre.

(** The request comes before the cancellation check [n] is made. *)
Definition requested_before_check (n : nat) (l : list event) : Prop :=
  exists pre post, l = (pre ++ ECancelRequested :: post)%list /\ ~ In (ECheckpoint n) pre.

(** The log ends with the completion signal, and holds no other. *)
Definition ends_with_completion (success : bool) (result : payload) (l : list event) : Prop :=
  exists l0, l = (l0 ++ [EFinished success result])%list /\ forallb (fun e => negb (is_finished e)) l0 = true.

(** No file is written. *)
Definition writes_nothing (l : list event) : Prop := forallb (fun e => negb (is_write e)) l = true.

(** Stage 2 is complete once the transcription has returned a result;
    stage 5 begins at its mark. *)
Definition stage2_complete : event := EReturn CTranscribe true.
Definition stage5_begins : event := EStage 5.

(** The log up to the first request of the observer, and after it. *)
Fixpoint before_request (l : list event) : list event :=
  match l with
  | [] => []
  | e :: l' => if is_cancel_request e then [] else e :: before_request l'
  end.

Fixpoint after_request (l : list event) : list event :=
  match l with
  | [] => []
  | e :: l' => if is_cancel_request e then l' else after_request l'
  end.

(** The collaborator of stage [n] returns, with the truth value [ok]. *)
Definition is_return_of (n : nat) (ok : bool) (e : event) : bool :=
  match e with
  | EReturn c b => (stage_of_collaborator c =? n)%nat && Bool.eqb b ok
  | _ => false
  end.

(** The error a required collaborator's failure is reported with. *)
Definition error_of (c : collaborator) : error_msg :=
  match c with
  | CLoadModel => ErrModelLoad
  | _ => ErrTranscription
  end.

(** No error and no completion signal. *)
Definition is_verdict (e : event) : bool :=
  match e with EError _ | EFinished _ _ => true | _ => false end.

(** Since the log was [l0] and the disk [disk0], the disk has changed
    only if a file was written. *)
Definition untouched (l0 : list event) (disk0 : gmap string file_content) (w : world) : Prop :=
  exists d, w_log w = (l0 ++ d)%list /\ (writes_nothing d -> w_disk w = disk0).

(** How a run ends: the cancellation completion, the error notification
    with the failure completion, or the success completion with the result. *)
Definition is_ending (fin : list event) : Prop :=
  fin = [EFinished false PCancelled]
  \/ (exists m, fin = [EError m; EFinished false PNone])
  \/ (exists r, fin = [EFinished true (PResult r)]).

(** The log ends in one of these ways, with no error and no completion
    signalled before. *)
Definition ends_once (d : list event) : Prop :=
  exists d0 fin, d = (d0 ++ fin)%list
    /\ forallb (fun e => negb (is_verdict e)) d0 = true /\ is_ending fin.

(** Every word of the step [s] ends so. *)
Definition ends (s : Trace.step) : Prop := forall l d, s l d -> ends_once d.

(** The progress values of the milestones of [run], in order. *)
Definition milestones : list Z := [0; 10; 60; 70; 85; 100].

(** The step [s] reports the first milestones of [ms], and none once the
    observer has asked for cancellation. *)
Definition reports (ms : list Z) (s : Trace.step) : Prop :=
  forall l d, s l d ->
    (exists k, progress_values d = firstn k ms)
    /\ (requested l = true -> progress_values d = []).

(** A call of the collaborator of stage [n], its return, a call of one of
    its libraries. *)
Definition is_stage_call (n : nat) (e : event) : bool :=
  match e with
  | ECall c | EReturn c _ => (stage_of_collaborator c =? n)%nat
  | EExternal x => (stage_of_external x =? n)%nat
  | _ => false
  end.

(** Whether the job asks for stage [n]: summarization is stage 3,
    translation stage 4; the other stages are not optional. *)
Definition stage_enabled (self : TranscriptionWorker.config) (n : nat) : bool :=
  match n with
  | 3%nat => TranscriptionWorker.enable_summary self
  | 4%nat => TranscriptionWorker.enable_translation self
  | _ => true
  end.

(** Claim C1 as it is stated: a request between the end of stage 2 and
    the start of stage 5 ends the run by a cancellation completion with no file
    written. *)
Definition cancellation_leaves_no_file (E : environment) (self : TranscriptionWorker.config)
  (w0 : world) : Prop :=
  let l := w_log (snd (TranscriptionWorker.run E self w0)) in
  requested_between stage2_complete stage5_begins l ->
  ends_with_completion false PCancelled l /\ writes_nothing l.

(** ** Worlds and environments of the examples *)

Module Demo.

Definition whisper0 : whisper_state :=
  {| current_model := None; current_model_size := None; _models := ∅ |}.

(** Every library answers; the second translation request of a run fails. *)
Definition env (cancel : option nat) : environment :=
  {| whisper_load_model := fun _ => Some 1%N;
     whisper_transcribe := fun _ _ _ =>
       Some {| tr_text := "a b"; tr_segments := example_segments |};
     sent_tokenize_count := fun _ => Some 3;
     lsa_summary := fun _ _ => Some "s";
     google_translate := fun n t _ _ => if Nat.eqb n 1 then None else Some ("T" +:+ t);
     fs_open_ok := fun _ => true;
     canvas_ok := fun _ => true;
     cancel_at := cancel |}.

(** whisper cannot load the model. *)
Definition env_no_model : environment :=
  {| whisper_load_model := fun _ => None;
     whisper_transcribe := fun _ _ _ => None;
     sent_tokenize_count := fun _ => Some 3;
     lsa_summary := fun _ _ => Some "s";
     google_translate := fun _ t _ _ => Some ("T" +:+ t);
     fs_open_ok := fun _ => true;
     canvas_ok := fun _ => true;
     cancel_at := None |}.

Definition job (summary translation : bool) : TranscriptionWorker.config :=
  {| TranscriptionWorker.file_path := "/media/talk.mp3";
     TranscriptionWorker.model_size := "base";
     TranscriptionWorker.language := None;
     TranscriptionWorker.output_formats := ["txt"; "srt"; "pdf"];
     TranscriptionWorker.enable_summary := summary;
     TranscriptionWorker.summary_ratio := 0x1p-1%float;
     TranscriptionWorker.enable_translation := translation;
     TranscriptionWorker.target_language := "ko" |}.

Definition start : world := TranscriptionWorker.initial_world whisper0 ∅.

(** A world in which the worker is cancelled. *)
Definition cancelled_world : world := snd (BaseWorker.cancel start).

End Demo.

(** ** More worlds and environments of the examples *)

Module Cases.

(** The tokenizer finds one sentence. *)
Definition env_one_sentence : environment :=
  {| whisper_load_model := fun _ => Some 1%N;
     whisper_transcribe := fun _ _ _ => None;
     sent_tokenize_count := fun _ => Some 1;
     lsa_summary := fun _ _ => Some "s";
     google_translate := fun _ t _ _ => Some ("T" +:+ t);
     fs_open_ok := fun _ => true;
     canvas_ok := fun _ => true;
     cancel_at := None |}.

(** The whisper processor holds a model for the size "base" in its cache,
    and none is current. *)
Definition cached_base : whisper_state :=
  {| current_model := None; current_model_size := None; _models := {["base" := 7%N]} |}.

(** A segment whose end time is not a number. *)
Definition seg_nan : segment :=
  {| seg_start := 0x1.4p+1%float; seg_end := PrimFloat.nan; seg_text := "c" |}.

End Cases.

(** * Proofs *)

(** ** The monad *)

Lemma run_bind {A B} (m : M A) (k : A -> M B) (w : world) :
  bind m k w = k (fst (m w)) (snd (m w)).
Proof. unfold bind. destruct (m w). reflexivity. Qed.

Lemma run_ret {A} (a : A) (w : world) : ret a w = (a, w).
Proof. reflexivity. Qed.

Lemma run_when_true (m : M unit) (w : world) : when true m w = m w.
Proof. reflexivity. Qed.

Lemma run_when_false (m : M unit) (w : world) : when false m w = (tt, w).
Proof. reflexivity. Qed.

(** ** Strings *)

Lemma append_cons (c : ascii) (s1 s2 : string) : String c s1 +:+ s2 = String c (s1 +:+ s2).
Proof. reflexivity. Qed.

Lemma append_nil (s : string) : "" +:+ s = s.
Proof. reflexivity. Qed.

Lemma append_assoc (s1 s2 s3 : string) : (s1 +:+ s2) +:+ s3 = s1 +:+ (s2 +:+ s3).
Proof.
  induction s1 as [|c s1 IH]; [reflexivity|].
  rewrite !append_cons. now rewrite IH.
Qed.

Lemma append_empty_r (s : string) : s +:+ "" = s.
Proof.
  induction s as [|c s IH]; [reflexivity|].
  rewrite append_cons. now rewrite IH.
Qed.

Lemma append_length (s1 s2 : string) :
  String.length (s1 +:+ s2) = (String.length s1 + String.length s2)%nat.
Proof.
  induction s1 as [|c s1 IH]; [reflexivity|].
  rewrite append_cons. simpl. now rewrite IH.
Qed.

Lemma truthy_false_iff (s : string) : PyStr.truthy s = false <-> s = "".
Proof.
  unfold PyStr.truthy. destruct (String.eqb_spec s ""); simpl; split; congruence.
Qed.

Lemma truthy_true_iff (s : string) : PyStr.truthy s = true <-> s <> "".
Proof.
  unfold PyStr.truthy. destruct (String.eqb_spec s ""); simpl; split; congruence.
Qed.

Lemma lstrip_all_space (s : string) : PyStr.all_space s = true -> PyStr.lstrip s = "".
Proof.
  induction s as [|c s IH]; simpl; [reflexivity|].
  intros H. apply andb_true_iff in H as [Hc Hs]. rewrite Hc. auto.
Qed.

Lemma rstrip_empty_iff (s : string) : PyStr.rstrip s = "" <-> PyStr.all_space s = true.
Proof.
  induction s as [|c s IH]; simpl; [tauto|].
  destruct (PyStr.is_space c); simpl.
  - destruct (String.eqb_spec (PyStr.rstrip s) "") as [Hr|Hr].
    + tauto.
    + split; [discriminate|]. intros H. apply IH in H. contradiction.
  - split; discriminate.
Qed.

Lemma lstrip_head (s : string) :
  match PyStr.lstrip s with
  | EmptyString => True
  | String c _ => PyStr.is_space c = false
  end.
Proof.
  induction s as [|c s IH]; simpl; [exact I|].
  destruct (PyStr.is_space c) eqn:Hc; [exact IH | exact Hc].
Qed.

(** [s.strip()] is empty exactly when [s] is made of white space. *)
Lemma strip_empty_iff (s : string) : PyStr.strip s = "" <-> PyStr.all_space s = true.
Proof.
  unfold PyStr.strip. split.
  - intros H. apply rstrip_empty_iff in H.
    induction s as [|c s IH]; simpl in *; [reflexivity|].
    destruct (PyStr.is_space c) eqn:Hc; simpl.
    + auto.
    + simpl in H. rewrite Hc in H. discriminate.
  - intros H. rewrite (lstrip_all_space s H). reflexivity.
Qed.

(** The guard of [translate_text] and [summarize]:
    [not text or not text.strip()]. *)
Lemma blank_guard (text : string) :
  negb (PyStr.truthy text) || negb (PyStr.truthy (PyStr.strip text)) = PyStr.all_space text.
Proof.
  destruct (PyStr.all_space text) eqn:Hs.
  - apply strip_empty_iff in Hs. unfold PyStr.truthy at 2. rewrite Hs. simpl.
    apply orb_true_r.
  - assert (PyStr.strip text <> "") as Hne.
    { intros H. apply strip_empty_iff in H. congruence. }
    assert (text <> "") as Hne'.
    { intros ->. simpl in Hs. discriminate. }
    apply truthy_true_iff in Hne, Hne'. rewrite Hne, Hne'. reflexivity.
Qed.

(** ** The subtitle renderer *)

Section Srt.

(** One turn of the loop writes one cue block. *)
Lemma write_cue_cue (i : Z) (seg : segment) (written c : string) :
  SrtSpec.cue (i + 1) seg = Some c ->
  FileHandler.write_cue i seg written = (written +:+ c, true).
Proof.
  unfold SrtSpec.cue, FileHandler.write_cue.
  destruct (FileHandler.format_time (seg_start seg)) as [a|]; [|discriminate].
  destruct (FileHandler.format_time (seg_end seg)) as [b|]; [|discriminate].
  intros [= <-]. f_equal. now rewrite !append_assoc.
Qed.

Lemma write_cue_fails (i : Z) (seg : segment) (written : string) :
  SrtSpec.cue (i + 1) seg = None ->
  snd (FileHandler.write_cue i seg written) = false.
Proof.
  unfold SrtSpec.cue, FileHandler.write_cue.
  destruct (FileHandler.format_time (seg_start seg)) as [a|]; [|reflexivity].
  destruct (FileHandler.format_time (seg_end seg)) as [b|]; [discriminate|reflexivity].
Qed.

(** The loop writes the cue blocks, numbered one above the index. *)
Lemma write_cues_cues (segments : list segment) :
  forall (i : Z) (written doc : string),
    SrtSpec.cues (i + 1) segments = Some doc ->
    FileHandler.write_cues i segments written = (written +:+ doc, true).
Proof.
  induction segments as [|seg rest IH]; intros i written doc; simpl.
  - intros [= <-]. now rewrite append_empty_r.
  - destruct (SrtSpec.cue (i + 1) seg) as [c|] eqn:Hc; [|discriminate].
    destruct (SrtSpec.cues (i + 1 + 1) rest) as [r|] eqn:Hr; [|discriminate].
    intros [= <-]. rewrite (write_cue_cue _ _ _ _ Hc).
    rewrite (IH (i + 1) _ _ Hr). now rewrite append_assoc.
Qed.

Lemma cues_printable (segments : list segment) :
  SrtSpec.printable_times segments -> forall n, is_Some (SrtSpec.cues n segments).
Proof.
  induction 1 as [|seg rest [[a Ha] [b Hb]] _ IH]; intros n; simpl.
  - eauto.
  - destruct (IH (n + 1)) as [r Hr]. unfold SrtSpec.cue. rewrite Ha, Hb, Hr. eauto.
Qed.

Lemma cues_length (segments : list segment) :
  forall n doc, SrtSpec.cues n segments = Some doc ->
    exists blocks, List.length blocks = List.length segments
      /\ doc = String.concat "" blocks
      /\ forall k seg, segments !! k = Some seg ->
           exists c, blocks !! k = Some c /\ SrtSpec.cue (n + Z.of_nat k) seg = Some c.
Proof.
  induction segments as [|seg rest IH]; intros n doc; simpl.
  - intros [= <-]. exists []. repeat split. intros k seg Hk. discriminate.
  - destruct (SrtSpec.cue n seg) as [c|] eqn:Hc; [|discriminate].
    destruct (SrtSpec.cues (n + 1) rest) as [r|] eqn:Hr; [|discriminate].
    intros [= <-]. destruct (IH _ _ Hr) as (blocks & Hlen & -> & Hblocks).
    exists (c :: blocks). repeat split.
    + simpl. now rewrite Hlen.
    + destruct blocks as [|b bs]; [apply append_empty_r|reflexivity].
    + intros [|k] s Hk.
      * injection Hk as <-. exists c. split; [reflexivity|].
        rewrite <- Hc. f_equal. lia.
      * destruct (Hblocks k s Hk) as (c' & Hc' & Hcue). exists c'. split; [exact Hc'|].
        rewrite <- Hcue. f_equal. lia.
Qed.

End Srt.

(** ** The translator *)

Section TranslatorFacts.
Context (E : environment).

Lemma requests_app (l1 l2 : list event) :
  Translator.requests (l1 ++ l2) = (Translator.requests l1 + Translator.requests l2)%nat.
Proof.
  induction l1 as [|e l1 IH]; [reflexivity|].
  simpl. destruct e as [| | | | | | | | | |x]; try exact IH.
  destruct x; simpl; rewrite ?IH; reflexivity.
Qed.

(** A scheduling point adds no translation request. *)
Lemma requests_yield (w : world) :
  Translator.requests (w_log (snd (BaseWorker.yield E w))) = Translator.requests (w_log w).
Proof.
  unfold BaseWorker.yield. cbn. destruct (bool_decide _); cbn; [|reflexivity].
  rewrite requests_app. cbn. lia.
Qed.

Lemma requests_sleep (w : world) :
  Translator.requests (w_log (snd (BaseWorker.external_call E XSleep w)))
  = Translator.requests (w_log w).
Proof.
  unfold BaseWorker.external_call. rewrite run_bind. cbn [record fst snd set_log w_log].
  rewrite requests_app, requests_yield. cbn. lia.
Qed.

(** A request to the translation service is answered by the library and
    counted. *)
Lemma request_answer (text dest src : string) (w : world) :
  fst (Translator.request E text dest src w)
  = google_translate E (Translator.requests (w_log w)) text dest src
  /\ Translator.requests (w_log (snd (Translator.request E text dest src w)))
     = S (Translator.requests (w_log w)).
Proof.
  unfold Translator.request.
  destruct (BaseWorker.external_call E (XGoogleTranslate text dest src) w) as [u w'] eqn:Hc.
  cbn [fst snd]. split; [reflexivity|].
  replace w' with (snd (BaseWorker.external_call E (XGoogleTranslate text dest src) w))
    by now rewrite Hc.
  unfold BaseWorker.external_call. rewrite run_bind. cbn [record fst snd set_log w_log].
  rewrite requests_app, requests_yield. cbn. lia.
Qed.

(** Trimming a text that is not blank leaves a text that is not blank. *)
Lemma strip_not_blank (s : string) :
  PyStr.all_space s = false -> PyStr.all_space (PyStr.strip s) = false.
Proof.
  intros Hs. destruct (PyStr.all_space (PyStr.strip s)) eqn:Hb; [|reflexivity].
  assert (PyStr.strip s <> "") as Hne.
  { intros H. apply strip_empty_iff in H. congruence. }
  exfalso. apply Hne. revert Hb. unfold PyStr.strip.
  pose proof (lstrip_head s) as Hh.
  destruct (PyStr.lstrip s) as [|c t]; [reflexivity|].
  simpl. rewrite Hh. simpl. rewrite Hh. discriminate.
Qed.

(** [translate_text] without a callback, on the trimmed text of a
    segment. *)
Lemma translate_text_attempt (target_lang source_lang : string) (seg : segment) (w : world) :
  let r := Translator.translate_text E (PyStr.strip (seg_text seg)) target_lang source_lang
             None w in
  fst r = TranslateSpec.attempt E target_lang source_lang (Translator.requests (w_log w)) seg
  /\ Translator.requests (w_log (snd r))
     = (Translator.requests (w_log w)
        + (if PyStr.all_space (seg_text seg) then 0 else 1))%nat.
Proof.
  unfold Translator.translate_text, TranslateSpec.attempt. rewrite blank_guard.
  destruct (PyStr.all_space (seg_text seg)) eqn:Hs.
  - apply strip_empty_iff in Hs. rewrite Hs. cbn. split; [reflexivity | lia].
  - rewrite (strip_not_blank _ Hs). cbn [callback].
    rewrite !run_bind. cbn [ret fst snd].
    destruct (request_answer (PyStr.strip (seg_text seg)) target_lang source_lang w)
      as [Ha Hn].
    rewrite Ha.
    destruct (google_translate E _ _ _ _) as [t|]; rewrite !run_bind; cbn [ret fst snd];
      (split; [reflexivity | rewrite Hn; lia]).
Qed.

(** One turn of the loop: the times stay, the text is the translation when
    the attempt succeeds and the original otherwise. *)
Lemma translate_segment_spec (target_lang source_lang : string)
  (cb : option (status_msg -> M unit)) (total i : Z) (seg : segment) (w : world) :
  makes_no_request cb ->
  let r := Translator.translate_segment E target_lang source_lang cb total i seg w in
  let n := Translator.requests (w_log w) in
  seg_start (fst r) = seg_start seg
  /\ seg_end (fst r) = seg_end seg
  /\ seg_text (fst r)
     = TranslateSpec.final_text seg (TranslateSpec.attempt E target_lang source_lang n seg)
  /\ Translator.requests (w_log (snd r))
     = (n + (if PyStr.all_space (seg_text seg) then 0 else 1))%nat.
Proof.
  intros Hcb. unfold Translator.translate_segment. rewrite run_bind.
  set (w1 := snd (callback cb (SSegmentOf (i + 1) total) w)).
  assert (Translator.requests (w_log w1) = Translator.requests (w_log w)) as Hw1
    by apply Hcb.
  cbv zeta. rewrite <- Hw1.
  destruct (PyStr.truthy (seg_text seg)) eqn:Ht.
  - rewrite run_bind.
    destruct (translate_text_attempt target_lang source_lang seg w1) as [Ha Hn].
    rewrite Ha. unfold TranslateSpec.final_text, TranslateSpec.succeeds.
    destruct (PyStr.truthy_opt _) eqn:Hs; cbn [ret fst snd Translator.set_text seg_start
      seg_end seg_text]; repeat split; try exact Hn.
  - apply truthy_false_iff in Ht. cbn [ret fst snd].
    unfold TranslateSpec.final_text, TranslateSpec.attempt. rewrite Ht. cbn.
    repeat split. lia.
Qed.

Lemma requests_for_cons (seg : segment) (rest : list segment) :
  TranslateSpec.requests_for (seg :: rest)
  = ((if PyStr.all_space (seg_text seg) then 0 else 1) + TranslateSpec.requests_for rest)%nat.
Proof.
  unfold TranslateSpec.requests_for. simpl.
  destruct (PyStr.all_space (seg_text seg)); reflexivity.
Qed.

(** The loop, for a batch size that is not zero. *)
Lemma translate_loop_spec (target_lang source_lang : string)
  (cb : option (status_msg -> M unit)) (batch_size total : Z) :
  batch_size <> 0 ->
  makes_no_request cb ->
  forall (segments : list segment) (i : Z) (acc : list segment) (w : world),
    let r := Translator.translate_loop E target_lang source_lang cb batch_size total i
               segments acc w in
    exists out,
      fst r = Some (acc ++ out)%list
      /\ List.length out = List.length segments
      /\ Translator.requests (w_log (snd r))
         = (Translator.requests (w_log w) + TranslateSpec.requests_for segments)%nat
      /\ forall k seg, segments !! k = Some seg ->
           exists seg', out !! k = Some seg'
             /\ seg_start seg' = seg_start seg
             /\ seg_end seg' = seg_end seg
             /\ seg_text seg'
                = TranslateSpec.final_text seg
                    (TranslateSpec.attempt E target_lang source_lang
                       (Translator.requests (w_log w)
                        + TranslateSpec.requests_for (take k segments)) seg).
Proof.
  intros Hb Hcb. induction segments as [|seg rest IH]; intros i acc w.
  - exists []. cbn. rewrite app_nil_r. repeat split; [unfold TranslateSpec.requests_for; cbn; lia|].
    intros k seg Hk. discriminate.
  - cbn [Translator.translate_loop]. cbv zeta. rewrite run_bind.
    destruct (translate_segment_spec target_lang source_lang cb total i seg w Hcb)
      as (Hs & He & Ht & Hn).
    set (s1 := fst (Translator.translate_segment E target_lang source_lang cb total i seg w))
      in *.
    set (w1 := snd (Translator.translate_segment E target_lang source_lang cb total i seg w))
      in *.
    destruct (Z.eqb_spec batch_size 0) as [|_]; [contradiction|].
    rewrite run_bind.
    set (w2 := snd (when ((i + 1) mod batch_size =? 0) (BaseWorker.external_call E XSleep) w1)).
    assert (Translator.requests (w_log w2) = Translator.requests (w_log w1)) as Hw2.
    { unfold w2. destruct ((i + 1) mod batch_size =? 0); [apply requests_sleep|reflexivity]. }
    destruct (IH (i + 1) (acc ++ [s1])%list w2) as (out & Hout & Hlen & Hreq & Hall).
    exists (s1 :: out). split; [|split; [|split]].
    + rewrite Hout. now rewrite <- app_assoc.
    + simpl. now rewrite Hlen.
    + rewrite Hreq, Hw2, Hn, requests_for_cons. lia.
    + intros [|k] s Hk.
      * injection Hk as <-. exists s1. rewrite take_0.
        replace (Translator.requests (w_log w) + TranslateSpec.requests_for [])%nat
          with (Translator.requests (w_log w)) by (unfold TranslateSpec.requests_for; cbn; lia).
        auto.
      * destruct (Hall k s Hk) as (s' & Hk' & Hs' & He' & Ht'). exists s'.
        repeat split; try assumption.
        rewrite Ht'. do 2 f_equal. rewrite Hw2, Hn. cbn [take].
        rewrite requests_for_cons. lia.
Qed.

End TranslatorFacts.

(** ** Properties kept by every operation

    A property of worlds that the elementary steps keep (a scheduling
    point, a signal, a mark in the log, an update of a field) is kept by each
    operation built from them. *)

Lemma preserves_ret (I : world -> Prop) {A} (a : A) : preserves I (ret a).
Proof. intros w H. exact H. Qed.

Lemma preserves_bind (I : world -> Prop) {A B} (m : M A) (k : A -> M B) :
  preserves I m -> (forall a, preserves I (k a)) -> preserves I (bind m k).
Proof.
  intros Hm Hk w H. rewrite run_bind. apply Hk, Hm, H.
Qed.

Lemma preserves_read (I : world -> Prop) {A} (f : world -> A) :
  preserves I (fun w => (f w, w)).
Proof. intros w H. exact H. Qed.

Lemma preserves_when (I : world -> Prop) (b : bool) (m : M unit) :
  preserves I m -> preserves I (when b m).
Proof. intros Hm. destruct b; [exact Hm | apply preserves_ret]. Qed.

Ltac keep_step :=
  match goal with
  | |- preserves _ (ret _) => apply preserves_ret
  | |- preserves _ (bind _ _) => apply preserves_bind; [|intros ?]
  | |- preserves _ (when _ _) => apply preserves_when
  | |- preserves _ (fun w => (_, w)) => apply preserves_read
  | |- preserves _ (if ?b then _ else _) => destruct b
  | |- preserves _ (match ?x with _ => _ end) => destruct x
  | |- preserves _ (let (_, _) := ?x in _) => destruct x
  end.

Ltac keep := repeat (first [ solve [auto] | keep_step ]).

Section Soundness.
Context (E : environment) (I : world -> Prop).

Hypothesis I_yield : preserves I (BaseWorker.yield E).
Hypothesis I_status : forall m, preserves I (BaseWorker.update_status E m).
Hypothesis I_whisper : forall s w, I w -> I (set_whisper s w).
Hypothesis I_result : forall r w, I w -> I (set_result r w).

(** What the operation at hand is allowed: the stages whose libraries it
    may use, whose collaborators it may call, whose marks it may leave in the
    log; progress and completion signals, error signals, files. *)
Variables uses calls marks : nat -> Prop.
Variables with_progress with_store with_error with_finished : Prop.
Hypothesis I_external :
  forall x, uses (stage_of_external x) -> preserves I (record (EExternal x)).
Hypothesis I_call :
  forall c, calls (stage_of_collaborator c) -> preserves I (record (ECall c)).
Hypothesis I_return :
  forall c b, calls (stage_of_collaborator c) -> preserves I (record (EReturn c b)).
Hypothesis I_stage : forall n, marks n -> preserves I (record (EStage n)).
Hypothesis I_checkpoint : forall n, marks n -> preserves I (record (ECheckpoint n)).
Hypothesis I_progress : with_progress -> forall v, preserves I (BaseWorker.update_progress E v).
Hypothesis I_store : with_store -> forall p c, preserves I (FileHandler.store p c).
Hypothesis I_error : with_error -> forall m, preserves I (record (EError m)).
Hypothesis I_finished : with_finished -> forall b p, preserves I (record (EFinished b p)).

Abbreviation kept_by := (keeps_property I).

Lemma kept_by_update_status : kept_by (Some (BaseWorker.update_status E)).
Proof. intros m. exact (I_status m). Qed.

Lemma kept_by_worker_status : kept_by (Some (TranscriptionWorker.update_status E)).
Proof. exact kept_by_update_status. Qed.

Lemma kept_by_none : kept_by None.
Proof. intros m. apply preserves_ret. Qed.

Lemma keeps_is_cancelled : preserves I (BaseWorker.is_cancelled E).
Proof. unfold BaseWorker.is_cancelled. keep. Qed.

Lemma keeps_external_call (x : external) :
  uses (stage_of_external x) -> preserves I (BaseWorker.external_call E x).
Proof. intros Hx. unfold BaseWorker.external_call. keep. Qed.

Lemma keeps_checkpoint (n : nat) : marks n -> preserves I (BaseWorker.checkpoint E n).
Proof. intros Hn. unfold BaseWorker.checkpoint. pose proof keeps_is_cancelled. keep. Qed.

Lemma keeps_invoke {A} (c : collaborator) (truth : A -> bool) (m : M A) :
  calls (stage_of_collaborator c) -> preserves I m ->
  preserves I (BaseWorker.invoke c truth m).
Proof. intros Hc Hm. unfold BaseWorker.invoke. keep. Qed.

Lemma keeps_emit_error (m : error_msg) : with_error -> preserves I (BaseWorker.emit_error m).
Proof. intros H. now apply I_error. Qed.

Lemma keeps_emit_finished (b : bool) (p : payload) :
  with_finished -> preserves I (BaseWorker.emit_finished b p).
Proof. intros H. now apply I_finished. Qed.

(** core_whisper.py *)

Lemma keeps_put_state (s : whisper_state) : preserves I (WhisperProcessor.put_state s).
Proof. intros w H. apply I_whisper, H. Qed.

Lemma keeps_get_instance : preserves I WhisperProcessor.get_instance.
Proof.
  unfold WhisperProcessor.get_instance, WhisperProcessor.get_state.
  pose proof keeps_put_state. keep.
Qed.

Lemma keeps_load_model (size : string) (cb : option (status_msg -> M unit)) :
  uses 1%nat -> kept_by cb -> preserves I (WhisperProcessor.load_model E size cb).
Proof.
  intros Hs Hcb. unfold WhisperProcessor.load_model, WhisperProcessor.get_state.
  pose proof keeps_put_state.
  pose proof (keeps_external_call (XWhisperLoad size) Hs). keep.
Qed.

Lemma keeps_transcribe (path : string) (language : option string)
  (cb : option (status_msg -> M unit)) :
  uses 2%nat -> kept_by cb -> preserves I (WhisperProcessor.transcribe E path language cb).
Proof.
  intros Hs Hcb. unfold WhisperProcessor.transcribe, WhisperProcessor.get_state.
  pose proof (keeps_external_call (XWhisperTranscribe path) Hs). keep.
Qed.

(** core_summarizer.py *)

Lemma keeps_summarize (text : string) (ratio : float) (cb : option (status_msg -> M unit)) :
  uses 3%nat -> kept_by cb -> preserves I (TextSummarizer.summarize E text ratio cb).
Proof.
  intros Hs Hcb. unfold TextSummarizer.summarize.
  pose proof (keeps_external_call (XSentTokenize text) Hs).
  pose proof (fun k => keeps_external_call (XLsa text k) Hs). keep.
Qed.

(** translator.py *)

Lemma keeps_request (text dest src : string) :
  uses 4%nat -> preserves I (Translator.request E text dest src).
Proof.
  intros Hs w H. unfold Translator.request.
  pose proof (keeps_external_call (XGoogleTranslate text dest src) Hs w H) as H'.
  destruct (BaseWorker.external_call E _ w). exact H'.
Qed.

Lemma keeps_translate_text (text target_lang source_lang : string)
  (cb : option (status_msg -> M unit)) :
  uses 4%nat -> kept_by cb ->
  preserves I (Translator.translate_text E text target_lang source_lang cb).
Proof.
  intros Hs Hcb. unfold Translator.translate_text.
  pose proof (fun t d s => keeps_request t d s Hs). keep.
Qed.

Lemma keeps_translate_segment (target_lang source_lang : string)
  (cb : option (status_msg -> M unit)) (total i : Z) (seg : segment) :
  uses 4%nat -> kept_by cb ->
  preserves I (Translator.translate_segment E target_lang source_lang cb total i seg).
Proof.
  intros Hs Hcb. unfold Translator.translate_segment.
  pose proof (fun t => keeps_translate_text t target_lang source_lang None Hs kept_by_none).
  keep.
Qed.

Lemma keeps_translate_loop (target_lang source_lang : string)
  (cb : option (status_msg -> M unit)) (batch_size total : Z) :
  uses 4%nat -> kept_by cb ->
  forall segments i acc,
    preserves I (Translator.translate_loop E target_lang source_lang cb batch_size total i
                   segments acc).
Proof.
  intros Hs Hcb. induction segments as [|seg rest IH]; intros i acc;
    cbn [Translator.translate_loop].
  - apply preserves_ret.
  - pose proof (keeps_translate_segment target_lang source_lang cb total i seg Hs Hcb).
    pose proof (keeps_external_call XSleep Hs). keep.
Qed.

Lemma keeps_translate_segments (segments : list segment) (target_lang source_lang : string)
  (cb : option (status_msg -> M unit)) (batch_size : Z) :
  uses 4%nat -> kept_by cb ->
  preserves I (Translator.translate_segments E segments target_lang source_lang cb batch_size).
Proof.
  intros Hs Hcb. unfold Translator.translate_segments.
  pose proof (keeps_translate_loop target_lang source_lang cb batch_size
                (Z.of_nat (List.length segments)) Hs Hcb).
  destruct segments; keep.
Qed.

(** core_file_handler.py *)

Lemma keeps_write_file (path : string) (content : file_content) :
  with_store -> preserves I (FileHandler.write_file E path content).
Proof. intros Hs. unfold FileHandler.write_file. pose proof (I_store Hs). keep. Qed.

Lemma keeps_create_srt (segments : list segment) (path : string)
  (cb : option (status_msg -> M unit)) :
  with_store -> kept_by cb -> preserves I (FileHandler.create_srt E segments path cb).
Proof.
  intros Hs Hcb. unfold FileHandler.create_srt. pose proof (fun p c => keeps_write_file p c Hs).
  keep.
Qed.

Lemma keeps_create_txt (text path : string) (cb : option (status_msg -> M unit)) :
  with_store -> kept_by cb -> preserves I (FileHandler.create_txt E text path cb).
Proof.
  intros Hs Hcb. unfold FileHandler.create_txt. pose proof (fun p c => keeps_write_file p c Hs).
  keep.
Qed.

Lemma keeps_create_pdf (segments : list segment) (path title : string)
  (full_text summary_text : option string) (cb : option (status_msg -> M unit)) :
  with_store -> kept_by cb ->
  preserves I (FileHandler.create_pdf E segments path title full_text summary_text cb).
Proof.
  intros Hs Hcb. unfold FileHandler.create_pdf. pose proof (fun p c => keeps_write_file p c Hs).
  keep.
Qed.

(** workers_transcription.py *)

Lemma keeps_put_result (r : job_result) : preserves I (TranscriptionWorker.put_result r).
Proof. intros w H. apply I_result, H. Qed.

Lemma keeps_set_transcript (t : transcription) : preserves I (TranscriptionWorker.set_transcript t).
Proof.
  unfold TranscriptionWorker.set_transcript, TranscriptionWorker.get_result.
  pose proof keeps_put_result. keep.
Qed.

Lemma keeps_set_summary (s : string) : preserves I (TranscriptionWorker.set_summary s).
Proof.
  unfold TranscriptionWorker.set_summary, TranscriptionWorker.get_result.
  pose proof keeps_put_result. keep.
Qed.

Lemma keeps_set_translation (t : translation) :
  preserves I (TranscriptionWorker.set_translation t).
Proof.
  unfold TranscriptionWorker.set_translation, TranscriptionWorker.get_result.
  pose proof keeps_put_result. keep.
Qed.

Lemma keeps_set_files (fs : list string) : preserves I (TranscriptionWorker.set_files fs).
Proof.
  unfold TranscriptionWorker.set_files, TranscriptionWorker.get_result.
  pose proof keeps_put_result. keep.
Qed.

Lemma renderer_stage (c : collaborator) : is_renderer c = true -> stage_of_collaborator c = 5%nat.
Proof. destruct c; simpl; congruence. Qed.

Section Worker.
Context (self : TranscriptionWorker.config).
Hypothesis calls5 : calls 5%nat.
Hypothesis storing : with_store.

Lemma keeps_render (c : collaborator) (path : string) (m : M bool) (created : list string) :
  is_renderer c = true -> preserves I m ->
  preserves I (TranscriptionWorker.render c path m created).
Proof.
  intros Hc Hm. unfold TranscriptionWorker.render.
  assert (calls (stage_of_collaborator c)) as Hs by now rewrite (renderer_stage c Hc).
  pose proof (keeps_invoke c id m Hs Hm). keep.
Qed.

Lemma keeps_create_output_files (transcript_text : string) (segments : list segment)
  (summary_text translated_text translated_summary : option string)
  (translated_segments : option (list segment)) :
  preserves I (TranscriptionWorker._create_output_files E self transcript_text segments
                 summary_text translated_text translated_summary translated_segments).
Proof.
  unfold TranscriptionWorker._create_output_files.
  pose proof kept_by_worker_status as Hcb.
  pose proof (fun t p => keeps_create_txt t p _ storing Hcb).
  pose proof (fun s p => keeps_create_srt s p _ storing Hcb).
  pose proof (fun s p t f u => keeps_create_pdf s p t f u _ storing Hcb).
  pose proof keeps_render.
  keep.
Qed.

Hypothesis marks5 : marks 5%nat.
Hypothesis progressing : with_progress.
Hypothesis finishing : with_finished.

Lemma keeps_run_stage5 (transcript_text : string) (segments : list segment)
  (summary_text translated_text translated_summary : option string)
  (translated_segments : option (list segment)) :
  preserves I (TranscriptionWorker.run_stage5 E self transcript_text segments
                 summary_text translated_text translated_summary translated_segments).
Proof.
  unfold TranscriptionWorker.run_stage5, TranscriptionWorker.get_result,
    TranscriptionWorker.update_status, TranscriptionWorker.update_progress.
  pose proof keeps_create_output_files.
  pose proof (keeps_checkpoint 5 marks5).
  pose proof keeps_set_files. pose proof (fun b p => keeps_emit_finished b p finishing).
  pose proof (I_stage 5 marks5). pose proof (I_progress progressing).
  keep.
Qed.

Hypothesis marks4 : marks 4%nat.
Hypothesis calls4 : calls 4%nat.
Hypothesis uses4 : uses 4%nat.

Lemma keeps_run_stage4 (transcript_text : string) (segments : list segment)
  (summary_text : option string) :
  preserves I (TranscriptionWorker.run_stage4 E self transcript_text segments summary_text).
Proof.
  unfold TranscriptionWorker.run_stage4,
    TranscriptionWorker.update_status, TranscriptionWorker.update_progress.
  pose proof kept_by_worker_status as Hcb.
  pose proof keeps_run_stage5.
  pose proof (keeps_checkpoint 4 marks4).
  pose proof keeps_set_translation. pose proof (fun b p => keeps_emit_finished b p finishing).
  pose proof (I_stage 4 marks4). pose proof (I_progress progressing).
  pose proof (fun t l s => keeps_invoke CTranslateText PyStr.truthy_opt _
                calls4 (keeps_translate_text t l s _ uses4 Hcb)).
  pose proof (fun t l s => keeps_invoke CTranslateSummary PyStr.truthy_opt _
                calls4 (keeps_translate_text t l s _ uses4 Hcb)).
  pose proof (fun g l s b => keeps_invoke CTranslateSegments
                TranscriptionWorker.truthy_segments _
                calls4 (keeps_translate_segments g l s _ b uses4 Hcb)).
  keep.
Qed.

Hypothesis marks3 : marks 3%nat.
Hypothesis calls3 : calls 3%nat.
Hypothesis uses3 : uses 3%nat.

Lemma keeps_run_stage3 (transcript_text : string) (segments : list segment) :
  preserves I (TranscriptionWorker.run_stage3 E self transcript_text segments).
Proof.
  unfold TranscriptionWorker.run_stage3,
    TranscriptionWorker.update_status, TranscriptionWorker.update_progress.
  pose proof kept_by_worker_status as Hcb.
  pose proof keeps_run_stage4.
  pose proof (keeps_checkpoint 3 marks3).
  pose proof keeps_set_summary. pose proof (fun b p => keeps_emit_finished b p finishing).
  pose proof (I_stage 3 marks3). pose proof (I_progress progressing).
  pose proof (fun t r => keeps_invoke CSummarize PyStr.truthy_opt _
                calls3 (keeps_summarize t r _ uses3 Hcb)).
  keep.
Qed.

Hypothesis marks2 : marks 2%nat.
Hypothesis calls2 : calls 2%nat.
Hypothesis uses2 : uses 2%nat.
Hypothesis failing : with_error.

Lemma keeps_run_stage2 : preserves I (TranscriptionWorker.run_stage2 E self).
Proof.
  unfold TranscriptionWorker.run_stage2,
    TranscriptionWorker.update_status, TranscriptionWorker.update_progress.
  pose proof kept_by_worker_status as Hcb.
  pose proof keeps_run_stage3.
  pose proof (keeps_checkpoint 2 marks2).
  pose proof keeps_set_transcript. pose proof (fun b p => keeps_emit_finished b p finishing).
  pose proof (fun m => keeps_emit_error m failing).
  pose proof (I_stage 2 marks2). pose proof (I_progress progressing).
  pose proof (fun p l => keeps_invoke CTranscribe
                (fun r : option transcription => bool_decide (is_Some r)) _
                calls2 (keeps_transcribe p l _ uses2 Hcb)).
  keep.
Qed.

Hypothesis marks1 : marks 1%nat.
Hypothesis calls1 : calls 1%nat.
Hypothesis uses1 : uses 1%nat.

Lemma keeps_run : preserves I (TranscriptionWorker.run E self).
Proof.
  unfold TranscriptionWorker.run,
    TranscriptionWorker.update_status, TranscriptionWorker.update_progress.
  pose proof kept_by_worker_status as Hcb.
  pose proof keeps_run_stage2.
  pose proof (keeps_checkpoint 1 marks1).
  pose proof (fun b p => keeps_emit_finished b p finishing).
  pose proof (fun m => keeps_emit_error m failing). pose proof keeps_get_instance.
  pose proof (I_stage 1 marks1). pose proof (I_progress progressing).
  pose proof (fun s => keeps_invoke CLoadModel id _ calls1 (keeps_load_model s _ uses1 Hcb)).
  keep.
Qed.

End Worker.

End Soundness.

(** ** Logs *)

Lemma requested_app (l1 l2 : list event) :
  requested (l1 ++ l2) = requested l1 || requested l2.
Proof. apply existsb_app. Qed.

Lemma progress_values_app (l1 l2 : list event) :
  progress_values (l1 ++ l2) = (progress_values l1 ++ progress_values l2)%list.
Proof.
  induction l1 as [|e l1 IH]; [reflexivity|].
  destruct e; simpl; rewrite ?IH; reflexivity.
Qed.

Lemma renderer_calls_app (l1 l2 : list event) :
  renderer_calls (l1 ++ l2) = (renderer_calls l1 ++ renderer_calls l2)%list.
Proof.
  induction l1 as [|e l1 IH]; [reflexivity|].
  destruct e as [| | | | | | | |c| |]; simpl; rewrite ?IH; try reflexivity.
  destruct (is_renderer c); simpl; rewrite ?IH; reflexivity.
Qed.

(** If a list that does not hold [x] starts a list split at an [x], it
    starts the part before that [x]. *)
Lemma prefix_before (x : event) (l1 t pre post : list event) :
  (l1 ++ t = pre ++ x :: post)%list -> ~ In x l1 -> exists r, pre = (l1 ++ r)%list.
Proof.
  revert pre. induction l1 as [|a l1 IH]; intros pre Heq Hnot.
  - exists pre. reflexivity.
  - destruct pre as [|b pre]; simpl in Heq.
    + injection Heq as -> _. exfalso. apply Hnot. now left.
    + injection Heq as -> Heq. destruct (IH pre Heq) as [r ->].
      * intros H. apply Hnot. now right.
      * exists r. reflexivity.
Qed.

Lemma requested_false_not_in (l : list event) :
  requested l = false -> ~ In ECancelRequested l.
Proof.
  intros Hr Hin. unfold requested in Hr.
  assert (existsb is_cancel_request l = true) as H.
  { apply existsb_exists. exists ECancelRequested. split; [exact Hin | reflexivity]. }
  congruence.
Qed.

Lemma requested_true_in (l : list event) :
  requested l = true -> In ECancelRequested l.
Proof.
  intros Hr. apply existsb_exists in Hr as (e & Hin & He).
  destruct e; try discriminate. exact Hin.
Qed.

Lemma grown_refl (K : event -> bool) (w : world) : grown K (w_log w) w.
Proof. exists []. split; [now rewrite app_nil_r | reflexivity]. Qed.

Lemma grown_trans (K : event -> bool) (l : list event) (w w' : world) :
  grown K l w -> grown K (w_log w) w' -> grown K l w'.
Proof.
  intros (d & Hd & Kd) (d' & Hd' & Kd'). exists (d ++ d')%list. split.
  - rewrite Hd', Hd. now rewrite app_assoc.
  - rewrite forallb_app, Kd, Kd'. reflexivity.
Qed.

Lemma grown_weaken (K K' : event -> bool) (l : list event) (w : world) :
  (forall e, K e = true -> K' e = true) -> grown K l w -> grown K' l w.
Proof.
  intros HK (d & Hd & Kd). exists d. split; [exact Hd|].
  apply forallb_forall. intros e He. apply HK.
  rewrite forallb_forall in Kd. now apply Kd.
Qed.

Lemma after_refl (K : event -> bool) (w : world) : consistent w -> after K (w_log w) w.
Proof. intros H. split; [exact H | apply grown_refl]. Qed.

(** ** The elementary steps keep the world consistent and the log in its
    class *)

Section After.
Context (E : environment) (K : event -> bool) (l : list event).
Hypothesis base : class_base K.

Lemma after_record (e : event) :
  K e = true -> is_cancel_request e = false -> preserves (after K l) (record e).
Proof.
  intros Ke He w [Hc (d & Hd & Kd)]. split.
  - unfold consistent, flag in *. cbn. rewrite requested_app. cbn. rewrite He.
    rewrite Hc. now rewrite !orb_false_r.
  - exists (d ++ [e])%list. cbn. split.
    + rewrite Hd. now rewrite app_assoc.
    + rewrite forallb_app, Kd. cbn. now rewrite Ke.
Qed.

Lemma after_yield : preserves (after K l) (BaseWorker.yield E).
Proof.
  intros w [Hc (d & Hd & Kd)]. unfold BaseWorker.yield. cbn.
  destruct (bool_decide _); cbn.
  - split.
    + unfold consistent, flag. cbn. rewrite requested_app. cbn. now rewrite orb_true_r.
    + exists (d ++ [ECancelRequested])%list. cbn. split.
      * rewrite Hd. now rewrite app_assoc.
      * rewrite forallb_app, Kd. cbn. destruct base as [-> _]. reflexivity.
  - split; [exact Hc|]. exists d. split; assumption.
Qed.

Lemma after_is_cancelled : preserves (after K l) (BaseWorker.is_cancelled E).
Proof.
  unfold BaseWorker.is_cancelled. apply preserves_bind; [apply after_yield|].
  intros _. apply preserves_read.
Qed.

Lemma after_update_status (m : status_msg) :
  preserves (after K l) (BaseWorker.update_status E m).
Proof.
  unfold BaseWorker.update_status. apply preserves_bind; [apply after_is_cancelled|].
  intros c. apply preserves_when. apply after_record; [apply base | reflexivity].
Qed.

Lemma after_update_progress :
  class_progress K -> forall v, preserves (after K l) (BaseWorker.update_progress E v).
Proof.
  intros Hp v. unfold BaseWorker.update_progress.
  apply preserves_bind; [apply after_is_cancelled|].
  intros c. apply preserves_when. apply after_record; [apply Hp | reflexivity].
Qed.

Lemma after_store : class_store K -> forall p c, preserves (after K l) (FileHandler.store p c).
Proof.
  intros Hs p c w [Hc (d & Hd & Kd)]. split.
  - unfold consistent, flag in *. cbn. rewrite requested_app. cbn.
    rewrite Hc. now rewrite !orb_false_r.
  - exists (d ++ [EWrite p])%list. cbn. split.
    + rewrite Hd. now rewrite app_assoc.
    + rewrite forallb_app, Kd. cbn. now rewrite Hs.
Qed.

Lemma after_set_whisper (s : whisper_state) (w : world) :
  after K l w -> after K l (set_whisper s w).
Proof. intros H. exact H. Qed.

Lemma after_set_result (r : job_result) (w : world) :
  after K l w -> after K l (set_result r w).
Proof. intros H. exact H. Qed.

Lemma after_external (x : external) :
  class_uses K (stage_of_external x) -> preserves (after K l) (record (EExternal x)).
Proof. intros H. apply after_record; [now apply H | reflexivity]. Qed.

Lemma after_call (c : collaborator) :
  class_calls K (stage_of_collaborator c) -> preserves (after K l) (record (ECall c)).
Proof. intros H. apply after_record; [now apply H | reflexivity]. Qed.

Lemma after_return (c : collaborator) (b : bool) :
  class_calls K (stage_of_collaborator c) -> preserves (after K l) (record (EReturn c b)).
Proof. intros H. apply after_record; [now apply H | reflexivity]. Qed.

Lemma after_stage (n : nat) : class_marks K n -> preserves (after K l) (record (EStage n)).
Proof. intros H. apply after_record; [apply H | reflexivity]. Qed.

Lemma after_checkpoint (n : nat) :
  class_marks K n -> preserves (after K l) (record (ECheckpoint n)).
Proof. intros H. apply after_record; [apply H | reflexivity]. Qed.

Lemma after_error : class_error K -> forall m, preserves (after K l) (record (EError m)).
Proof. intros H m. apply after_record; [apply H | reflexivity]. Qed.

Lemma after_finished :
  class_finished K -> forall b p, preserves (after K l) (record (EFinished b p)).
Proof. intros H b p. apply after_record; [apply H | reflexivity]. Qed.

End After.

(** ** Every operation keeps the world consistent and the log in its class *)

Ltac after_premises :=
  first
    [ assumption
    | apply after_yield; assumption
    | apply after_update_status; assumption
    | apply after_update_progress; assumption
    | apply after_store; assumption
    | apply after_error; assumption
    | apply after_finished; assumption
    | exact (after_set_whisper _ _)
    | exact (after_set_result _ _)
    | intros; apply after_external; assumption
    | intros; apply after_call; assumption
    | intros; apply after_return; assumption
    | intros; apply after_stage; assumption
    | intros; apply after_checkpoint; assumption
    | intros ?; apply after_update_status; assumption ].

Section AfterOps.
Context (E : environment) (K : event -> bool) (l : list event).
Hypothesis base : class_base K.

Abbreviation worker_status := (Some (TranscriptionWorker.update_status E)).

Lemma after_load_model (size : string) :
  class_uses K 1 ->
  preserves (after K l) (WhisperProcessor.load_model E size worker_status).
Proof.
  intros. eapply keeps_load_model with (uses := class_uses K); after_premises.
Qed.

Lemma after_transcribe (path : string) (language : option string) :
  class_uses K 2 ->
  preserves (after K l) (WhisperProcessor.transcribe E path language worker_status).
Proof.
  intros. eapply keeps_transcribe with (uses := class_uses K); after_premises.
Qed.

Lemma after_summarize (text : string) (ratio : float) :
  class_uses K 3 ->
  preserves (after K l) (TextSummarizer.summarize E text ratio worker_status).
Proof.
  intros. eapply keeps_summarize with (uses := class_uses K); after_premises.
Qed.

Lemma after_translate_text (text target_lang source_lang : string) :
  class_uses K 4 ->
  preserves (after K l)
    (Translator.translate_text E text target_lang source_lang worker_status).
Proof.
  intros. eapply keeps_translate_text with (uses := class_uses K); after_premises.
Qed.

Lemma after_translate_segments (segments : list segment) (target_lang source_lang : string)
  (batch_size : Z) :
  class_uses K 4 ->
  preserves (after K l)
    (Translator.translate_segments E segments target_lang source_lang worker_status batch_size).
Proof.
  intros. eapply keeps_translate_segments with (uses := class_uses K); after_premises.
Qed.

Lemma after_invoke {A} (c : collaborator) (truth : A -> bool) (m : M A) :
  class_calls K (stage_of_collaborator c) ->
  preserves (after K l) m -> preserves (after K l) (BaseWorker.invoke c truth m).
Proof.
  intros. eapply keeps_invoke with (calls := class_calls K); after_premises.
Qed.

Section Worker.
Context (self : TranscriptionWorker.config).

Lemma after_create_output_files (transcript_text : string) (segments : list segment)
  (summary_text translated_text translated_summary : option string)
  (translated_segments : option (list segment)) :
  class_calls K 5 -> class_store K ->
  preserves (after K l)
    (TranscriptionWorker._create_output_files E self transcript_text segments
       summary_text translated_text translated_summary translated_segments).
Proof.
  intros. eapply keeps_create_output_files
    with (calls := class_calls K) (with_store := class_store K); after_premises.
Qed.

Lemma after_run_stage5 (transcript_text : string) (segments : list segment)
  (summary_text translated_text translated_summary : option string)
  (translated_segments : option (list segment)) :
  class_calls K 5 -> class_store K -> class_marks K 5 ->
  class_progress K -> class_finished K ->
  preserves (after K l)
    (TranscriptionWorker.run_stage5 E self transcript_text segments
       summary_text translated_text translated_summary translated_segments).
Proof.
  intros. eapply keeps_run_stage5
    with (calls := class_calls K) (marks := class_marks K) (with_store := class_store K)
         (with_progress := class_progress K) (with_finished := class_finished K);
    after_premises.
Qed.

Lemma after_run_stage4 (transcript_text : string) (segments : list segment)
  (summary_text : option string) :
  class_calls K 5 -> class_store K -> class_marks K 5 ->
  class_progress K -> class_finished K ->
  class_marks K 4 -> class_calls K 4 -> class_uses K 4 ->
  preserves (after K l)
    (TranscriptionWorker.run_stage4 E self transcript_text segments summary_text).
Proof.
  intros. eapply keeps_run_stage4
    with (uses := class_uses K) (calls := class_calls K) (marks := class_marks K)
         (with_store := class_store K)
         (with_progress := class_progress K) (with_finished := class_finished K);
    after_premises.
Qed.

Lemma after_run_stage3 (transcript_text : string) (segments : list segment) :
  class_calls K 5 -> class_store K -> class_marks K 5 ->
  class_progress K -> class_finished K ->
  class_marks K 4 -> class_calls K 4 -> class_uses K 4 ->
  class_marks K 3 -> class_calls K 3 -> class_uses K 3 ->
  preserves (after K l) (TranscriptionWorker.run_stage3 E self transcript_text segments).
Proof.
  intros. eapply keeps_run_stage3
    with (uses := class_uses K) (calls := class_calls K) (marks := class_marks K)
         (with_store := class_store K)
         (with_progress := class_progress K) (with_finished := class_finished K);
    after_premises.
Qed.

Lemma after_run_stage2 :
  class_calls K 5 -> class_store K -> class_marks K 5 ->
  class_progress K -> class_finished K ->
  class_marks K 4 -> class_calls K 4 -> class_uses K 4 ->
  class_marks K 3 -> class_calls K 3 -> class_uses K 3 ->
  class_marks K 2 -> class_calls K 2 -> class_uses K 2 -> class_error K ->
  preserves (after K l) (TranscriptionWorker.run_stage2 E self).
Proof.
  intros. eapply keeps_run_stage2
    with (uses := class_uses K) (calls := class_calls K) (marks := class_marks K)
         (with_store := class_store K) (with_error := class_error K)
         (with_progress := class_progress K) (with_finished := class_finished K);
    after_premises.
Qed.

Lemma after_run :
  class_calls K 5 -> class_store K -> class_marks K 5 ->
  class_progress K -> class_finished K ->
  class_marks K 4 -> class_calls K 4 -> class_uses K 4 ->
  class_marks K 3 -> class_calls K 3 -> class_uses K 3 ->
  class_marks K 2 -> class_calls K 2 -> class_uses K 2 -> class_error K ->
  class_marks K 1 -> class_calls K 1 -> class_uses K 1 ->
  preserves (after K l) (TranscriptionWorker.run E self).
Proof.
  intros. eapply keeps_run
    with (uses := class_uses K) (calls := class_calls K) (marks := class_marks K)
         (with_store := class_store K) (with_error := class_error K)
         (with_progress := class_progress K) (with_finished := class_finished K);
    after_premises.
Qed.

End Worker.
End AfterOps.

(** ** The rules of the state machine *)

Section TraceRules.
Context (E : environment).

Lemma yield_spec (w : world) :
  consistent w ->
  consistent (snd (BaseWorker.yield E w))
  /\ exists y, Trace.request_only y /\ w_log (snd (BaseWorker.yield E w)) = (w_log w ++ y)%list.
Proof.
  intros Hc. unfold BaseWorker.yield. cbn. destruct (bool_decide _); cbn.
  - split.
    + unfold consistent, flag. cbn. rewrite requested_app. cbn. now rewrite orb_true_r.
    + exists [ECancelRequested]. split; reflexivity.
  - split; [exact Hc|]. exists []. split; [reflexivity | now rewrite app_nil_r].
Qed.

(** [is_cancelled] answers what the log says once the observer has had its
    turn. *)
Lemma is_cancelled_spec (w : world) :
  consistent w ->
  let r := BaseWorker.is_cancelled E w in
  consistent (snd r)
  /\ exists y, Trace.request_only y /\ w_log (snd r) = (w_log w ++ y)%list
       /\ fst r = requested (w_log w ++ y).
Proof.
  intros Hc. unfold BaseWorker.is_cancelled. rewrite run_bind. cbn [fst snd].
  destruct (yield_spec w Hc) as (Hc' & y & Hy & Hlog).
  split; [exact Hc'|]. exists y. repeat split; try assumption.
  rewrite <- Hlog. exact Hc'.
Qed.

Lemma record_consistent (e : event) (w : world) :
  is_cancel_request e = false -> consistent w -> consistent (snd (record e w)).
Proof.
  intros He Hc. unfold consistent, flag in *. cbn. rewrite requested_app. cbn.
  rewrite He, Hc. now rewrite !orb_false_r.
Qed.

Lemma follows_record (e : event) :
  is_cancel_request e = false -> Trace.follows (record e) (Trace.emit e).
Proof.
  intros He w Hc. split; [now apply record_consistent|].
  exists [e]. split; reflexivity.
Qed.

Lemma follows_ret {A} (a : A) (s : Trace.step) :
  (forall l, s l []) -> Trace.follows (ret a) s.
Proof.
  intros Hs w Hc. split; [exact Hc|]. exists []. split; [now rewrite app_nil_r | apply Hs].
Qed.

(** A notification goes through [update_progress] or [update_status]. *)
Lemma follows_notify (e : event) :
  is_cancel_request e = false ->
  Trace.follows (c <- BaseWorker.is_cancelled E ;; when (negb c) (record e)) (Trace.signal e).
Proof.
  intros He w Hc. rewrite run_bind.
  destruct (is_cancelled_spec w Hc) as (Hc' & y & Hy & Hlog & Hr).
  set (w1 := snd (BaseWorker.is_cancelled E w)) in *. clearbody w1.
  rewrite Hr. destruct (requested (w_log w ++ y)) eqn:Hq; cbn [negb].
  - rewrite run_when_false. cbn [snd].
    split; [exact Hc'|]. exists y. split; [now rewrite Hlog|].
    exists y. split; [exact Hy|]. now rewrite Hq, app_nil_r.
  - rewrite run_when_true.
    split; [now apply record_consistent|].
    exists (y ++ [e])%list. cbn. split; [now rewrite Hlog, app_assoc|].
    exists y. split; [exact Hy|]. now rewrite Hq.
Qed.

Lemma follows_update_progress (v : Z) :
  Trace.follows (BaseWorker.update_progress E v)
    (Trace.signal (EProgress (Z.max 0 (Z.min 100 v)))).
Proof. apply follows_notify. reflexivity. Qed.

Lemma follows_update_status (m : status_msg) :
  Trace.follows (BaseWorker.update_status E m) (Trace.signal (EStatus m)).
Proof. apply follows_notify. reflexivity. Qed.

(** An operation that keeps every log in the class [K] adds events of
    [K]. *)
Lemma follows_events {A} (K : event -> bool) (m : M A) :
  (forall l, preserves (after K l) m) -> Trace.follows m (Trace.events K).
Proof.
  intros Hm w Hc. destruct (Hm (w_log w) w (after_refl K w Hc)) as [Hc' (d & Hd & Kd)].
  split; [exact Hc'|]. exists d. split; assumption.
Qed.

Lemma follows_bind {A B} (m : M A) (k : A -> M B) (s1 s2 : Trace.step) :
  Trace.follows m s1 -> (forall a, Trace.follows (k a) s2) ->
  Trace.follows (bind m k) (Trace.seq s1 s2).
Proof.
  intros Hm Hk w Hc. rewrite run_bind.
  destruct (Hm w Hc) as (Hc1 & d1 & Hd1 & Hs1).
  destruct (Hk (fst (m w)) (snd (m w)) Hc1) as (Hc2 & d2 & Hd2 & Hs2).
  split; [exact Hc2|]. exists (d1 ++ d2)%list. split.
  - rewrite Hd2, Hd1. now rewrite app_assoc.
  - exists d1, d2. rewrite <- Hd1. auto.
Qed.

Lemma follows_bind_silent {A B} (m : M A) (k : A -> M B) (s : Trace.step) :
  silent m -> (forall a, Trace.follows (k a) s) -> Trace.follows (bind m k) s.
Proof.
  intros Hm Hk w Hc. rewrite run_bind. destruct (Hm w) as [Hl Hf].
  assert (consistent (snd (m w))) as Hc1.
  { unfold consistent in *. now rewrite Hl, Hf. }
  destruct (Hk (fst (m w)) (snd (m w)) Hc1) as (Hc2 & d & Hd & Hs).
  split; [exact Hc2|]. exists d. rewrite <- Hl. auto.
Qed.

Lemma run_checkpoint (n : nat) (w : world) :
  BaseWorker.checkpoint E n w
  = (fst (BaseWorker.is_cancelled E w),
     snd (record (ECheckpoint n) (snd (BaseWorker.is_cancelled E w)))).
Proof. unfold BaseWorker.checkpoint. rewrite !run_bind. reflexivity. Qed.

Lemma run_invoke {A} (c : collaborator) (truth : A -> bool) (m : M A) (w : world) :
  BaseWorker.invoke c truth m w
  = (fst (m (snd (record (ECall c) w))),
     snd (record (EReturn c (truth (fst (m (snd (record (ECall c) w))))))
            (snd (m (snd (record (ECall c) w)))))).
Proof. unfold BaseWorker.invoke. rewrite !run_bind. reflexivity. Qed.

Lemma follows_check {B} (n : nat) (k : bool -> M B) (s : bool -> Trace.step) :
  (forall c, Trace.follows (k c) (s c)) ->
  Trace.follows (bind (BaseWorker.checkpoint E n) k) (Trace.check n s).
Proof.
  intros Hk w Hc. rewrite run_bind, run_checkpoint. cbn [fst snd].
  destruct (is_cancelled_spec w Hc) as (Hc' & y & Hy & Hlog & Hr).
  set (w1 := snd (BaseWorker.is_cancelled E w)) in *. clearbody w1.
  set (w2 := snd (record (ECheckpoint n) w1)).
  assert (consistent w2) as Hc2 by now apply record_consistent.
  assert (w_log w2 = (w_log w ++ y ++ [ECheckpoint n])%list) as Hlog2.
  { unfold w2. cbn. rewrite Hlog. now rewrite <- app_assoc. }
  destruct (Hk (fst (BaseWorker.is_cancelled E w)) w2 Hc2) as (Hc3 & d & Hd & Hs).
  split; [exact Hc3|]. exists (y ++ ECheckpoint n :: d)%list. split.
  - rewrite Hd, Hlog2. rewrite <- !app_assoc. reflexivity.
  - exists y, d. rewrite <- Hr, <- Hlog2. auto.
Qed.

Lemma follows_call {A B} (K : event -> bool) (c : collaborator) (truth : A -> bool)
  (m : M A) (k : A -> M B) (s : bool -> Trace.step) :
  (forall l, preserves (after K l) m) ->
  (forall r, Trace.follows (k r) (s (truth r))) ->
  Trace.follows (bind (BaseWorker.invoke c truth m) k) (Trace.call K c s).
Proof.
  intros Hm Hk w Hc. rewrite run_bind, run_invoke. cbn [fst snd].
  set (w1 := snd (record (ECall c) w)).
  assert (consistent w1) as Hc1 by now apply record_consistent.
  destruct (Hm (w_log w1) w1 (after_refl K w1 Hc1)) as [Hc2 (body & Hbody & Kbody)].
  set (r := fst (m w1)) in *. set (w2 := snd (m w1)) in *.
  set (w3 := snd (record (EReturn c (truth r)) w2)).
  assert (consistent w3) as Hc3 by now apply record_consistent.
  assert (w_log w3 = (w_log w ++ ECall c :: body ++ [EReturn c (truth r)])%list) as Hlog3.
  { unfold w3. cbn. rewrite Hbody. unfold w1. cbn. rewrite <- !app_assoc. reflexivity. }
  destruct (Hk r w3 Hc3) as (Hc4 & d & Hd & Hs).
  split; [exact Hc4|]. exists (ECall c :: body ++ EReturn c (truth r) :: d)%list. split.
  - rewrite Hd, Hlog3. rewrite <- !app_assoc. cbn. rewrite <- !app_assoc. reflexivity.
  - exists body, (truth r), d. rewrite <- Hlog3. auto.
Qed.

Lemma follows_weaken {A} (m : M A) (s s' : Trace.step) :
  (forall l d, s l d -> s' l d) -> Trace.follows m s -> Trace.follows m s'.
Proof.
  intros Hs Hm w Hc. destruct (Hm w Hc) as (Hc' & d & Hd & Hsd).
  split; [exact Hc'|]. exists d. auto.
Qed.

(** Events of a class, then events of the class, are events of the
    class. *)
Lemma events_absorb (K : event -> bool) (s1 s : Trace.step) :
  (forall l d, s1 l d -> forallb K d = true) ->
  forall l d, Trace.seq s1 (Trace.seq (Trace.events K) s) l d ->
              Trace.seq (Trace.events K) s l d.
Proof.
  intros H1 l d (d1 & d23 & Hs1 & (d2 & d3 & Hs2 & Hs3 & ->) & ->).
  exists (d1 ++ d2)%list, d3. split; [|split].
  - unfold Trace.events. rewrite forallb_app, (H1 _ _ Hs1). exact Hs2.
  - now rewrite app_assoc.
  - now rewrite app_assoc.
Qed.

Lemma request_only_class (K : event -> bool) (y : list event) :
  K ECancelRequested = true -> Trace.request_only y -> forallb K y = true.
Proof.
  intros HK Hy. apply forallb_forall. intros e He.
  unfold Trace.request_only in Hy. rewrite forallb_forall in Hy.
  specialize (Hy e He). destruct e; try discriminate. exact HK.
Qed.

Lemma signal_class (K : event -> bool) (e : event) :
  K ECancelRequested = true -> K e = true ->
  forall l d, Trace.signal e l d -> forallb K d = true.
Proof.
  intros Hc He l d (y & Hy & ->). rewrite forallb_app, (request_only_class K y Hc Hy).
  destruct (requested (l ++ y)); cbn; [reflexivity | now rewrite He].
Qed.

End TraceRules.

(** ** The worker follows the state machine *)

Ltac class_tac :=
  lazymatch goal with
  | |- class_base _ => split; [reflexivity | intros; reflexivity]
  | |- class_uses _ _ =>
      let x := fresh "x" in let H := fresh "H" in
      intros x H; destruct x; cbn in H |- *; first [reflexivity | discriminate H]
  | |- class_calls _ _ =>
      let c := fresh "c" in let H := fresh "H" in
      intros c H; destruct c; cbn in H |- *;
      first [discriminate H | split; [reflexivity | intros; reflexivity]]
  | |- class_marks _ _ => split; reflexivity
  | |- class_progress _ => intros ?; reflexivity
  | |- class_store _ => intros ?; reflexivity
  | |- class_error _ => intros ?; reflexivity
  | |- class_finished _ => intros ? ?; reflexivity
  end.

Section Refinement.
Context (E : environment) (self : TranscriptionWorker.config).

Lemma silent_set_files (fs : list string) : silent (TranscriptionWorker.set_files fs).
Proof. intros w. split; reflexivity. Qed.

Lemma silent_set_transcript (t : transcription) : silent (TranscriptionWorker.set_transcript t).
Proof. intros w. split; reflexivity. Qed.

Lemma silent_set_summary (b : bool) (s : string) :
  silent (when b (TranscriptionWorker.set_summary s)).
Proof. intros w. destruct b; split; reflexivity. Qed.

Lemma silent_set_translation (t : translation) :
  silent (TranscriptionWorker.set_translation t).
Proof. intros w. split; reflexivity. Qed.

Lemma silent_get_result : silent TranscriptionWorker.get_result.
Proof. intros w. split; reflexivity. Qed.

Lemma silent_get_instance : silent WhisperProcessor.get_instance.
Proof. intros w. split; reflexivity. Qed.

Lemma follows_cancelled :
  Trace.follows (BaseWorker.emit_finished false PCancelled) Trace.cancelled.
Proof. apply follows_record. reflexivity. Qed.

Lemma follows_failed (m : error_msg) :
  Trace.follows (BaseWorker.emit_error m ;; BaseWorker.emit_finished false PNone)
    (Trace.failed m).
Proof.
  apply follows_bind; [apply follows_record; reflexivity|].
  intros _. apply follows_record. reflexivity.
Qed.

Lemma follows_succeeded :
  Trace.follows (r <- TranscriptionWorker.get_result ;; BaseWorker.emit_finished true (PResult r))
    Trace.succeeded.
Proof.
  apply follows_bind_silent; [apply silent_get_result|].
  intros r w Hc. destruct (follows_record (EFinished true (PResult r)) eq_refl w Hc)
    as (Hc' & d & Hd & Hs).
  split; [exact Hc'|]. exists d. split; [exact Hd|]. exists r. exact Hs.
Qed.

Lemma follows_run_stage5 (transcript_text : string) (segments : list segment)
  (summary_text translated_text translated_summary : option string)
  (translated_segments : option (list segment)) :
  Trace.follows
    (TranscriptionWorker.run_stage5 E self transcript_text segments summary_text
       translated_text translated_summary translated_segments)
    Trace.render.
Proof.
  unfold TranscriptionWorker.run_stage5, Trace.render.
  apply follows_bind; [apply follows_record; reflexivity|]. intros _.
  eapply follows_weaken;
    [apply events_absorb with (s1 := Trace.signal (EStatus SCreatingFiles));
     apply signal_class; reflexivity|].
  apply follows_bind; [apply follows_update_status|]. intros _.
  apply follows_bind.
  { apply follows_events. intros l. apply after_create_output_files; class_tac. }
  intros created. apply follows_check. intros [|].
  - apply follows_cancelled.
  - apply follows_bind_silent; [apply silent_set_files|]. intros _.
    apply follows_bind; [apply follows_update_progress|]. intros _.
    apply follows_bind; [apply follows_update_status|]. intros _.
    apply follows_succeeded.
Qed.

Lemma follows_run_stage4 (transcript_text : string) (segments : list segment)
  (summary_text : option string) :
  Trace.follows
    (TranscriptionWorker.run_stage4 E self transcript_text segments summary_text)
    (Trace.translate self).
Proof.
  unfold TranscriptionWorker.run_stage4, Trace.translate.
  apply follows_bind; [apply follows_record; reflexivity|]. intros _.
  destruct (TranscriptionWorker.enable_translation self).
  - eapply follows_weaken;
      [apply events_absorb with (s1 := Trace.signal (EStatus (STranslatingTo
         (TranscriptionWorker.target_language self)))); apply signal_class; reflexivity|].
    apply follows_bind; [apply follows_update_status|]. intros _.
    eapply follows_weaken;
      [apply events_absorb with (s1 := Trace.events (Trace.stage_work 4)); auto|].
    apply follows_bind.
    { apply follows_events. intros l. apply after_invoke; [class_tac|].
      apply after_translate_text; class_tac. }
    intros translated_text.
    eapply follows_weaken;
      [apply events_absorb with (s1 := Trace.events (Trace.stage_work 4)); auto|].
    apply follows_bind.
    { destruct (PyStr.truthy_opt summary_text).
      - apply follows_events. intros l. apply after_invoke; [class_tac|].
        apply after_translate_text; class_tac.
      - apply follows_ret. reflexivity. }
    intros translated_summary.
    apply follows_bind.
    { apply follows_events. intros l. apply after_invoke; [class_tac|].
      apply after_translate_segments; class_tac. }
    intros translated_segments.
    apply follows_bind_silent; [apply silent_set_translation|]. intros _.
    apply follows_check. intros [|].
    + apply follows_cancelled.
    + apply follows_bind; [apply follows_update_progress|]. intros _.
      apply follows_run_stage5.
  - apply follows_bind; [apply follows_update_progress|]. intros _.
    apply follows_run_stage5.
Qed.

Lemma follows_run_stage3 (transcript_text : string) (segments : list segment) :
  Trace.follows (TranscriptionWorker.run_stage3 E self transcript_text segments)
    (Trace.summarize self).
Proof.
  unfold TranscriptionWorker.run_stage3, Trace.summarize.
  apply follows_bind; [apply follows_record; reflexivity|]. intros _.
  destruct (TranscriptionWorker.enable_summary self).
  - eapply follows_weaken;
      [apply events_absorb with (s1 := Trace.signal (EStatus SSummarizing));
       apply signal_class; reflexivity|].
    apply follows_bind; [apply follows_update_status|]. intros _.
    apply follows_bind.
    { apply follows_events. intros l. apply after_invoke; [class_tac|].
      apply after_summarize; class_tac. }
    intros summary_text.
    apply follows_bind_silent; [apply silent_set_summary|]. intros _.
    apply follows_check. intros [|].
    + apply follows_cancelled.
    + apply follows_bind; [apply follows_update_progress|]. intros _.
      apply follows_run_stage4.
  - apply follows_bind; [apply follows_update_progress|]. intros _.
    apply follows_run_stage4.
Qed.

Lemma follows_run_stage2 :
  Trace.follows (TranscriptionWorker.run_stage2 E self) (Trace.transcribe self).
Proof.
  unfold TranscriptionWorker.run_stage2, Trace.transcribe.
  apply follows_bind; [apply follows_record; reflexivity|]. intros _.
  apply follows_bind; [apply follows_update_status|]. intros _.
  apply follows_call.
  { intros l. apply after_transcribe; class_tac. }
  intros [result|]; cbn [bool_decide decide_rel].
  - replace (bool_decide (is_Some (Some result))) with true
      by (symmetry; apply bool_decide_eq_true; eauto).
    apply follows_check. intros [|].
    + apply follows_cancelled.
    + apply follows_bind_silent; [apply silent_set_transcript|]. intros _.
      apply follows_bind; [apply follows_update_progress|]. intros _.
      apply follows_run_stage3.
  - replace (bool_decide (is_Some (@None transcription))) with false
      by (symmetry; apply bool_decide_eq_false; intros [? ?]; discriminate).
    apply follows_failed.
Qed.

Lemma follows_run :
  Trace.follows (TranscriptionWorker.run E self) (Trace.model_load self).
Proof.
  unfold TranscriptionWorker.run, Trace.model_load.
  apply follows_bind; [apply follows_record; reflexivity|]. intros _.
  apply follows_bind; [apply follows_update_progress|]. intros _.
  apply follows_bind; [apply follows_update_status|]. intros _.
  apply follows_bind_silent; [apply silent_get_instance|]. intros _.
  apply follows_call.
  { intros l. apply after_load_model; class_tac. }
  intros [|]; cbn [id negb].
  - apply follows_check. intros [|].
    + apply follows_cancelled.
    + apply follows_bind; [apply follows_update_progress|]. intros _.
      apply follows_run_stage2.
  - apply follows_failed.
Qed.

End Refinement.

(** ** What the state machine allows *)

Lemma forallb_impl (K K' : event -> bool) (d : list event) :
  (forall e, K e = true -> K' e = true) -> forallb K d = true -> forallb K' d = true.
Proof.
  intros HK Hd. apply forallb_forall. intros e He. apply HK.
  rewrite forallb_forall in Hd. now apply Hd.
Qed.

Lemma request_only_nil (y : list event) :
  Trace.request_only y -> requested y = false -> y = [].
Proof.
  destruct y as [|e y]; [reflexivity|]. unfold Trace.request_only. cbn.
  destruct e; cbn; discriminate.
Qed.

Lemma request_only_no (K : event -> bool) (y : list event) :
  K ECancelRequested = true -> Trace.request_only y -> forallb K y = true.
Proof. apply request_only_class. Qed.

Lemma progress_values_class (K : event -> bool) (d : list event) :
  (forall e, K e = true -> is_progress e = false) ->
  forallb K d = true -> progress_values d = [].
Proof.
  intros HK. induction d as [|e d IH]; [reflexivity|]. cbn.
  intros H. apply andb_true_iff in H as [He Hd]. specialize (HK e He).
  destruct e; try discriminate; auto.
Qed.

Lemma in_class (K : event -> bool) (d : list event) (e : event) :
  forallb K d = true -> In e d -> K e = true.
Proof. intros Hd He. rewrite forallb_forall in Hd. now apply Hd. Qed.

(** Solves inclusions of classes of events and memberships in a class. *)
Ltac class_incl :=
  let e := fresh "e" in
  let c := fresh "c" in
  let x := fresh "x" in
  intros e; destruct e as [?|?|?|? ?| |?|?|?|c|c ?|x];
  try destruct c; try destruct x;
  unfold from_stage, work_after, output_event, collaborator_event, Trace.stage_work,
    stage_of_collaborator, stage_of_external, is_renderer, is_progress, is_status,
    is_write, is_finished, is_cancel_request, is_success, is_notification,
    progress_in_range, is_return_of, is_verdict, is_stage_call,
    is_status_or_request;
  intros; try reflexivity; try discriminate; try assumption;
  try (rewrite ?Nat.leb_le, ?Nat.ltb_lt, ?Nat.eqb_eq in *; lia).

Lemma within_emit (K : event -> bool) (e : event) : K e = true -> within K (Trace.emit e).
Proof. intros He l d ->. cbn. now rewrite He. Qed.

Lemma within_seq (K : event -> bool) (s1 s2 : Trace.step) :
  within K s1 -> within K s2 -> within K (Trace.seq s1 s2).
Proof.
  intros H1 H2 l d (d1 & d2 & Hs1 & Hs2 & ->).
  rewrite forallb_app, (H1 _ _ Hs1), (H2 _ _ Hs2). reflexivity.
Qed.

Lemma within_events (K K' : event -> bool) :
  (forall e, K' e = true -> K e = true) -> within K (Trace.events K').
Proof. intros HK l d Hd. now apply (forallb_impl K' K). Qed.

Lemma within_signal (K : event -> bool) (e : event) :
  K ECancelRequested = true -> K e = true -> within K (Trace.signal e).
Proof. intros Hc He l d Hs. now apply (signal_class K e Hc He l d). Qed.

Lemma within_check (K : event -> bool) (n : nat) (k : bool -> Trace.step) :
  K ECancelRequested = true -> K (ECheckpoint n) = true ->
  (forall c, within K (k c)) -> within K (Trace.check n k).
Proof.
  intros Hc Hn Hk l d (y & d' & Hy & Hd' & ->).
  rewrite forallb_app, (request_only_class K y Hc Hy). cbn.
  now rewrite Hn, (Hk _ _ _ Hd').
Qed.

Lemma within_call (K K' : event -> bool) (c : collaborator) (k : bool -> Trace.step) :
  (forall e, K' e = true -> K e = true) ->
  K (ECall c) = true -> (forall ok, K (EReturn c ok) = true) ->
  (forall ok, within K (k ok)) -> within K (Trace.call K' c k).
Proof.
  intros HK Hc Hr Hk l d (body & ok & d' & Hbody & Hd' & ->).
  cbn. rewrite Hc, forallb_app, (forallb_impl K' K body HK Hbody). cbn.
  now rewrite Hr, (Hk _ _ _ Hd').
Qed.

Lemma within_cancelled (K : event -> bool) :
  K (EFinished false PCancelled) = true -> within K Trace.cancelled.
Proof. apply within_emit. Qed.

Lemma within_succeeded (K : event -> bool) :
  (forall r, K (EFinished true r) = true) -> within K Trace.succeeded.
Proof. intros HK l d [r ->]. cbn. now rewrite HK. Qed.

Lemma within_failed (K : event -> bool) (m : error_msg) :
  K (EError m) = true -> K (EFinished false PNone) = true -> within K (Trace.failed m).
Proof. intros He Hf. apply within_seq; now apply within_emit. Qed.

Ltac within_tac :=
  repeat first
    [ assumption
    | apply within_seq
    | apply within_emit; reflexivity
    | apply within_signal; reflexivity
    | apply within_events; class_incl
    | apply within_check; [reflexivity | reflexivity | intros [|]]
    | apply within_call; [class_incl | reflexivity | intros; reflexivity | intros [|]]
    | apply within_cancelled; reflexivity
    | apply within_succeeded; intros; reflexivity
    | apply within_failed; reflexivity ].

Section TraceFacts.
Context (self : TranscriptionWorker.config).

(** The events of stage 5 and after, of stage 4 and after, and so on. *)
Lemma render_from_5 : within (from_stage 5) Trace.render.
Proof. unfold Trace.render. within_tac. Qed.

Lemma translate_from_4 : within (from_stage 4) (Trace.translate self).
Proof.
  pose proof (fun l d H => forallb_impl (from_stage 5) (from_stage 4) d
                ltac:(class_incl) (render_from_5 l d H)) as H5.
  unfold Trace.translate. destruct (TranscriptionWorker.enable_translation self); within_tac.
Qed.

Lemma summarize_from_3 : within (from_stage 3) (Trace.summarize self).
Proof.
  pose proof (fun l d H => forallb_impl (from_stage 4) (from_stage 3) d
                ltac:(class_incl) (translate_from_4 l d H)) as H4.
  unfold Trace.summarize. destruct (TranscriptionWorker.enable_summary self); within_tac.
Qed.

Lemma transcribe_from_2 : within (from_stage 2) (Trace.transcribe self).
Proof.
  pose proof (fun l d H => forallb_impl (from_stage 3) (from_stage 2) d
                ltac:(class_incl) (summarize_from_3 l d H)) as H3.
  unfold Trace.transcribe. within_tac.
Qed.

End TraceFacts.

(** ** Runs of the worker *)

Lemma requested_cons (e : event) (l : list event) :
  requested (e :: l) = is_cancel_request e || requested l.
Proof. reflexivity. Qed.

Lemma requested_nil : requested [] = false.
Proof. reflexivity. Qed.

(** Splits facts on requests in a log built by concatenation. *)
Ltac req_split :=
  repeat rewrite ?requested_app, ?requested_cons, ?requested_nil, ?orb_false_iff,
    ?orb_false_r in *;
  cbn [is_cancel_request] in *.

Ltac req_tac := req_split; intuition (auto; try discriminate; try congruence).

Lemma signal_calm (e : event) (l d : list event) :
  Trace.signal e l d -> requested (l ++ d) = false -> d = [e].
Proof.
  intros (y & Hy & ->) Hq.
  assert (requested l = false /\ requested y = false) as [Hl Hr] by req_tac.
  rewrite (request_only_nil y Hy Hr), app_nil_r, Hl. reflexivity.
Qed.

Lemma check_calm (n : nat) (k : bool -> Trace.step) (l d : list event) :
  Trace.check n k l d -> requested (l ++ d) = false ->
  exists d', d = ECheckpoint n :: d' /\ k false (l ++ [ECheckpoint n])%list d'.
Proof.
  intros (y & d' & Hy & Hk & ->) Hq.
  assert (requested l = false /\ requested y = false) as [Hl Hr] by req_tac.
  rewrite (request_only_nil y Hy Hr) in *. rewrite app_nil_r, Hl in Hk.
  exists d'. split; [reflexivity | exact Hk].
Qed.

Section RunFacts.
Context (E : environment) (self : TranscriptionWorker.config).

(** The log of a run from a fresh worker is a word of the state machine. *)
Lemma run_trace (ws : whisper_state) (disk : gmap string file_content) :
  Trace.model_load self []
    (w_log (snd (TranscriptionWorker.run E self (TranscriptionWorker.initial_world ws disk)))).
Proof.
  destruct (follows_run E self (TranscriptionWorker.initial_world ws disk))
    as (_ & d & Hd & Hs); [reflexivity|].
  cbn [TranscriptionWorker.initial_world w_log app] in Hd, Hs. now rewrite Hd.
Qed.

End RunFacts.

(** *** Runs nobody cancels *)

Section Calm.
Context (self : TranscriptionWorker.config).

Lemma render_calm (l d : list event) :
  Trace.render l d -> requested (l ++ d) = false -> progress_values d = [100].
Proof.
  intros (d1 & d' & -> & (body & d'' & Hbody & Hc & ->) & ->) Hq.
  apply check_calm in Hc as (dk & -> & Hk); [|req_tac].
  destruct Hk as (p & rest & Hp & (s & fin & Hs & [r ->] & ->) & ->).
  apply signal_calm in Hp; [|req_tac]. subst p.
  apply signal_calm in Hs; [|req_tac]. subst s.
  rewrite !progress_values_app.
  rewrite (progress_values_class output_event body); [reflexivity | class_incl | exact Hbody].
Qed.

Lemma translate_calm (l d : list event) :
  TranscriptionWorker.enable_translation self = false ->
  Trace.translate self l d -> requested (l ++ d) = false -> progress_values d = [85; 100].
Proof.
  intros Ht. unfold Trace.translate. rewrite Ht.
  intros (d1 & d' & -> & (p & rest & Hp & Hrest & ->) & ->) Hq.
  apply signal_calm in Hp; [|req_tac]. subst p.
  apply render_calm in Hrest; [|req_tac].
  rewrite !progress_values_app, Hrest. reflexivity.
Qed.

Lemma summarize_calm (l d : list event) :
  TranscriptionWorker.enable_summary self = false ->
  TranscriptionWorker.enable_translation self = false ->
  Trace.summarize self l d -> requested (l ++ d) = false ->
  progress_values d = [70; 85; 100].
Proof.
  intros Hs Ht. unfold Trace.summarize. rewrite Hs.
  intros (d1 & d' & -> & (p & rest & Hp & Hrest & ->) & ->) Hq.
  apply signal_calm in Hp; [|req_tac]. subst p.
  apply translate_calm in Hrest; [|exact Ht|req_tac].
  rewrite !progress_values_app, Hrest. reflexivity.
Qed.

Lemma no_success_class (K : event -> bool) (d : list event) :
  (forall e, K e = true -> is_success e = false) ->
  forallb K d = true -> existsb is_success d = false.
Proof.
  intros HK. induction d as [|e d IH]; [reflexivity|]. cbn.
  intros H. apply andb_true_iff in H as [He Hd]. now rewrite (HK e He), IH.
Qed.

Lemma transcribe_calm (l d : list event) :
  TranscriptionWorker.enable_summary self = false ->
  TranscriptionWorker.enable_translation self = false ->
  Trace.transcribe self l d -> requested (l ++ d) = false ->
  existsb is_success d = true ->
  progress_values d = [60; 70; 85; 100].
Proof.
  intros Hs Ht
    (d1 & d' & -> & (s & d'' & Hsig & (body & ok & dk & Hbody & Hk & ->) & ->) & ->) Hq Hok.
  apply signal_calm in Hsig; [|req_tac]. subst s.
  destruct ok.
  - apply check_calm in Hk as (dk' & -> & Hk); [|req_tac].
    destruct Hk as (p & rest & Hp & Hrest & ->).
    apply signal_calm in Hp; [|req_tac]. subst p.
    apply summarize_calm in Hrest; [|exact Hs|exact Ht|req_tac].
    rewrite !progress_values_app. cbn. rewrite !progress_values_app.
    rewrite (progress_values_class (collaborator_event 2) body); [|class_incl|exact Hbody].
    cbn. now rewrite Hrest.
  - destruct Hk as (e1 & e2 & -> & -> & ->). exfalso.
    rewrite !existsb_app in Hok. cbn in Hok. rewrite !existsb_app in Hok.
    rewrite (no_success_class (collaborator_event 2) body) in Hok;
      [discriminate | class_incl | exact Hbody].
Qed.

Lemma model_load_calm (l d : list event) :
  TranscriptionWorker.enable_summary self = false ->
  TranscriptionWorker.enable_translation self = false ->
  Trace.model_load self l d -> requested (l ++ d) = false ->
  existsb is_success d = true ->
  progress_values d = [0; 10; 60; 70; 85; 100].
Proof.
  intros Hs Ht
    (d1 & d' & -> & (p0 & d0 & Hp0 & (s & d'' & Hsig
       & (body & ok & dk & Hbody & Hk & ->) & ->) & ->) & ->) Hq Hok.
  apply signal_calm in Hp0; [|req_tac]. subst p0.
  apply signal_calm in Hsig; [|req_tac]. subst s.
  destruct ok.
  - apply check_calm in Hk as (dk' & -> & Hk); [|req_tac].
    destruct Hk as (p & rest & Hp & Hrest & ->).
    apply signal_calm in Hp; [|req_tac]. subst p.
    assert (existsb is_success rest = true) as Hok'.
    { rewrite !existsb_app in Hok. cbn in Hok. rewrite !existsb_app in Hok.
      rewrite (no_success_class (collaborator_event 1) body) in Hok;
        [exact Hok | class_incl | exact Hbody]. }
    apply transcribe_calm in Hrest; [|exact Hs|exact Ht|req_tac|exact Hok'].
    rewrite !progress_values_app. cbn. rewrite !progress_values_app.
    rewrite (progress_values_class (collaborator_event 1) body); [|class_incl|exact Hbody].
    cbn. now rewrite Hrest.
  - destruct Hk as (e1 & e2 & -> & -> & ->). exfalso.
    rewrite !existsb_app in Hok. cbn in Hok. rewrite !existsb_app in Hok.
    rewrite (no_success_class (collaborator_event 1) body) in Hok;
      [discriminate | class_incl | exact Hbody].
Qed.

End Calm.

(** *** Notifications *)

(** What a notification adds to the log, whatever the state of the worker:
    the observer's request if it comes at this moment, and the notification
    unless the worker is cancelled by then. *)
Lemma notify_log (E : environment) (e : event) (w : world) :
  exists y, Trace.request_only y
    /\ w_log (snd ((c <- BaseWorker.is_cancelled E ;; when (negb c) (record e)) w))
       = (w_log w ++ y ++ (if flag w || requested y then [] else [e]))%list.
Proof.
  unfold BaseWorker.is_cancelled, BaseWorker.yield, bind, flag. cbn.
  destruct (bool_decide _); cbn.
  - exists [ECancelRequested]. split; [reflexivity|].
    now rewrite orb_true_r.
  - exists []. split; [reflexivity|]. cbn. rewrite orb_false_r.
    destruct (w_cancelled w || w_interruption w); cbn; [now rewrite app_nil_r | reflexivity].
Qed.

Lemma progress_in_range_values (d : list event) :
  forallb progress_in_range d = true -> Forall (fun p => 0 <= p <= 100) (progress_values d).
Proof.
  induction d as [|e d IH]; cbn; [constructor|].
  intros H. apply andb_true_iff in H as [He Hd]. destruct e; auto.
  constructor; [|auto]. cbn in He. apply andb_true_iff in He as [H0 H1].
  apply Z.leb_le in H0, H1. lia.
Qed.

Lemma model_load_in_range (self : TranscriptionWorker.config) :
  within progress_in_range (Trace.model_load self).
Proof.
  assert (within progress_in_range Trace.render) as H5.
  { unfold Trace.render. within_tac. }
  assert (within progress_in_range (Trace.translate self)) as H4.
  { unfold Trace.translate. destruct (TranscriptionWorker.enable_translation self); within_tac. }
  assert (within progress_in_range (Trace.summarize self)) as H3.
  { unfold Trace.summarize. destruct (TranscriptionWorker.enable_summary self); within_tac. }
  assert (within progress_in_range (Trace.transcribe self)) as H2.
  { unfold Trace.transcribe. within_tac. }
  unfold Trace.model_load. within_tac.
Qed.

(** A notification asked of a cancelled worker: nothing is emitted, and the
    worker stays cancelled. *)
Lemma notify_cancelled (E : environment) (e : event) (w : world) :
  flag w = true ->
  let w' := snd ((c <- BaseWorker.is_cancelled E ;; when (negb c) (record e)) w) in
  flag w' = true
  /\ exists y, Trace.request_only y /\ w_log w' = (w_log w ++ y)%list.
Proof.
  unfold BaseWorker.is_cancelled, BaseWorker.yield, bind, flag. cbn.
  intros Hw. destruct (bool_decide _); cbn.
  - split; [reflexivity|]. exists [ECancelRequested]. split; reflexivity.
  - rewrite Hw. cbn. split; [exact Hw|]. exists []. split; [reflexivity|].
    now rewrite app_nil_r.
Qed.

Lemma notify_all_cancelled (E : environment) (calls : list notification) :
  forall w, flag w = true ->
    exists y, Trace.request_only y
      /\ w_log (snd (notify_all E calls w)) = (w_log w ++ y)%list.
Proof.
  induction calls as [|n rest IH]; intros w Hw.
  - exists []. split; [reflexivity|]. cbn. now rewrite app_nil_r.
  - cbn [notify_all]. rewrite run_bind.
    assert (flag (snd (notify E n w)) = true
            /\ exists y, Trace.request_only y
                 /\ w_log (snd (notify E n w)) = (w_log w ++ y)%list) as [Hf (y & Hy & Hlog)].
    { destruct n; apply notify_cancelled; exact Hw. }
    destruct (IH _ Hf) as (y' & Hy' & Hlog').
    exists (y ++ y')%list. split.
    + unfold Trace.request_only in *. rewrite forallb_app, Hy, Hy'. reflexivity.
    + rewrite Hlog', Hlog. now rewrite <- app_assoc.
Qed.

(** ** Runs the observer cancels *)

Lemma reach (l1 t pre post : list event) :
  (l1 ++ t = pre ++ ECancelRequested :: post)%list -> requested l1 = false ->
  exists r, pre = (l1 ++ r)%list.
Proof.
  intros Heq Hr. eapply prefix_before; [exact Heq | now apply requested_false_not_in].
Qed.

Lemma split_request (l : list event) :
  requested l = true -> l = (before_request l ++ ECancelRequested :: after_request l)%list.
Proof.
  induction l as [|e l IH]; [discriminate|]. rewrite requested_cons. cbn.
  destruct e; cbn; intros H; try (now rewrite <- IH). reflexivity.
Qed.

Lemma ends_prefix (b : bool) (r : payload) (p d : list event) :
  forallb (fun e => negb (is_finished e)) p = true ->
  ends_with_completion b r d -> ends_with_completion b r (p ++ d).
Proof.
  intros Hp (d0 & -> & Hd0). exists (p ++ d0)%list. split; [now rewrite app_assoc|].
  now rewrite forallb_app, Hp, Hd0.
Qed.

Lemma not_in_class (K : event -> bool) (e : event) (l : list event) :
  K e = false -> forallb K l = true -> ~ In e l.
Proof. intros He Hl Hin. rewrite (in_class K l e Hl Hin) in He. discriminate. Qed.

(** The two outcomes of a cancellation check. *)
Ltac check_cases Hc y dk Hy Hk Hreq :=
  destruct Hc as (y & dk & Hy & Hk & ->);
  match type of Hk with
  | context [requested ?L] => revert Hk; destruct (requested L) eqn:Hreq; intros Hk
  end.

(** The events of a log given piece by piece are of a class. *)
Ltac leaf_class :=
  repeat first [rewrite forallb_app | progress cbn [forallb]];
  repeat (apply andb_true_iff; split);
  try reflexivity; try assumption;
  try (match goal with
       | H : Trace.signal ?e ?l ?s |- forallb ?K ?s = true =>
           apply (signal_class K e eq_refl eq_refl l s H)
       | H : Trace.request_only ?y |- forallb ?K ?y = true =>
           apply (request_only_class K y eq_refl H)
       | H : forallb ?K' ?b = true |- forallb ?K ?b = true =>
           apply (forallb_impl K' K b); [class_incl | exact H]
       | H : Trace.events ?K' _ ?b |- forallb ?K ?b = true =>
           apply (forallb_impl K' K b); [class_incl | exact H]
       end).

Ltac norm_log := repeat first [rewrite <- app_assoc | progress cbn [app]].

Section Cancelled.
Context (self : TranscriptionWorker.config).

Lemma render_cancelled (l d pre post : list event) :
  Trace.render l d ->
  (l ++ d = pre ++ ECancelRequested :: post)%list -> ~ In stage5_begins pre ->
  ends_with_completion false PCancelled d.
Proof.
  intros (d1 & d' & -> & (body & d'' & Hbody & Hc & ->) & ->) Heq Hnot.
  check_cases Hc y dk Hy Hk Hreq.
  - unfold Trace.cancelled, Trace.emit in Hk. subst dk.
    exists ([EStage 5] ++ body ++ y ++ [ECheckpoint 5])%list.
    split; [norm_log; reflexivity | leaf_class].
  - exfalso.
    destruct (reach (l ++ [EStage 5] ++ body ++ y) (ECheckpoint 5 :: dk) pre post) as [r ->].
    + rewrite <- Heq. norm_log. reflexivity.
    + req_tac.
    + apply Hnot. rewrite !in_app_iff. cbn. auto.
Qed.

Lemma translate_cancelled (l d pre post : list event) :
  Trace.translate self l d ->
  (l ++ d = pre ++ ECancelRequested :: post)%list -> ~ In stage5_begins pre ->
  ends_with_completion false PCancelled d.
Proof.
  unfold Trace.translate. intros (d1 & d' & -> & Hrest & ->) Heq Hnot.
  destruct (TranscriptionWorker.enable_translation self).
  - destruct Hrest as (body & d'' & Hbody & Hc & ->).
    check_cases Hc y dk Hy Hk Hreq.
    + unfold Trace.cancelled, Trace.emit in Hk. subst dk.
      exists ([EStage 4] ++ body ++ y ++ [ECheckpoint 4])%list.
      split; [norm_log; reflexivity | leaf_class].
    + destruct Hk as (p & d5 & Hp & H5 & ->).
      apply render_cancelled with (pre := pre) (post := post) in H5;
        [| rewrite <- Heq; norm_log; reflexivity | exact Hnot].
      replace ([EStage 4] ++ body ++ y ++ ECheckpoint 4 :: p ++ d5)%list
        with (([EStage 4] ++ body ++ y ++ ECheckpoint 4 :: p) ++ d5)%list
        by (norm_log; reflexivity).
      apply ends_prefix; [leaf_class | exact H5].
  - destruct Hrest as (p & d5 & Hp & H5 & ->).
    apply render_cancelled with (pre := pre) (post := post) in H5;
      [| rewrite <- Heq; norm_log; reflexivity | exact Hnot].
    replace ([EStage 4] ++ p ++ d5)%list with (([EStage 4] ++ p) ++ d5)%list
      by (norm_log; reflexivity).
    apply ends_prefix; [leaf_class | exact H5].
Qed.

Lemma summarize_cancelled (l d pre post : list event) :
  Trace.summarize self l d ->
  (l ++ d = pre ++ ECancelRequested :: post)%list -> ~ In stage5_begins pre ->
  ends_with_completion false PCancelled d.
Proof.
  unfold Trace.summarize. intros (d1 & d' & -> & Hrest & ->) Heq Hnot.
  destruct (TranscriptionWorker.enable_summary self).
  - destruct Hrest as (body & d'' & Hbody & Hc & ->).
    check_cases Hc y dk Hy Hk Hreq.
    + unfold Trace.cancelled, Trace.emit in Hk. subst dk.
      exists ([EStage 3] ++ body ++ y ++ [ECheckpoint 3])%list.
      split; [norm_log; reflexivity | leaf_class].
    + destruct Hk as (p & d4 & Hp & H4 & ->).
      apply translate_cancelled with (pre := pre) (post := post) in H4;
        [| rewrite <- Heq; norm_log; reflexivity | exact Hnot].
      replace ([EStage 3] ++ body ++ y ++ ECheckpoint 3 :: p ++ d4)%list
        with (([EStage 3] ++ body ++ y ++ ECheckpoint 3 :: p) ++ d4)%list
        by (norm_log; reflexivity).
      apply ends_prefix; [leaf_class | exact H4].
  - destruct Hrest as (p & d4 & Hp & H4 & ->).
    apply translate_cancelled with (pre := pre) (post := post) in H4;
      [| rewrite <- Heq; norm_log; reflexivity | exact Hnot].
    replace ([EStage 3] ++ p ++ d4)%list with (([EStage 3] ++ p) ++ d4)%list
      by (norm_log; reflexivity).
    apply ends_prefix; [leaf_class | exact H4].
Qed.

(** A log of the required stages only does not hold the result of the
    transcription. *)
Lemma not_complete (L pre post : list event) :
  forallb (fun e => negb (is_return_of 2 true e)) L = true ->
  L = (pre ++ ECancelRequested :: post)%list -> ~ In stage2_complete pre.
Proof.
  intros HL -> Hin. apply (not_in_class _ stage2_complete _ eq_refl HL).
  apply in_or_app. now left.
Qed.

Lemma transcribe_cancelled (l d pre post : list event) :
  Trace.transcribe self l d ->
  forallb (fun e => negb (is_return_of 2 true e)) l = true ->
  (l ++ d = pre ++ ECancelRequested :: post)%list ->
  In stage2_complete pre -> ~ In stage5_begins pre ->
  ends_with_completion false PCancelled d.
Proof.
  intros (d1 & d' & -> & (s & d'' & Hsig & (body & ok & dk & Hbody & Hk & ->) & ->) & ->)
    Hl Heq Hin Hnot.
  destruct ok.
  - check_cases Hk y dk' Hy Hk' Hreq.
    + unfold Trace.cancelled, Trace.emit in Hk'. subst dk'.
      exists ([EStage 2] ++ s ++ ECall CTranscribe :: body
                ++ EReturn CTranscribe true :: y ++ [ECheckpoint 2])%list.
      split; [norm_log; reflexivity | leaf_class].
    + destruct Hk' as (p & d3 & Hp & H3 & ->).
      apply summarize_cancelled with (pre := pre) (post := post) in H3;
        [| rewrite <- Heq; norm_log; reflexivity | exact Hnot].
      replace ([EStage 2] ++ s ++ ECall CTranscribe :: body
                 ++ EReturn CTranscribe true :: y ++ ECheckpoint 2 :: p ++ d3)%list
        with (([EStage 2] ++ s ++ ECall CTranscribe :: body
                 ++ EReturn CTranscribe true :: y ++ ECheckpoint 2 :: p) ++ d3)%list
        by (norm_log; reflexivity).
      apply ends_prefix; [leaf_class | exact H3].
  - destruct Hk as (e1 & e2 & -> & -> & ->). exfalso.
    revert Hin. eapply not_complete; [|exact Heq]. leaf_class.
Qed.

Lemma model_load_cancelled (d pre post : list event) :
  Trace.model_load self [] d ->
  d = (pre ++ ECancelRequested :: post)%list ->
  In stage2_complete pre -> ~ In stage5_begins pre ->
  ends_with_completion false PCancelled d.
Proof.
  intros (d1 & d' & -> & (p0 & d0 & Hp0 & (s & d'' & Hsig
       & (body & ok & dk & Hbody & Hk & ->) & ->) & ->) & ->) Heq Hin Hnot.
  destruct ok.
  - check_cases Hk y dk' Hy Hk' Hreq.
    + unfold Trace.cancelled, Trace.emit in Hk'. subst dk'. exfalso.
      revert Hin. eapply not_complete; [|exact Heq]. leaf_class.
    + destruct Hk' as (p & d2 & Hp & H2 & ->).
      apply transcribe_cancelled with (pre := pre) (post := post) in H2;
        [| leaf_class | rewrite <- Heq; norm_log; reflexivity | exact Hin | exact Hnot].
      replace ([EStage 1] ++ p0 ++ s ++ ECall CLoadModel :: body
                 ++ EReturn CLoadModel true :: y ++ ECheckpoint 1 :: p ++ d2)%list
        with (([EStage 1] ++ p0 ++ s ++ ECall CLoadModel :: body
                 ++ EReturn CLoadModel true :: y ++ ECheckpoint 1 :: p) ++ d2)%list
        by (norm_log; reflexivity).
      apply ends_prefix; [leaf_class | exact H2].
  - destruct Hk as (e1 & e2 & -> & -> & ->). exfalso.
    revert Hin. eapply not_complete; [|exact Heq]. leaf_class.
Qed.

End Cancelled.

(** *** No file once the check of an optional stage has seen the request *)

Section NoFile.
Context (self : TranscriptionWorker.config).

Lemma translate_no_write (l d pre post : list event) :
  TranscriptionWorker.enable_translation self = true ->
  Trace.translate self l d ->
  (l ++ d = pre ++ ECancelRequested :: post)%list -> ~ In (ECheckpoint 4) pre ->
  writes_nothing d.
Proof.
  intros Ht. unfold Trace.translate. rewrite Ht.
  intros (d1 & d' & -> & (body & d'' & Hbody & Hc & ->) & ->) Heq Hnot.
  check_cases Hc y dk Hy Hk Hreq.
  - unfold Trace.cancelled, Trace.emit in Hk. subst dk. unfold writes_nothing. leaf_class.
  - exfalso.
    destruct (reach (l ++ [EStage 4] ++ body ++ y ++ [ECheckpoint 4]) dk pre post) as [r ->].
    + rewrite <- Heq. norm_log. reflexivity.
    + req_tac.
    + apply Hnot. rewrite !in_app_iff. cbn. auto 10.
Qed.

Lemma summarize_no_write (l d pre post : list event) :
  Trace.summarize self l d ->
  (l ++ d = pre ++ ECancelRequested :: post)%list ->
  (TranscriptionWorker.enable_summary self = true /\ ~ In (ECheckpoint 3) pre)
  \/ (TranscriptionWorker.enable_translation self = true /\ ~ In (ECheckpoint 4) pre) ->
  writes_nothing d.
Proof.
  unfold Trace.summarize. intros (d1 & d' & -> & Hrest & ->) Heq Hcase.
  destruct (TranscriptionWorker.enable_summary self).
  - destruct Hrest as (body & d'' & Hbody & Hc & ->).
    check_cases Hc y dk Hy Hk Hreq.
    + unfold Trace.cancelled, Trace.emit in Hk. subst dk. unfold writes_nothing. leaf_class.
    + destruct Hcase as [[_ Hnot] | [Ht Hnot]].
      * exfalso.
        destruct (reach (l ++ [EStage 3] ++ body ++ y ++ [ECheckpoint 3]) dk pre post)
          as [r ->].
        -- rewrite <- Heq. norm_log. reflexivity.
        -- req_tac.
        -- apply Hnot. rewrite !in_app_iff. cbn. auto 10.
      * destruct Hk as (p & d4 & Hp & H4 & ->).
        apply translate_no_write with (pre := pre) (post := post) in H4;
          [| exact Ht | rewrite <- Heq; norm_log; reflexivity | exact Hnot].
        unfold writes_nothing in *. leaf_class.
  - destruct Hcase as [[Hs _] | [Ht Hnot]]; [discriminate|].
    destruct Hrest as (p & d4 & Hp & H4 & ->).
    apply translate_no_write with (pre := pre) (post := post) in H4;
      [| exact Ht | rewrite <- Heq; norm_log; reflexivity | exact Hnot].
    unfold writes_nothing in *. leaf_class.
Qed.

Lemma transcribe_no_write (l d pre post : list event) :
  Trace.transcribe self l d ->
  (l ++ d = pre ++ ECancelRequested :: post)%list ->
  (TranscriptionWorker.enable_summary self = true /\ ~ In (ECheckpoint 3) pre)
  \/ (TranscriptionWorker.enable_translation self = true /\ ~ In (ECheckpoint 4) pre) ->
  writes_nothing d.
Proof.
  intros (d1 & d' & -> & (s & d'' & Hsig & (body & ok & dk & Hbody & Hk & ->) & ->) & ->)
    Heq Hcase.
  destruct ok.
  - check_cases Hk y dk' Hy Hk' Hreq.
    + unfold Trace.cancelled, Trace.emit in Hk'. subst dk'. unfold writes_nothing. leaf_class.
    + destruct Hk' as (p & d3 & Hp & H3 & ->).
      apply summarize_no_write with (pre := pre) (post := post) in H3;
        [| rewrite <- Heq; norm_log; reflexivity | exact Hcase].
      unfold writes_nothing in *. leaf_class.
  - destruct Hk as (e1 & e2 & -> & -> & ->). unfold writes_nothing. leaf_class.
Qed.

Lemma model_load_no_write (d pre post : list event) :
  Trace.model_load self [] d ->
  d = (pre ++ ECancelRequested :: post)%list ->
  (TranscriptionWorker.enable_summary self = true /\ ~ In (ECheckpoint 3) pre)
  \/ (TranscriptionWorker.enable_translation self = true /\ ~ In (ECheckpoint 4) pre) ->
  writes_nothing d.
Proof.
  intros (d1 & d' & -> & (p0 & d0 & Hp0 & (s & d'' & Hsig
       & (body & ok & dk & Hbody & Hk & ->) & ->) & ->) & ->) Heq Hcase.
  destruct ok.
  - check_cases Hk y dk' Hy Hk' Hreq.
    + unfold Trace.cancelled, Trace.emit in Hk'. subst dk'. unfold writes_nothing. leaf_class.
    + destruct Hk' as (p & d2 & Hp & H2 & ->).
      apply transcribe_no_write with (pre := pre) (post := post) in H2;
        [| rewrite <- Heq; norm_log; reflexivity | exact Hcase].
      unfold writes_nothing in *. leaf_class.
  - destruct Hk as (e1 & e2 & -> & -> & ->). unfold writes_nothing. leaf_class.
Qed.

End NoFile.

(** *** The disk changes only when a file is written *)

Section Untouched.
Context (E : environment) (l0 : list event) (disk0 : gmap string file_content).

Lemma untouched_record (e : event) : preserves (untouched l0 disk0) (record e).
Proof.
  intros w (d & Hd & Hdisk). exists (d ++ [e])%list. cbn. split.
  - now rewrite Hd, app_assoc.
  - unfold writes_nothing in *. rewrite forallb_app. intros H.
    apply andb_true_iff in H as [H _]. auto.
Qed.

Lemma untouched_yield : preserves (untouched l0 disk0) (BaseWorker.yield E).
Proof.
  intros w (d & Hd & Hdisk). unfold BaseWorker.yield. cbn.
  destruct (bool_decide _); cbn.
  - exists (d ++ [ECancelRequested])%list. split; [now rewrite Hd, app_assoc|].
    unfold writes_nothing in *. rewrite forallb_app. intros H.
    apply andb_true_iff in H as [H _]. auto.
  - exists d. split; assumption.
Qed.

Lemma untouched_notify (e : event) :
  preserves (untouched l0 disk0)
    (c <- BaseWorker.is_cancelled E ;; when (negb c) (record e)).
Proof.
  unfold BaseWorker.is_cancelled.
  pose proof untouched_yield. pose proof (untouched_record e). keep.
Qed.

Lemma untouched_store (p : string) (c : file_content) :
  preserves (untouched l0 disk0) (FileHandler.store p c).
Proof.
  intros w (d & Hd & Hdisk). exists (d ++ [EWrite p])%list. cbn. split.
  - now rewrite Hd, app_assoc.
  - unfold writes_nothing. rewrite forallb_app. cbn. rewrite andb_false_r. discriminate.
Qed.

Lemma untouched_run (self : TranscriptionWorker.config) :
  preserves (untouched l0 disk0) (TranscriptionWorker.run E self).
Proof.
  eapply keeps_run with (uses := fun _ => True) (calls := fun _ => True)
    (marks := fun _ => True) (with_progress := True) (with_store := True)
    (with_error := True) (with_finished := True); try exact I.
  all: try (intros; apply untouched_store).
  all: try (intros; apply untouched_record).
  - apply untouched_yield.
  - intros m. apply untouched_notify.
  - intros s w H. exact H.
  - intros r w H. exact H.
  - intros _ v. apply untouched_notify.
Qed.

End Untouched.

(** A run that writes no file leaves the disk as it was. *)
Lemma run_keeps_disk (E : environment) (self : TranscriptionWorker.config)
  (ws : whisper_state) (disk : gmap string file_content) :
  let w := snd (TranscriptionWorker.run E self (TranscriptionWorker.initial_world ws disk)) in
  writes_nothing (w_log w) -> w_disk w = disk.
Proof.
  intros w Hw.
  destruct (untouched_run E [] disk self (TranscriptionWorker.initial_world ws disk))
    as (d & Hd & Hdisk).
  - exists []. split; [reflexivity | intros _; reflexivity].
  - apply Hdisk. fold w in Hd. cbn [app] in Hd. now rewrite <- Hd.
Qed.

(** ** Runs in which a required collaborator fails *)

Lemma in_app_class (K : event -> bool) (e : event) (A B : list event) :
  K e = false -> forallb K A = true -> In e (A ++ B) -> In e B.
Proof.
  intros He HA Hin. apply in_app_or in Hin as [Hin|Hin]; [|exact Hin].
  exfalso. exact (not_in_class K e A He HA Hin).
Qed.

Section Failure.
Context (self : TranscriptionWorker.config).

Lemma transcribe_failure (l d : list event) :
  Trace.transcribe self l d -> In (EReturn CTranscribe false) d ->
  exists d0,
    d = (d0 ++ [EReturn CTranscribe false; EError ErrTranscription; EFinished false PNone])%list
    /\ forallb (fun e => negb (is_verdict e)) d0 = true
    /\ forallb (fun e => negb (work_after 2 e)) d = true.
Proof.
  intros (d1 & d' & -> & (s & d'' & Hsig & (body & ok & dk & Hbody & Hk & ->) & ->) & ->) Hin.
  destruct ok.
  - exfalso. revert Hin.
    apply (not_in_class (fun e => negb (is_return_of 2 false e))); [reflexivity|].
    assert (within (fun e => negb (is_return_of 2 false e)) (Trace.summarize self)) as H3.
    { intros l' d3 Hd3.
      apply (forallb_impl (from_stage 3)); [class_incl | exact (summarize_from_3 self l' d3 Hd3)]. }
    assert (within (fun e => negb (is_return_of 2 false e))
              (Trace.check 2 (fun c => if c then Trace.cancelled
                 else Trace.seq (Trace.signal (EProgress 60)) (Trace.summarize self)))) as Hw
      by within_tac.
    pose proof (Hw _ _ Hk) as Hdk.
    leaf_class.
  - destruct Hk as (e1 & e2 & -> & -> & ->).
    exists ([EStage 2] ++ s ++ ECall CTranscribe :: body)%list.
    split; [norm_log; reflexivity|]. split; leaf_class.
Qed.

Lemma model_load_failure (d : list event) (c : collaborator) :
  Trace.model_load self [] d -> is_required c = true -> In (EReturn c false) d ->
  exists d0,
    d = (d0 ++ [EReturn c false; EError (error_of c); EFinished false PNone])%list
    /\ forallb (fun e => negb (is_verdict e)) d0 = true
    /\ forallb (fun e => negb (work_after (stage_of_collaborator c) e)) d = true.
Proof.
  intros (d1 & d' & -> & (p0 & d0 & Hp0 & (s & d'' & Hsig
       & (body & ok & dk & Hbody & Hk & ->) & ->) & ->) & ->) Hc Hin.
  destruct c; try discriminate Hc; cbn [error_of stage_of_collaborator].
  - (* the model *)
    destruct ok.
    + exfalso. revert Hin.
      apply (not_in_class (fun e => negb (is_return_of 1 false e))); [reflexivity|].
      assert (within (fun e => negb (is_return_of 1 false e)) (Trace.transcribe self)) as H2.
      { intros l' d2 Hd2.
        apply (forallb_impl (from_stage 2));
          [class_incl | exact (transcribe_from_2 self l' d2 Hd2)]. }
      assert (within (fun e => negb (is_return_of 1 false e))
                (Trace.check 1 (fun c => if c then Trace.cancelled
                   else Trace.seq (Trace.signal (EProgress 10)) (Trace.transcribe self))))
        as Hw by within_tac.
      pose proof (Hw _ _ Hk) as Hdk.
      leaf_class.
    + destruct Hk as (e1 & e2 & -> & -> & ->).
      exists ([EStage 1] ++ p0 ++ s ++ ECall CLoadModel :: body)%list.
      split; [norm_log; reflexivity|]. split; leaf_class.
  - (* the transcription *)
    destruct ok.
    + check_cases Hk y dk' Hy Hk' Hreq.
      * exfalso. unfold Trace.cancelled, Trace.emit in Hk'. subst dk'. revert Hin.
        apply (not_in_class (fun e => negb (is_return_of 2 false e))); [reflexivity|].
        leaf_class.
      * destruct Hk' as (p & d2 & Hp & H2 & ->).
        assert (In (EReturn CTranscribe false) d2) as Hin2.
        { apply (in_app_class (fun e => negb (is_return_of 2 false e)) _
                   ([EStage 1] ++ p0 ++ s ++ ECall CLoadModel :: body
                      ++ EReturn CLoadModel true :: y ++ ECheckpoint 1 :: p)%list);
            [reflexivity | leaf_class |].
          revert Hin. norm_log. exact (fun H => H). }
        destruct (transcribe_failure _ _ H2 Hin2) as (d0' & -> & Hv & Hw).
        rewrite forallb_app in Hw. apply andb_true_iff in Hw as [Hw _].
        exists ([EStage 1] ++ p0 ++ s ++ ECall CLoadModel :: body
                  ++ EReturn CLoadModel true :: y ++ ECheckpoint 1 :: p ++ d0')%list.
        split; [norm_log; reflexivity|]. split; leaf_class.
    + exfalso. destruct Hk as (e1 & e2 & -> & -> & ->). revert Hin.
      apply (not_in_class (fun e => negb (is_return_of 2 false e))); [reflexivity|].
      leaf_class.
Qed.

End Failure.

(** ** How runs end, and what they report *)

Lemma ends_once_prefix (p d : list event) :
  forallb (fun e => negb (is_verdict e)) p = true -> ends_once d -> ends_once (p ++ d).
Proof.
  intros Hp (d0 & fin & -> & Hd0 & Hfin). exists (p ++ d0)%list, fin.
  split; [now rewrite app_assoc|]. split; [|exact Hfin].
  now rewrite forallb_app, Hp, Hd0.
Qed.

Lemma ends_seq (s1 s2 : Trace.step) :
  within (fun e => negb (is_verdict e)) s1 -> ends s2 -> ends (Trace.seq s1 s2).
Proof.
  intros H1 H2 l d (d1 & d2 & Hs1 & Hs2 & ->).
  apply ends_once_prefix; [exact (H1 _ _ Hs1) | exact (H2 _ _ Hs2)].
Qed.

Lemma ends_check (n : nat) (k : bool -> Trace.step) :
  (forall c, ends (k c)) -> ends (Trace.check n k).
Proof.
  intros Hk l d (y & d' & Hy & Hd' & ->).
  replace (y ++ ECheckpoint n :: d')%list with ((y ++ [ECheckpoint n]) ++ d')%list
    by (now rewrite <- app_assoc).
  apply ends_once_prefix; [|exact (Hk _ _ _ Hd')].
  rewrite forallb_app, (request_only_class _ y eq_refl Hy). reflexivity.
Qed.

Lemma ends_call (K : event -> bool) (c : collaborator) (k : bool -> Trace.step) :
  (forall e, K e = true -> negb (is_verdict e) = true) ->
  (forall ok, ends (k ok)) -> ends (Trace.call K c k).
Proof.
  intros HK Hk l d (body & ok & d' & Hbody & Hd' & ->).
  replace (ECall c :: body ++ EReturn c ok :: d')%list
    with ((ECall c :: body ++ [EReturn c ok]) ++ d')%list
    by (cbn; now rewrite <- app_assoc).
  apply ends_once_prefix; [|exact (Hk _ _ _ Hd')].
  cbn. rewrite forallb_app, (forallb_impl K _ body HK Hbody). reflexivity.
Qed.

Lemma ends_cancelled : ends Trace.cancelled.
Proof.
  intros l d ->. exists [], [EFinished false PCancelled].
  split; [reflexivity|]. split; [reflexivity|]. now left.
Qed.

Lemma ends_failed (m : error_msg) : ends (Trace.failed m).
Proof.
  intros l d (e1 & e2 & -> & -> & ->). exists [], [EError m; EFinished false PNone].
  split; [reflexivity|]. split; [reflexivity|]. right. left. now exists m.
Qed.

Lemma ends_succeeded : ends Trace.succeeded.
Proof.
  intros l d [r ->]. exists [], [EFinished true (PResult r)].
  split; [reflexivity|]. split; [reflexivity|]. right. right. now exists r.
Qed.

Ltac ends_tac :=
  repeat first
    [ assumption
    | apply ends_cancelled
    | apply ends_failed
    | apply ends_succeeded
    | apply ends_check; intros [|]
    | apply ends_call; [class_incl | intros [|]]
    | apply ends_seq; [solve [within_tac] |] ].

Lemma model_load_ends (self : TranscriptionWorker.config) : ends (Trace.model_load self).
Proof.
  assert (ends Trace.render) as H5 by (unfold Trace.render; ends_tac).
  assert (ends (Trace.translate self)) as H4.
  { unfold Trace.translate. destruct (TranscriptionWorker.enable_translation self); ends_tac. }
  assert (ends (Trace.summarize self)) as H3.
  { unfold Trace.summarize. destruct (TranscriptionWorker.enable_summary self); ends_tac. }
  assert (ends (Trace.transcribe self)) as H2 by (unfold Trace.transcribe; ends_tac).
  unfold Trace.model_load. ends_tac.
Qed.

(** *** The milestones reported *)

Lemma reports_nothing (ms : list Z) (s : Trace.step) :
  within (fun e => negb (is_progress e)) s -> reports ms s.
Proof.
  intros Hs l d Hd.
  assert (progress_values d = []) as ->.
  { apply (progress_values_class (fun e => negb (is_progress e))); [|exact (Hs _ _ Hd)].
    intros e He. now destruct (is_progress e). }
  split; [now exists O | reflexivity].
Qed.

Lemma reports_after (ms : list Z) (s1 s2 : Trace.step) :
  within (fun e => negb (is_progress e)) s1 -> reports ms s2 ->
  reports ms (Trace.seq s1 s2).
Proof.
  intros H1 H2 l d (d1 & d2 & Hs1 & Hs2 & ->).
  assert (progress_values d1 = []) as Hd1.
  { apply (progress_values_class (fun e => negb (is_progress e))); [|exact (H1 _ _ Hs1)].
    intros e He. now destruct (is_progress e). }
  rewrite progress_values_app, Hd1. cbn [app].
  destruct (H2 _ _ Hs2) as [Hk Hreq]. split; [exact Hk|].
  intros Hl. apply Hreq. now rewrite requested_app, Hl.
Qed.

Lemma reports_progress (v : Z) (ms : list Z) (s : Trace.step) :
  reports ms s -> reports (v :: ms) (Trace.seq (Trace.signal (EProgress v)) s).
Proof.
  intros Hs l d (d1 & d2 & (y & Hy & ->) & Hs2 & ->).
  destruct (Hs _ _ Hs2) as [[k Hk] Hreq].
  rewrite !progress_values_app.
  rewrite (progress_values_class is_cancel_request y); [|class_incl|exact Hy]. cbn [app].
  destruct (requested (l ++ y)) eqn:Hq.
  - cbn [progress_values app]. rewrite Hreq.
    + split; [now exists O | reflexivity].
    + now rewrite app_nil_r in *.
  - split.
    + exists (S k). cbn. now rewrite Hk.
    + intros Hl. rewrite requested_app, Hl in Hq. discriminate.
Qed.

Lemma reports_check (ms : list Z) (n : nat) (k : bool -> Trace.step) :
  (forall c, reports ms (k c)) -> reports ms (Trace.check n k).
Proof.
  intros Hk l d (y & d' & Hy & Hd' & ->).
  destruct (Hk _ _ _ Hd') as [Hpre Hreq].
  rewrite progress_values_app.
  rewrite (progress_values_class is_cancel_request y); [|class_incl|exact Hy].
  cbn [app progress_values]. split; [exact Hpre|].
  intros Hl. apply Hreq. now rewrite requested_app, Hl.
Qed.

Lemma reports_call (ms : list Z) (K : event -> bool) (c : collaborator)
  (k : bool -> Trace.step) :
  (forall e, K e = true -> is_progress e = false) ->
  (forall ok, reports ms (k ok)) -> reports ms (Trace.call K c k).
Proof.
  intros HK Hk l d (body & ok & d' & Hbody & Hd' & ->).
  destruct (Hk _ _ _ Hd') as [Hpre Hreq].
  cbn [progress_values]. rewrite progress_values_app.
  rewrite (progress_values_class K body HK Hbody).
  cbn [app progress_values]. split; [exact Hpre|].
  intros Hl. apply Hreq. now rewrite requested_app, Hl.
Qed.

Ltac reports_tac :=
  repeat first
    [ assumption
    | apply reports_progress
    | apply reports_check; intros [|]
    | apply reports_call; [class_incl | intros [|]]
    | apply reports_after; [solve [within_tac] |]
    | apply reports_nothing; solve [within_tac] ].

Lemma model_load_reports (self : TranscriptionWorker.config) :
  reports milestones (Trace.model_load self).
Proof.
  assert (reports [100] Trace.render) as H5 by (unfold Trace.render; reports_tac).
  assert (reports [85; 100] (Trace.translate self)) as H4.
  { unfold Trace.translate. destruct (TranscriptionWorker.enable_translation self);
      reports_tac. }
  assert (reports [70; 85; 100] (Trace.summarize self)) as H3.
  { unfold Trace.summarize. destruct (TranscriptionWorker.enable_summary self);
      reports_tac. }
  assert (reports [60; 70; 85; 100] (Trace.transcribe self)) as H2
    by (unfold Trace.transcribe; reports_tac).
  unfold Trace.model_load, milestones. reports_tac.
Qed.

(** *** Stages the job does not ask for *)

Lemma model_load_skips (self : TranscriptionWorker.config) (n : nat) :
  stage_enabled self n = false ->
  within (fun e => negb (is_stage_call n e)) (Trace.model_load self).
Proof.
  intros Hn.
  destruct n as [|[|[|[|[|n]]]]]; try discriminate Hn; cbn in Hn.
  - (* summarization *)
    assert (within (fun e => negb (is_stage_call 3 e)) Trace.render) as H5
      by (unfold Trace.render; within_tac).
    assert (within (fun e => negb (is_stage_call 3 e)) (Trace.translate self)) as H4.
    { unfold Trace.translate. destruct (TranscriptionWorker.enable_translation self);
        within_tac. }
    assert (within (fun e => negb (is_stage_call 3 e)) (Trace.summarize self)) as H3.
    { unfold Trace.summarize. rewrite Hn. within_tac. }
    assert (within (fun e => negb (is_stage_call 3 e)) (Trace.transcribe self)) as H2
      by (unfold Trace.transcribe; within_tac).
    unfold Trace.model_load. within_tac.
  - (* translation *)
    assert (within (fun e => negb (is_stage_call 4 e)) Trace.render) as H5
      by (unfold Trace.render; within_tac).
    assert (within (fun e => negb (is_stage_call 4 e)) (Trace.translate self)) as H4.
    { unfold Trace.translate. rewrite Hn. within_tac. }
    assert (within (fun e => negb (is_stage_call 4 e)) (Trace.summarize self)) as H3.
    { unfold Trace.summarize. destruct (TranscriptionWorker.enable_summary self);
        within_tac. }
    assert (within (fun e => negb (is_stage_call 4 e)) (Trace.transcribe self)) as H2
      by (unfold Trace.transcribe; within_tac).
    unfold Trace.model_load. within_tac.
Qed.

(** ** Callbacks *)

Section Callbacks.
Context (E : environment).

Lemma no_callback_keeps_whisper : keeps_whisper None.
Proof. intros m w. reflexivity. Qed.

Lemma no_callback_adds_status_only : adds_status_only None.
Proof. intros m w. exists []. split; [now rewrite app_nil_r | reflexivity]. Qed.

Lemma update_status_log (m : status_msg) (w : world) :
  exists d, w_log (snd (BaseWorker.update_status E m w)) = (w_log w ++ d)%list
    /\ forallb is_status_or_request d = true.
Proof.
  destruct (notify_log E (EStatus m) w) as (y & Hy & Hlog).
  exists (y ++ (if flag w || requested y then [] else [EStatus m]))%list.
  split; [exact Hlog|]. rewrite forallb_app.
  rewrite (forallb_impl is_cancel_request is_status_or_request y); [|class_incl|exact Hy].
  now destruct (flag w || requested y).
Qed.

Lemma update_status_frame (m : status_msg) (w : world) :
  w_whisper (snd (BaseWorker.update_status E m w)) = w_whisper w
  /\ w_disk (snd (BaseWorker.update_status E m w)) = w_disk w
  /\ w_result (snd (BaseWorker.update_status E m w)) = w_result w.
Proof.
  unfold BaseWorker.update_status, BaseWorker.is_cancelled, BaseWorker.yield, bind. cbn.
  destruct (bool_decide _); cbn; [auto|].
  destruct (w_cancelled w || w_interruption w); cbn; auto.
Qed.

Lemma update_status_keeps_whisper : keeps_whisper (Some (BaseWorker.update_status E)).
Proof. intros m w. apply update_status_frame. Qed.

Lemma update_status_keeps_disk : keeps_disk (Some (BaseWorker.update_status E)).
Proof. intros m w. apply update_status_frame. Qed.

Lemma update_status_adds_status_only : adds_status_only (Some (BaseWorker.update_status E)).
Proof. intros m w. apply update_status_log. Qed.

End Callbacks.

(** ** The whisper processor *)

Section WhisperFacts.
Context (E : environment).

Lemma yield_frame (w : world) :
  w_whisper (snd (BaseWorker.yield E w)) = w_whisper w
  /\ w_disk (snd (BaseWorker.yield E w)) = w_disk w
  /\ w_result (snd (BaseWorker.yield E w)) = w_result w.
Proof. unfold BaseWorker.yield. cbn. destruct (bool_decide _); cbn; auto. Qed.

Lemma external_call_frame (x : external) (w : world) :
  w_whisper (snd (BaseWorker.external_call E x w)) = w_whisper w
  /\ w_disk (snd (BaseWorker.external_call E x w)) = w_disk w
  /\ w_result (snd (BaseWorker.external_call E x w)) = w_result w.
Proof.
  unfold BaseWorker.external_call. rewrite run_bind. cbn. apply yield_frame.
Qed.

Lemma yield_log (w : world) :
  exists d, w_log (snd (BaseWorker.yield E w)) = (w_log w ++ d)%list
    /\ forallb is_cancel_request d = true.
Proof.
  unfold BaseWorker.yield. cbn. destruct (bool_decide _); cbn.
  - exists [ECancelRequested]. split; reflexivity.
  - exists []. split; [now rewrite app_nil_r | reflexivity].
Qed.

(** What [load_model] does to the processor, case by case. *)
Lemma load_model_state (size : string) (cb : option (status_msg -> M unit)) (w : world) :
  keeps_whisper cb ->
  let s := w_whisper w in
  let r := WhisperProcessor.load_model E size cb w in
  if bool_decide (current_model_size s = Some size) && bool_decide (is_Some (current_model s))
  then fst r = true /\ w_whisper (snd r) = s
  else
    match _models s !! size with
    | Some m =>
        fst r = true
        /\ w_whisper (snd r)
           = {| current_model := Some m; current_model_size := Some size;
                _models := _models s |}
    | None =>
        match whisper_load_model E size with
        | Some m =>
            fst r = true
            /\ w_whisper (snd r)
               = {| current_model := Some m; current_model_size := Some size;
                    _models := <[size := m]> (_models s) |}
        | None => fst r = false /\ w_whisper (snd r) = s
        end
    end.
Proof.
  intros Hcb s r. subst s r.
  unfold WhisperProcessor.load_model, WhisperProcessor.get_state, WhisperProcessor.put_state.
  rewrite run_bind. cbn [fst snd].
  destruct (bool_decide (current_model_size (w_whisper w) = Some size)
            && bool_decide (is_Some (current_model (w_whisper w)))).
  - rewrite run_bind. cbn [ret fst snd]. now rewrite Hcb.
  - destruct (_models (w_whisper w) !! size) as [m|].
    + rewrite !run_bind. cbn [ret fst snd]. now rewrite Hcb.
    + rewrite !run_bind.
      set (w1 := snd (callback cb (SModelDownloading size) w)).
      assert (w_whisper w1 = w_whisper w) as H1 by apply Hcb.
      set (w2 := snd (BaseWorker.external_call E (XWhisperLoad size) w1)).
      assert (w_whisper w2 = w_whisper w) as H2.
      { unfold w2. now rewrite (proj1 (external_call_frame _ w1)). }
      clearbody w2. clear H1. clearbody w1.
      destruct (whisper_load_model E size) as [m|].
      * rewrite !run_bind. cbn [ret fst snd]. rewrite Hcb. cbn. now rewrite H2.
      * rewrite !run_bind. cbn [ret fst snd]. now rewrite Hcb.
Qed.

End WhisperFacts.

Section WhisperLog.
Context (E : environment).

(** A model that is current, or in the cache, is not asked from whisper. *)
Lemma load_model_cached_log (size : string) (cb : option (status_msg -> M unit)) (w : world) :
  adds_status_only cb ->
  is_Some (_models (w_whisper w) !! size)
  \/ (current_model_size (w_whisper w) = Some size /\ is_Some (current_model (w_whisper w))) ->
  exists d, w_log (snd (WhisperProcessor.load_model E size cb w)) = (w_log w ++ d)%list
    /\ forallb is_status_or_request d = true.
Proof.
  intros Hcb Hhit.
  unfold WhisperProcessor.load_model, WhisperProcessor.get_state, WhisperProcessor.put_state.
  rewrite run_bind. cbn [fst snd].
  destruct (bool_decide (current_model_size (w_whisper w) = Some size)
            && bool_decide (is_Some (current_model (w_whisper w)))) eqn:Hcur.
  - rewrite run_bind. cbn [ret fst snd]. apply Hcb.
  - destruct (_models (w_whisper w) !! size) as [m|] eqn:Hc.
    + rewrite !run_bind. cbn [ret fst snd].
      destruct (Hcb (SModelFromCache size)
                  (set_whisper {| current_model := Some m; current_model_size := Some size;
                                  _models := _models (w_whisper w) |} w)) as (d & Hd & Hs).
      exists d. split; [exact Hd | exact Hs].
    + exfalso. destruct Hhit as [[m Hm] | [Hsize Hm]]; [discriminate|].
      apply andb_false_iff in Hcur as [H|H]; apply bool_decide_eq_false in H; contradiction.
Qed.

End WhisperLog.

(** ** The summarizer *)

Section SummarizerFacts.
Context (E : environment).

Lemma lsa_requests_app (l1 l2 : list event) :
  lsa_requests (l1 ++ l2) = (lsa_requests l1 ++ lsa_requests l2)%list.
Proof.
  induction l1 as [|e l1 IH]; [reflexivity|].
  destruct e as [| | | | | | | | | |x]; cbn; try exact IH.
  destruct x; cbn; rewrite ?IH; reflexivity.
Qed.

Lemma lsa_requests_status (d : list event) :
  forallb is_status_or_request d = true -> lsa_requests d = [].
Proof.
  induction d as [|e d IH]; [reflexivity|]. cbn. intros H.
  apply andb_true_iff in H as [He Hd]. destruct e; try discriminate He; cbn; auto.
Qed.

Lemma lsa_requests_callback (cb : option (status_msg -> M unit)) (m : status_msg) (w : world) :
  adds_status_only cb ->
  lsa_requests (w_log (snd (callback cb m w))) = lsa_requests (w_log w).
Proof.
  intros Hcb. destruct (Hcb m w) as (d & -> & Hd).
  now rewrite lsa_requests_app, (lsa_requests_status d Hd), app_nil_r.
Qed.

Lemma lsa_requests_external (x : external) (w : world) :
  lsa_requests (w_log (snd (BaseWorker.external_call E x w)))
  = (lsa_requests (w_log w) ++ lsa_requests [EExternal x])%list.
Proof.
  unfold BaseWorker.external_call. rewrite run_bind. cbn [record snd fst set_log w_log].
  rewrite lsa_requests_app. f_equal.
  destruct (yield_log E w) as (d & -> & Hd).
  rewrite lsa_requests_app, (lsa_requests_status d), app_nil_r; [reflexivity|].
  apply (forallb_impl is_cancel_request); [class_incl | exact Hd].
Qed.

(** What [summarize] returns, and what it asks the LSA summarizer. *)
Lemma summarize_spec (text : string) (ratio : float) (cb : option (status_msg -> M unit))
  (w : world) :
  adds_status_only cb ->
  let r := TextSummarizer.summarize E text ratio cb w in
  lsa_requests (w_log (snd r)) = (lsa_requests (w_log w) ++ lsa_request_of E text ratio)%list
  /\ fst r
     = if PyStr.all_space text then None
       else match sent_tokenize_count E text with
            | Some n =>
                if n <=? 1 then Some text
                else match PyFloat.py_int (PyFloat.of_int n * ratio)%float with
                     | Some k => lsa_summary E text (Z.max 1 k)
                     | None => None
                     end
            | None => None
            end.
Proof.
  intros Hcb r. subst r. unfold TextSummarizer.summarize, lsa_request_of.
  rewrite blank_guard.
  destruct (PyStr.all_space text); [cbn; now rewrite app_nil_r|].
  rewrite !run_bind.
  set (w1 := snd (callback cb SAnalysing w)).
  assert (lsa_requests (w_log w1) = lsa_requests (w_log w)) as H1
    by apply (lsa_requests_callback cb _ w Hcb).
  set (w2 := snd (BaseWorker.external_call E (XSentTokenize text) w1)).
  assert (lsa_requests (w_log w2) = lsa_requests (w_log w)) as H2.
  { unfold w2. rewrite lsa_requests_external, H1. cbn. now rewrite app_nil_r. }
  clearbody w2. clear H1. clearbody w1.
  destruct (sent_tokenize_count E text) as [n|].
  - destruct (n <=? 1).
    + cbn. now rewrite H2, app_nil_r.
    + destruct (PyFloat.py_int (PyFloat.of_int n * ratio)) as [k|].
      * rewrite !run_bind.
        set (w3 := snd (callback cb (SSummaryOf (Z.max 1 k) n) w2)).
        assert (lsa_requests (w_log w3) = lsa_requests (w_log w)) as H3.
        { unfold w3. now rewrite lsa_requests_callback. }
        set (w4 := snd (BaseWorker.external_call E (XLsa text (Z.max 1 k)) w3)).
        assert (lsa_requests (w_log w4) = (lsa_requests (w_log w) ++ [Z.max 1 k])%list) as H4.
        { unfold w4. now rewrite lsa_requests_external, H3. }
        clearbody w4. clear H3. clearbody w3.
        destruct (lsa_summary E text (Z.max 1 k)) as [summary|];
          rewrite !run_bind; cbn [ret fst snd]; rewrite lsa_requests_callback by exact Hcb;
          now rewrite H4.
      * rewrite !run_bind. cbn [ret fst snd].
        rewrite lsa_requests_callback by exact Hcb. now rewrite H2, app_nil_r.
  - rewrite !run_bind. cbn [ret fst snd].
    rewrite lsa_requests_callback by exact Hcb. now rewrite H2, app_nil_r.
Qed.

End SummarizerFacts.

(** ** The translator: requests and pauses *)

Section TranslatorFacts.
Context (E : environment).

Lemma sleeps_app (l1 l2 : list event) : sleeps (l1 ++ l2) = (sleeps l1 + sleeps l2)%nat.
Proof.
  induction l1 as [|e l1 IH]; [reflexivity|].
  destruct e as [| | | | | | | | | |x]; cbn; try exact IH.
  destruct x; cbn; rewrite ?IH; reflexivity.
Qed.

Lemma sleeps_status (d : list event) :
  forallb is_status_or_request d = true -> sleeps d = O.
Proof.
  induction d as [|e d IH]; [reflexivity|]. cbn. intros H.
  apply andb_true_iff in H as [He Hd]. destruct e; try discriminate He; cbn; auto.
Qed.

Lemma requests_status (d : list event) :
  forallb is_status_or_request d = true -> Translator.requests d = O.
Proof.
  induction d as [|e d IH]; [reflexivity|]. cbn. intros H.
  apply andb_true_iff in H as [He Hd]. destruct e; try discriminate He; cbn; auto.
Qed.

Lemma status_only_makes_no_request (cb : option (status_msg -> M unit)) :
  adds_status_only cb -> makes_no_request cb.
Proof.
  intros Hcb m w. destruct (Hcb m w) as (d & -> & Hd).
  rewrite requests_app, (requests_status d Hd). lia.
Qed.

Lemma sleeps_callback (cb : option (status_msg -> M unit)) (m : status_msg) (w : world) :
  adds_status_only cb -> sleeps (w_log (snd (callback cb m w))) = sleeps (w_log w).
Proof.
  intros Hcb. destruct (Hcb m w) as (d & -> & Hd).
  rewrite sleeps_app, (sleeps_status d Hd). lia.
Qed.

Lemma sleeps_external (x : external) (w : world) :
  sleeps (w_log (snd (BaseWorker.external_call E x w)))
  = (sleeps (w_log w) + sleeps [EExternal x])%nat.
Proof.
  unfold BaseWorker.external_call. rewrite run_bind. cbn [record snd fst set_log w_log].
  rewrite sleeps_app. f_equal.
  destruct (yield_log E w) as (d & -> & Hd).
  rewrite sleeps_app, (sleeps_status d); [lia|].
  apply (forallb_impl is_cancel_request); [class_incl | exact Hd].
Qed.

Lemma sleeps_translate_text (text target_lang source_lang : string) (w : world) :
  sleeps (w_log (snd (Translator.translate_text E text target_lang source_lang None w)))
  = sleeps (w_log w).
Proof.
  unfold Translator.translate_text.
  destruct (negb (PyStr.truthy text) || negb (PyStr.truthy (PyStr.strip text)));
    [reflexivity|].
  cbn [callback]. rewrite !run_bind. cbn [ret fst snd].
  assert (sleeps (w_log (snd (Translator.request E text target_lang source_lang w)))
          = sleeps (w_log w)) as Hr.
  { unfold Translator.request.
    pose proof (sleeps_external (XGoogleTranslate text target_lang source_lang) w) as Hx.
    destruct (BaseWorker.external_call E (XGoogleTranslate text target_lang source_lang) w)
      as [u w']. cbn [snd] in *. rewrite Hx. cbn. lia. }
  destruct (fst (Translator.request E text target_lang source_lang w)); cbn; exact Hr.
Qed.

Lemma sleeps_translate_segment (target_lang source_lang : string)
  (cb : option (status_msg -> M unit)) (total i : Z) (seg : segment) (w : world) :
  adds_status_only cb ->
  sleeps (w_log (snd (Translator.translate_segment E target_lang source_lang cb total i seg w)))
  = sleeps (w_log w).
Proof.
  intros Hcb. unfold Translator.translate_segment. rewrite run_bind.
  set (w1 := snd (callback cb (SSegmentOf (i + 1) total) w)).
  assert (sleeps (w_log w1) = sleeps (w_log w)) as H1 by apply (sleeps_callback cb _ w Hcb).
  clearbody w1.
  destruct (PyStr.truthy (seg_text seg)); [|exact H1].
  rewrite run_bind.
  pose proof (sleeps_translate_text (PyStr.strip (seg_text seg)) target_lang source_lang w1)
    as H2.
  destruct (PyStr.truthy_opt _); cbn [ret snd]; now rewrite H2.
Qed.

(** One more index is one more multiple of the batch size when the index
    reached is a multiple. *)
Lemma batch_step (b i : Z) :
  b <> 0 -> 0 <= i ->
  (i + 1) / Z.abs b - i / Z.abs b = if (i + 1) mod b =? 0 then 1 else 0.
Proof.
  intros Hb Hi.
  assert (0 < Z.abs b) as HB by lia.
  assert (((i + 1) mod b = 0) <-> ((i + 1) mod Z.abs b = 0)) as Hiff.
  { rewrite !Z.mod_divide by lia. symmetry. apply Z.divide_abs_l. }
  pose proof (Z.div_mod (i + 1) (Z.abs b) ltac:(lia)) as E1.
  pose proof (Z.div_mod i (Z.abs b) ltac:(lia)) as E0.
  pose proof (Z.mod_pos_bound (i + 1) (Z.abs b) HB) as B1.
  pose proof (Z.mod_pos_bound i (Z.abs b) HB) as B0.
  destruct ((i + 1) mod b =? 0) eqn:Hc.
  - apply Z.eqb_eq in Hc. apply Hiff in Hc. nia.
  - apply Z.eqb_neq in Hc. assert ((i + 1) mod Z.abs b <> 0) as Hn by tauto. nia.
Qed.

Lemma translate_loop_sleeps (target_lang source_lang : string)
  (cb : option (status_msg -> M unit)) (batch_size total : Z) :
  batch_size <> 0 ->
  adds_status_only cb ->
  forall (segments : list segment) (i : Z) (acc : list segment) (w : world),
    0 <= i ->
    Z.of_nat (sleeps (w_log (snd (Translator.translate_loop E target_lang source_lang cb
                                    batch_size total i segments acc w))))
    = Z.of_nat (sleeps (w_log w))
      + ((i + Z.of_nat (List.length segments)) / Z.abs batch_size - i / Z.abs batch_size).
Proof.
  intros Hb Hcb. induction segments as [|seg rest IH]; intros i acc w Hi.
  - cbn. rewrite Z.add_0_r. lia.
  - cbn [Translator.translate_loop]. rewrite run_bind.
    pose proof (sleeps_translate_segment target_lang source_lang cb total i seg w Hcb) as Hs.
    set (w1 := snd (Translator.translate_segment E target_lang source_lang cb total i seg w))
      in *.
    clearbody w1.
    destruct (batch_size =? 0) eqn:Hz; [apply Z.eqb_eq in Hz; contradiction|].
    rewrite run_bind.
    pose proof (batch_step batch_size i Hb Hi) as Hstep.
    destruct ((i + 1) mod batch_size =? 0).
    + rewrite run_when_true.
      rewrite IH by lia. rewrite sleeps_external, Hs. cbn [sleeps List.length].
      replace (i + 1 + Z.of_nat (List.length rest))
        with (i + Z.of_nat (S (List.length rest))) by lia.
      lia.
    + rewrite run_when_false. cbn [snd].
      rewrite IH by lia. rewrite Hs. cbn [List.length].
      replace (i + 1 + Z.of_nat (List.length rest))
        with (i + Z.of_nat (S (List.length rest))) by lia.
      lia.
Qed.

End TranslatorFacts.

(** ** The renderers *)

Section FileFacts.
Context (E : environment).

Lemma write_file_disk (path : string) (content : file_content) (w : world) :
  w_disk (snd (FileHandler.write_file E path content w)) = <[path := content]> (w_disk w).
Proof.
  unfold FileHandler.write_file. rewrite run_bind.
  pose proof (proj1 (proj2 (yield_frame E w))) as H.
  set (w1 := snd (BaseWorker.yield E w)) in *. clearbody w1.
  cbn. now rewrite H.
Qed.

(** The loop of [create_srt] stops at the first segment whose time stamps
    cannot be formatted, its number written. *)
Lemma write_cues_stops (good : list segment) (bad : segment) (rest : list segment) :
  forall (i : Z) (written doc : string),
    SrtSpec.cues (i + 1) good = Some doc ->
    SrtSpec.cue (i + 1 + Z.of_nat (List.length good)) bad = None ->
    FileHandler.write_cues i (good ++ bad :: rest) written
    = (written +:+ doc +:+ PyStr.digits (i + 1 + Z.of_nat (List.length good))
         +:+ PyStr.newline, false).
Proof.
  induction good as [|seg good IH]; intros i written doc Hdoc Hbad.
  - injection Hdoc as <-. cbn [app List.length FileHandler.write_cues] in *.
    rewrite Z.add_0_r in *. rewrite append_nil.
    unfold SrtSpec.cue in Hbad. unfold FileHandler.write_cue.
    destruct (FileHandler.format_time (seg_start bad)) as [a|]; [|reflexivity].
    destruct (FileHandler.format_time (seg_end bad)) as [b|]; [discriminate|reflexivity].
  - cbn [app FileHandler.write_cues]. cbn [SrtSpec.cues] in Hdoc.
    destruct (SrtSpec.cue (i + 1) seg) as [c|] eqn:Hc; [|discriminate].
    destruct (SrtSpec.cues (i + 1 + 1) good) as [r|] eqn:Hr; [|discriminate].
    injection Hdoc as <-. rewrite (write_cue_cue _ _ _ _ Hc).
    rewrite (IH (i + 1) _ r Hr).
    + cbn [List.length].
      replace (i + 1 + Z.of_nat (S (List.length good)))
        with (i + 1 + 1 + Z.of_nat (List.length good)) by lia.
      now rewrite !append_assoc.
    + rewrite <- Hbad. f_equal. cbn [List.length]. lia.
Qed.

End FileFacts.

(** ** Wrapping text *)

Lemma split_words_nonempty (s : string) : Forall (fun w => w <> "") (PyStr.split s).
Proof.
  induction s as [|c s IH]; cbn [PyStr.split]; [constructor|].
  destruct (PyStr.is_space c); [exact IH|].
  destruct (PyStr.starts_word s).
  - destruct (PyStr.split s) as [|h t].
    + constructor; [discriminate | constructor].
    + inversion IH; subst. constructor; [discriminate | assumption].
  - constructor; [discriminate | exact IH].
Qed.

Lemma split_blank (s : string) : PyStr.all_space s = true -> PyStr.split s = [].
Proof.
  induction s as [|c s IH]; [reflexivity|]. cbn.
  destruct (PyStr.is_space c); [exact IH | discriminate].
Qed.

Lemma concat_snoc (g : list string) (w : string) :
  g <> [] -> String.concat " " (g ++ [w]) = String.concat " " g +:+ " " +:+ w.
Proof.
  induction g as [|x g IH]; [contradiction|]. intros _.
  destruct g as [|y g]; [reflexivity|].
  change (String.concat " " ((x :: y :: g) ++ [w]))
    with (x +:+ " " +:+ String.concat " " ((y :: g) ++ [w])).
  rewrite IH by discriminate.
  change (String.concat " " (x :: y :: g)) with (x +:+ " " +:+ String.concat " " (y :: g)).
  now rewrite !append_assoc.
Qed.

Lemma truthy_concat (g : list string) :
  Forall (fun w => w <> "") g -> g <> [] -> PyStr.truthy (String.concat " " g) = true.
Proof.
  intros Hg Hne. destruct g as [|x g]; [contradiction|]. inversion Hg; subst.
  destruct x as [|c x]; [contradiction|]. destruct g; reflexivity.
Qed.

(** Groups that are not empty and whose words are [w :: rest] begin with a
    group that begins with [w]. *)
Lemma first_group (groups : list (list string)) (w : string) (rest : list string) :
  List.concat groups = w :: rest -> Forall (fun g => g <> []) groups ->
  exists g groups', groups = (w :: g) :: groups'.
Proof.
  intros Hcat Hne. destruct groups as [|g groups]; [discriminate|].
  inversion Hne as [|? ? Hg _]; subst. destruct g as [|x g]; [contradiction|].
  cbn in Hcat. injection Hcat as -> _. now exists g, groups.
Qed.

(** The loop groups the words left into lines, after the words of the line
    being filled. *)
Lemma wrap_words_groups (max_width : Z) (words : list string) :
  forall (g : list string) (done : list (list string)),
    Forall (fun w => w <> "") (g ++ words)%list ->
    (g = [] \/ Z.of_nat (String.length (String.concat " " g)) <= max_width
     \/ List.length g = 1%nat) ->
    exists groups,
      FileHandler.wrap_words max_width words (String.concat " " g)
        (map (String.concat " ") done)
      = map (String.concat " ") (done ++ groups)%list
      /\ List.concat groups = (g ++ words)%list
      /\ Forall (fun g' => g' <> []) groups
      /\ Forall (fun g' => Z.of_nat (String.length (String.concat " " g')) <= max_width
                           \/ List.length g' = 1%nat) groups
      /\ greedy_groups max_width groups.
Proof.
  induction words as [|w rest IH]; intros g done Hne Hwidth.
  - cbn [FileHandler.wrap_words]. rewrite app_nil_r in Hne |- *.
    destruct g as [|x g].
    + exists []. cbn. rewrite app_nil_r. repeat split; constructor.
    + rewrite (truthy_concat (x :: g) Hne) by discriminate.
      exists [x :: g]. rewrite map_app. cbn [map List.concat]. rewrite app_nil_r.
      split; [reflexivity|]. split; [reflexivity|].
      split; [constructor; [discriminate | constructor]|].
      split; [|cbn; auto].
      constructor; [|constructor]. destruct Hwidth as [H|H]; [discriminate | exact H].
  - cbn [FileHandler.wrap_words].
    assert (Forall (fun w => w <> "") ([w] ++ rest)%list) as Hrest.
    { apply Forall_app in Hne as [_ H]. exact H. }
    destruct g as [|x g].
    + cbn [String.concat PyStr.truthy String.eqb negb].
      destruct (Z.of_nat (String.length w) <=? max_width) eqn:Hfit.
      * apply Z.leb_le in Hfit.
        destruct (IH [w] done Hrest) as (groups & Hrun & Hcat & Hn & Hw & Hgr).
        { right. left. exact Hfit. }
        exists groups. cbn [String.concat] in Hrun. auto.
      * destruct (IH [w] done Hrest) as (groups & Hrun & Hcat & Hn & Hw & Hgr).
        { right. right. reflexivity. }
        exists groups. cbn [String.concat] in Hrun. auto.
    + assert (Forall (fun w => w <> "") (x :: g)) as Hg.
      { apply Forall_app in Hne as [H _]. exact H. }
      rewrite (truthy_concat (x :: g) Hg) by discriminate.
      rewrite <- (concat_snoc (x :: g) w) by discriminate.
      destruct (Z.of_nat (String.length (String.concat " " ((x :: g) ++ [w])%list))
                <=? max_width) eqn:Hfit.
      * apply Z.leb_le in Hfit.
        destruct (IH ((x :: g) ++ [w])%list done) as (groups & Hrun & Hcat & Hn & Hw & Hgr).
        { now rewrite <- app_assoc. }
        { right. left. exact Hfit. }
        exists groups. rewrite <- app_assoc in Hcat. auto.
      * apply Z.leb_gt in Hfit.
        destruct (IH [w] (done ++ [x :: g])%list Hrest)
          as (groups & Hrun & Hcat & Hn & Hw & Hgr).
        { right. right. reflexivity. }
        exists ((x :: g) :: groups).
        split.
        { rewrite map_app in Hrun. cbn [map] in Hrun. rewrite <- app_assoc in Hrun.
          exact Hrun. }
        split; [cbn [List.concat]; now rewrite Hcat|].
        split; [constructor; [discriminate | exact Hn]|].
        split.
        { constructor; [|exact Hw].
          destruct Hwidth as [H|H]; [discriminate | exact H]. }
        destruct (first_group groups w rest Hcat Hn) as (g1 & groups' & ->).
        split; [exact Hfit | exact Hgr].
Qed.

Lemma split_words (s : string) : Forall is_word (PyStr.split s).
Proof.
  induction s as [|c s IH]; cbn [PyStr.split]; [constructor|].
  destruct (PyStr.is_space c) eqn:Hc; [exact IH|].
  assert (is_word (String c "")) as Hone.
  { split; [discriminate|]. cbn. now rewrite Hc. }
  destruct (PyStr.starts_word s).
  - destruct (PyStr.split s) as [|h t]; [constructor; [exact Hone | constructor]|].
    inversion IH as [|? ? [Hh1 Hh2] Ht]; subst. constructor; [|exact Ht].
    split; [discriminate|]. cbn. now rewrite Hc, Hh2.
  - constructor; [exact Hone | exact IH].
Qed.

Lemma split_word (w : string) : is_word w -> PyStr.split w = [w].
Proof.
  intros [Hne Hw]. induction w as [|c w IH]; [contradiction|].
  cbn in Hw. apply andb_true_iff in Hw as [Hc Hw]. apply negb_true_iff in Hc.
  cbn [PyStr.split]. rewrite Hc. destruct w as [|d w]; [reflexivity|].
  rewrite IH by (discriminate || assumption).
  cbn in Hw. apply andb_true_iff in Hw as [Hd _]. cbn [PyStr.starts_word]. now rewrite Hd.
Qed.

Lemma split_word_then (w s : string) :
  is_word w -> PyStr.split (w +:+ " " +:+ s) = w :: PyStr.split s.
Proof.
  intros [Hne Hw]. induction w as [|c w IH]; [contradiction|].
  cbn in Hw. apply andb_true_iff in Hw as [Hc Hw]. apply negb_true_iff in Hc.
  rewrite append_cons. cbn [PyStr.split]. rewrite Hc. destruct w as [|d w].
  - rewrite append_nil. reflexivity.
  - rewrite IH by (discriminate || assumption).
    cbn in Hw. apply andb_true_iff in Hw as [Hd _].
    rewrite append_cons. cbn [PyStr.starts_word]. now rewrite Hd.
Qed.

(** Words joined by single blanks split into these words. *)
Lemma split_join (g : list string) :
  Forall is_word g -> PyStr.split (String.concat " " g) = g.
Proof.
  induction 1 as [|w g Hw Hg IH]; [reflexivity|].
  destruct g as [|x g]; [now apply split_word|].
  change (String.concat " " (w :: x :: g)) with (w +:+ " " +:+ String.concat " " (x :: g)).
  now rewrite split_word_then, IH.
Qed.

Lemma Forall_concat_groups {A} (P : A -> Prop) (groups : list (list A)) :
  Forall P (List.concat groups) -> Forall (Forall P) groups.
Proof.
  induction groups as [|g groups IH]; cbn; [constructor|].
  intros H. apply Forall_app in H as [Hg Hrest]. constructor; auto.
Qed.

(** The lines of [_wrap_text], as groups of the words of the text. *)
Lemma wrap_text_groups (text : string) (max_width : Z) :
  exists groups,
    FileHandler._wrap_text text max_width = map (String.concat " ") groups
    /\ List.concat groups = PyStr.split text
    /\ Forall (fun g => g <> []) groups
    /\ Forall (fun g => Z.of_nat (String.length (String.concat " " g)) <= max_width
                        \/ List.length g = 1%nat) groups
    /\ Forall (Forall is_word) groups
    /\ greedy_groups max_width groups.
Proof.
  destruct (wrap_words_groups max_width (PyStr.split text) [] [])
    as (groups & Hrun & Hcat & Hne & Hw & Hgr).
  - cbn. eapply Forall_impl; [apply split_words|]. intros w [H _]. exact H.
  - now left.
  - exists groups. cbn in Hrun, Hcat. unfold FileHandler._wrap_text.
    repeat split; try assumption.
    apply Forall_concat_groups. rewrite Hcat. apply split_words.
Qed.

(** ** Output generation *)

Lemma hoare_bind {A B} (P : world -> Prop) (m : M A) (Q : A -> world -> Prop)
  (k : A -> M B) (R : B -> world -> Prop) :
  hoare P m Q -> (forall a, hoare (Q a) (k a) R) -> hoare P (bind m k) R.
Proof. intros Hm Hk w Hw. rewrite run_bind. apply Hk, Hm, Hw. Qed.

Lemma hoare_ret {A} (P : world -> Prop) (a : A) (Q : A -> world -> Prop) :
  (forall w, P w -> Q a w) -> hoare P (ret a) Q.
Proof. intros H w Hw. apply H, Hw. Qed.

Lemma written_app (l1 l2 : list event) : written (l1 ++ l2) = (written l1 ++ written l2)%list.
Proof.
  induction l1 as [|e l1 IH]; [reflexivity|].
  destruct e; cbn; rewrite ?IH; reflexivity.
Qed.

Lemma written_status (d : list event) :
  forallb is_status_or_request d = true -> written d = [].
Proof.
  induction d as [|e d IH]; [reflexivity|]. cbn. intros H.
  apply andb_true_iff in H as [He Hd]. destruct e; try discriminate He; cbn; auto.
Qed.

Lemma renderer_calls_status (d : list event) :
  forallb is_status_or_request d = true -> renderer_calls d = [].
Proof.
  induction d as [|e d IH]; [reflexivity|]. cbn. intros H.
  apply andb_true_iff in H as [He Hd]. destruct e; try discriminate He; cbn; auto.
Qed.

Lemma rendered_files_app (l1 l2 : list event) :
  rendered_files (l1 ++ l2) = (rendered_files l1 ++ rendered_files l2)%list.
Proof.
  induction l1 as [|e l1 IH]; [reflexivity|].
  destruct e as [?|?|?|? ?| |?|?|?|c|c [|]|x]; cbn; rewrite ?IH; try reflexivity.
  destruct (renderer_path c); reflexivity.
Qed.

Lemma rendered_files_status (d : list event) :
  forallb is_status_or_request d = true -> rendered_files d = [].
Proof.
  induction d as [|e d IH]; [reflexivity|]. cbn. intros H.
  apply andb_true_iff in H as [He Hd]. destruct e; try discriminate He; cbn; auto.
Qed.

Section Renderers.
Context (E : environment) (cb : option (status_msg -> M unit)).
Hypothesis cb_disk : keeps_disk cb.
Hypothesis cb_log : adds_status_only cb.

(** A status text is handed over: nothing is rendered. *)
Lemma callback_quiet (m : status_msg) (w : world) :
  exists d, w_log (snd (callback cb m w)) = (w_log w ++ d)%list
    /\ renderer_calls d = [] /\ written d = []
    /\ w_disk (snd (callback cb m w)) = w_disk w
    /\ rendered_files d = [].
Proof.
  destruct (cb_log m w) as (d & Hd & Hs). exists d.
  split; [exact Hd|]. split; [now apply renderer_calls_status|].
  split; [now apply written_status|].
  split; [apply cb_disk | now apply rendered_files_status].
Qed.

Lemma write_file_spec (path : string) (content : file_content) (w : world) :
  exists d, w_log (snd (FileHandler.write_file E path content w)) = (w_log w ++ d)%list
    /\ renderer_calls d = [] /\ written d = [path]
    /\ w_disk (snd (FileHandler.write_file E path content w)) = <[path := content]> (w_disk w)
    /\ rendered_files d = [].
Proof.
  destruct (yield_log E w) as (y & Hy & Hr).
  exists (y ++ [EWrite path])%list. split; [|split; [|split; [|split]]].
  - unfold FileHandler.write_file. rewrite run_bind.
    set (w1 := snd (BaseWorker.yield E w)) in *. clearbody w1.
    cbn. rewrite Hy. now rewrite <- app_assoc.
  - rewrite renderer_calls_app, renderer_calls_status; [reflexivity|].
    apply (forallb_impl is_cancel_request); [class_incl | exact Hr].
  - rewrite written_app, written_status; [reflexivity|].
    apply (forallb_impl is_cancel_request); [class_incl | exact Hr].
  - apply write_file_disk.
  - rewrite rendered_files_app, rendered_files_status; [reflexivity|].
    apply (forallb_impl is_cancel_request); [class_incl | exact Hr].
Qed.

(** A renderer that writes once at most, between status texts. *)
Lemma renders_when (path : string) (content : file_content) (ok result : bool)
  (before after failed : status_msg) :
  renders path
    (callback cb before ;;
     if ok then FileHandler.write_file E path content ;; callback cb after ;; ret result
     else callback cb failed ;; ret false).
Proof.
  intros w. rewrite run_bind.
  destruct (callback_quiet before w) as (d1 & Hd1 & Hc1 & Hw1 & Hk1 & Hr1).
  set (w1 := snd (callback cb before w)) in *. clearbody w1.
  destruct ok.
  - rewrite !run_bind.
    destruct (write_file_spec path content w1) as (d2 & Hd2 & Hc2 & Hw2 & Hk2 & Hr2).
    set (w2 := snd (FileHandler.write_file E path content w1)) in *. clearbody w2.
    destruct (callback_quiet after w2) as (d3 & Hd3 & Hc3 & Hw3 & Hk3 & Hr3).
    set (w3 := snd (callback cb after w2)) in *. clearbody w3.
    cbn [ret fst snd]. exists (d1 ++ d2 ++ d3)%list.
    split; [rewrite Hd3, Hd2, Hd1; now rewrite <- !app_assoc|].
    split; [now rewrite !renderer_calls_app, Hc1, Hc2, Hc3|].
    split; [rewrite !written_app, Hw1, Hw2, Hw3; cbn; apply incl_refl|].
    rewrite Hk3, Hk2, Hk1. split; [|split; [|split]].
    + intros p Hp. now rewrite lookup_insert_ne.
    + intros _. rewrite lookup_insert_eq. eauto.
    + intros p Hp. destruct (decide (path = p)) as [->|Hne].
      * rewrite lookup_insert_eq. eauto.
      * now rewrite lookup_insert_ne.
    + now rewrite !rendered_files_app, Hr1, Hr2, Hr3.
  - rewrite !run_bind.
    destruct (callback_quiet failed w1) as (d3 & Hd3 & Hc3 & Hw3 & Hk3 & Hr3).
    set (w3 := snd (callback cb failed w1)) in *. clearbody w3.
    cbn [ret fst snd]. exists (d1 ++ d3)%list.
    split; [rewrite Hd3, Hd1; now rewrite <- !app_assoc|].
    split; [now rewrite !renderer_calls_app, Hc1, Hc3|].
    split; [rewrite !written_app, Hw1, Hw3; cbn; intros p []|].
    rewrite Hk3, Hk1. split; [reflexivity|]. split; [discriminate|].
    split; [auto|]. now rewrite !rendered_files_app, Hr1, Hr3.
Qed.

Lemma renders_create_txt (text path : string) :
  renders path (FileHandler.create_txt E text path cb).
Proof. unfold FileHandler.create_txt. apply renders_when. Qed.

Lemma renders_create_srt (segments : list segment) (path : string) :
  renders path (FileHandler.create_srt E segments path cb).
Proof.
  unfold FileHandler.create_srt.
  destruct (FileHandler.write_cues 0 segments "") as [doc ok].
  destruct ok; apply renders_when.
Qed.

Lemma renders_create_pdf (segments : list segment) (path title : string)
  (full_text summary_text : option string) :
  renders path (FileHandler.create_pdf E segments path title full_text summary_text cb).
Proof. unfold FileHandler.create_pdf. apply renders_when. Qed.

End Renderers.

Section Planner.
Context (self : TranscriptionWorker.config) (l0 : list event)
  (disk0 : gmap string file_content).

Lemma plan_call_is_renderer (it : PlanSpec.format * PlanSpec.variant) :
  is_renderer (plan_call self it) = true.
Proof. destruct it as [[] v]; reflexivity. Qed.

Lemma plan_call_path (it : PlanSpec.format * PlanSpec.variant) :
  renderer_path (plan_call self it) = Some (plan_path self it).
Proof. destruct it as [[] v]; reflexivity. Qed.

(** One file of the plan is attempted. *)
Lemma render_step (done : list (PlanSpec.format * PlanSpec.variant))
  (created : list string) (it : PlanSpec.format * PlanSpec.variant) (m : M bool) :
  renders (plan_path self it) m ->
  hoare (rendered self l0 disk0 done created)
    (TranscriptionWorker.render (plan_call self it) (plan_path self it) m created)
    (rendered self l0 disk0 (done ++ [it])%list).
Proof.
  intros Hm w (d & Hlog & Hcalls & Hwr & Hframe & Hdisk & Hsub & Hret & Hall).
  unfold TranscriptionWorker.render. rewrite run_bind, run_invoke. cbn [fst snd ret id].
  set (w1 := snd (record (ECall (plan_call self it)) w)).
  assert (w_log w1 = (w_log w ++ [ECall (plan_call self it)])%list) as Hl1 by reflexivity.
  assert (w_disk w1 = w_disk w) as Hd1 by reflexivity.
  clearbody w1.
  destruct (Hm w1) as (dm & Hlm & Hcm & Hwm & Hfm & Hokm & Hmono & Hrm).
  set (ok := fst (m w1)) in *. set (w2 := snd (m w1)) in *. clearbody ok w2.
  exists (d ++ [ECall (plan_call self it)] ++ dm ++ [EReturn (plan_call self it) ok])%list.
  cbn [record snd set_log w_log w_disk].
  split; [rewrite Hlm, Hl1, Hlog; now rewrite <- !app_assoc|].
  split.
  { rewrite !renderer_calls_app, Hcalls, Hcm, map_app. cbn.
    now rewrite plan_call_is_renderer. }
  split.
  { rewrite !written_app, map_app. cbn [written app]. rewrite app_nil_r.
    apply incl_app; [now apply incl_appl | now apply incl_appr]. }
  split.
  { intros p Hp. rewrite map_app in Hp. cbn in Hp.
    rewrite Hfm, Hd1; [apply Hframe|].
    - intros Hin. apply Hp. apply in_or_app. now left.
    - intros ->. apply Hp. apply in_or_app. right. now left. }
  split.
  { assert (Forall (fun p => is_Some (w_disk w2 !! p)) created) as Hc.
    { eapply Forall_impl; [exact Hdisk|]. intros p Hp. apply Hmono. now rewrite Hd1. }
    destruct ok; [|exact Hc]. apply Forall_app. split; [exact Hc|].
    constructor; [now apply Hokm | constructor]. }
  split.
  { rewrite map_app. cbn [map]. destruct ok.
    - now apply sublist_app.
    - now apply sublist_inserts_r. }
  split.
  { rewrite !rendered_files_app, Hrm, <- Hret. cbn [app rendered_files].
    destruct ok; [|now rewrite app_nil_r]. now rewrite plan_call_path. }
  rewrite !forallb_app. cbn [forallb is_failed_render]. rewrite plan_call_is_renderer.
  intros H. apply andb_true_iff in H as [Hd H]. apply andb_true_iff in H as [_ H].
  apply andb_true_iff in H as [_ H]. destruct ok; [|discriminate H].
  rewrite map_app, (Hall Hd). reflexivity.
Qed.

(** A file of the plan that depends on a condition. *)
Lemma render_when_step (done : list (PlanSpec.format * PlanSpec.variant))
  (created : list string) (b : bool) (it : PlanSpec.format * PlanSpec.variant) (m : M bool) :
  renders (plan_path self it) m ->
  hoare (rendered self l0 disk0 done created)
    (if b
     then TranscriptionWorker.render (plan_call self it) (plan_path self it) m created
     else ret created)
    (rendered self l0 disk0 (done ++ PlanSpec.optional b it)%list).
Proof.
  intros Hm. destruct b; cbn [PlanSpec.optional].
  - now apply render_step.
  - rewrite app_nil_r. apply hoare_ret. auto.
Qed.

End Planner.

Section CreateOutputFiles.
Context (E : environment) (self : TranscriptionWorker.config) (l0 : list event)
  (disk0 : gmap string file_content).
Context (transcript_text : string) (segments : list segment)
  (summary_text translated_text translated_summary : option string)
  (translated_segments : option (list segment)).

Abbreviation status := (Some (TranscriptionWorker.update_status E)).

Lemma renders_txt (text path : string) :
  renders path (FileHandler.create_txt E text path status).
Proof.
  apply renders_create_txt;
    [apply update_status_keeps_disk | apply update_status_adds_status_only].
Qed.

Lemma renders_srt (segs : list segment) (path : string) :
  renders path (FileHandler.create_srt E segs path status).
Proof.
  apply renders_create_srt;
    [apply update_status_keeps_disk | apply update_status_adds_status_only].
Qed.

Lemma renders_pdf (segs : list segment) (path title : string)
  (full_text summary : option string) :
  renders path (FileHandler.create_pdf E segs path title full_text summary status).
Proof.
  apply renders_create_pdf;
    [apply update_status_keeps_disk | apply update_status_adds_status_only].
Qed.

(** [_create_output_files] attempts the files of the plan, in order. *)
Lemma create_output_files_plan :
  hoare (rendered self l0 disk0 [] [])
    (TranscriptionWorker._create_output_files E self transcript_text segments summary_text
       translated_text translated_summary translated_segments)
    (rendered self l0 disk0
       (PlanSpec.plan (TranscriptionWorker.output_formats self)
          (plan_data summary_text translated_text translated_summary translated_segments))).
Proof.
  unfold PlanSpec.plan, plan_data.
  cbn [PlanSpec.d_summary PlanSpec.d_translated_text PlanSpec.d_translated_summary
       PlanSpec.d_translated_segments].
  unfold TranscriptionWorker._create_output_files. cbv zeta.
  remember (TranscriptionWorker.has_format "txt" (TranscriptionWorker.output_formats self))
    as txt eqn:Htxt.
  remember (TranscriptionWorker.has_format "srt" (TranscriptionWorker.output_formats self))
    as srt eqn:Hsrt.
  remember (TranscriptionWorker.has_format "pdf" (TranscriptionWorker.output_formats self))
    as pdf eqn:Hpdf.
  clear Htxt Hsrt Hpdf.
  set (items_txt :=
         if txt then
           ((([(PlanSpec.Text, PlanSpec.Original)]
              ++ PlanSpec.optional (PyStr.truthy_opt summary_text)
                   (PlanSpec.Text, PlanSpec.Summary))
             ++ PlanSpec.optional (PyStr.truthy_opt translated_text)
                  (PlanSpec.Text, PlanSpec.Translated))
            ++ PlanSpec.optional (PyStr.truthy_opt translated_summary)
                 (PlanSpec.Text, PlanSpec.TranslatedSummary))%list
         else []).
  set (items_srt :=
         if srt then
           ([(PlanSpec.Subtitle, PlanSpec.Original)]
            ++ PlanSpec.optional (TranscriptionWorker.truthy_segments translated_segments)
                 (PlanSpec.Subtitle, PlanSpec.Translated))%list
         else []).
  set (items_pdf :=
         if pdf then
           ([(PlanSpec.Document, PlanSpec.Original)]
            ++ PlanSpec.optional (TranscriptionWorker.truthy_segments translated_segments)
                 (PlanSpec.Document, PlanSpec.Translated))%list
         else []).
  match goal with
  | |- hoare _ _ (rendered _ _ _ ?items) =>
      assert (items = (([] ++ items_txt) ++ items_srt) ++ items_pdf)%list as ->
  end.
  { unfold items_txt, items_srt, items_pdf.
    destruct txt, srt, pdf; cbn [app]; rewrite <- ?app_assoc, ?app_nil_r; reflexivity. }
  apply hoare_bind with (Q := rendered self l0 disk0 ([] ++ items_txt)%list).
  { unfold items_txt. destruct txt.
    - eapply hoare_bind;
        [apply (render_step self l0 disk0 [] [] (PlanSpec.Text, PlanSpec.Original));
         apply renders_txt|].
      intros c1. eapply hoare_bind;
        [apply (render_when_step self l0 disk0 _ c1 (PyStr.truthy_opt summary_text)
                  (PlanSpec.Text, PlanSpec.Summary)); apply renders_txt|].
      intros c2. eapply hoare_bind;
        [apply (render_when_step self l0 disk0 _ c2 (PyStr.truthy_opt translated_text)
                  (PlanSpec.Text, PlanSpec.Translated)); apply renders_txt|].
      intros c3.
      apply (render_when_step self l0 disk0 _ c3 (PyStr.truthy_opt translated_summary)
               (PlanSpec.Text, PlanSpec.TranslatedSummary)). apply renders_txt.
    - apply hoare_ret. auto. }
  intros c4.
  apply hoare_bind with (Q := rendered self l0 disk0 (([] ++ items_txt) ++ items_srt)%list).
  { unfold items_srt. destruct srt.
    - rewrite app_assoc. eapply hoare_bind;
        [apply (render_step self l0 disk0 _ c4 (PlanSpec.Subtitle, PlanSpec.Original));
         apply renders_srt|].
      intros c5.
      apply (render_when_step self l0 disk0 _ c5
               (TranscriptionWorker.truthy_segments translated_segments)
               (PlanSpec.Subtitle, PlanSpec.Translated)). apply renders_srt.
    - rewrite app_nil_r. apply hoare_ret. auto. }
  intros c6. unfold items_pdf. destruct pdf.
  - rewrite app_assoc. eapply hoare_bind;
      [apply (render_step self l0 disk0 _ c6 (PlanSpec.Document, PlanSpec.Original));
       apply renders_pdf|].
    intros c7.
    apply (render_when_step self l0 disk0 _ c7
             (TranscriptionWorker.truthy_segments translated_segments)
             (PlanSpec.Document, PlanSpec.Translated)). apply renders_pdf.
  - rewrite app_nil_r. apply hoare_ret. auto.
Qed.

End CreateOutputFiles.

(** Output generation from any world: the invariant holds of the whole plan,
    for the log and the disk [_create_output_files] starts from. *)
Lemma output_files_run (E : environment) (self : TranscriptionWorker.config)
  (transcript_text : string) (segments : list segment)
  (summary_text translated_text translated_summary : option string)
  (translated_segments : option (list segment)) (w : world) :
  let r := TranscriptionWorker._create_output_files E self transcript_text segments
             summary_text translated_text translated_summary translated_segments w in
  rendered self (w_log w) (w_disk w)
    (PlanSpec.plan (TranscriptionWorker.output_formats self)
       (plan_data summary_text translated_text translated_summary translated_segments))
    (fst r) (snd r).
Proof.
  cbv zeta. apply create_output_files_plan.
  exists []. rewrite app_nil_r. repeat split; try reflexivity; try constructor.
  intros p [].
Qed.

(** ** Paths *)

Lemma no_slash_app (a b : string) : no_slash (a +:+ b) = no_slash a && no_slash b.
Proof.
  induction a as [|c a IH]; [now rewrite append_nil|].
  rewrite append_cons. cbn. rewrite IH. now rewrite andb_assoc.
Qed.

Lemma split_on_no_slash (s : string) :
  no_slash s = true -> PyStr.split_on PyPath.slash s = [s].
Proof.
  induction s as [|c s IH]; [reflexivity|]. cbn. intros H.
  apply andb_true_iff in H as [Hc Hs]. apply negb_true_iff in Hc.
  rewrite Hc, (IH Hs). reflexivity.
Qed.

Lemma split_on_parts (s : string) :
  Forall (fun c => no_slash c = true) (PyStr.split_on PyPath.slash s).
Proof.
  induction s as [|c s IH]; [repeat constructor|]. cbn.
  destruct (Ascii.eqb c PyPath.slash) eqn:Hc.
  - constructor; [reflexivity | exact IH].
  - destruct (PyStr.split_on PyPath.slash s) as [|h t].
    + repeat constructor. cbn. now rewrite Hc.
    + inversion IH; subst. constructor; [|assumption]. cbn. now rewrite Hc.
Qed.

Lemma no_slash_substring (s : string) :
  no_slash s = true -> forall i n, no_slash (String.substring i n s) = true.
Proof.
  induction s as [|c s IH]; intros H i n.
  - destruct i, n; reflexivity.
  - cbn in H. apply andb_true_iff in H as [Hc Hs].
    destruct i as [|i]; cbn.
    + destruct n as [|n]; [reflexivity|]. cbn. now rewrite Hc, IH.
    + now apply IH.
Qed.

Lemma split_root_no_slash (s : string) : no_slash s = true -> PyPath.split_root s = "".
Proof.
  destruct s as [|a s]; [reflexivity|]. cbn [no_slash]. intros H.
  apply andb_true_iff in H as [Ha _]. apply negb_true_iff in Ha.
  unfold PyPath.split_root. destruct s as [|b [|c s]]; now rewrite Ha.
Qed.

(** A name with no slash, other than the empty string and the dot, is a
    path of one part. *)
Lemma parse_component (s : string) :
  no_slash s = true -> s <> "" -> s <> "." ->
  PyPath.parse s = {| PyPath.p_root := ""; PyPath.p_parts := [s] |}.
Proof.
  intros Hs He Hd. unfold PyPath.parse.
  rewrite (split_root_no_slash s Hs), (split_on_no_slash s Hs). cbn [List.filter].
  unfold PyPath.keep_part.
  destruct (String.eqb_spec s ""); [contradiction|].
  destruct (String.eqb_spec s "."); [contradiction|]. reflexivity.
Qed.

Lemma name_no_slash (input_file : string) :
  no_slash (PyPath.name (PyPath.parse input_file)) = true.
Proof.
  unfold PyPath.name, PyPath.parse. cbn [PyPath.p_parts].
  assert (Forall (fun c => no_slash c = true)
            (List.filter PyPath.keep_part (PyStr.split_on PyPath.slash input_file))) as H.
  { apply List.Forall_forall. intros c Hc. apply filter_In in Hc as [Hc _].
    pose proof (split_on_parts input_file) as Hp. rewrite List.Forall_forall in Hp.
    now apply Hp. }
  induction H as [|c l Hc Hl IH]; [reflexivity|].
  destruct l as [|d l]; [exact Hc | exact IH].
Qed.

Lemma stem_no_slash (input_file : string) :
  no_slash (PyPath.stem (PyPath.parse input_file)) = true.
Proof.
  unfold PyPath.stem. pose proof (name_no_slash input_file) as H.
  destruct (PyStr.rfind "." (PyPath.name (PyPath.parse input_file))) as [i|]; [|exact H].
  destruct (_ && _); [|exact H]. now apply no_slash_substring.
Qed.

Lemma append_inj_l (a x y : string) : a +:+ x = a +:+ y -> x = y.
Proof.
  induction a as [|c a IH]; [now rewrite !append_nil|].
  rewrite !append_cons. intros [= H]. auto.
Qed.

Lemma append_inj_r (a b x y : string) :
  String.length x = String.length y -> a +:+ x = b +:+ y -> a = b /\ x = y.
Proof.
  revert b. induction a as [|c a IH]; intros b Hlen H.
  - destruct b as [|d b]; [rewrite !append_nil in H; auto|].
    rewrite append_nil in H. subst x. rewrite append_length in Hlen. cbn in Hlen. lia.
  - destruct b as [|d b].
    + rewrite append_nil in H. subst y. rewrite append_length in Hlen. cbn in Hlen. lia.
    + rewrite !append_cons in H. injection H as -> H.
      destruct (IH b Hlen H) as [-> ->]. auto.
Qed.

Lemma append_self (s l : string) : l = s +:+ l -> s = "".
Proof.
  intros H. apply (f_equal String.length) in H. rewrite append_length in H.
  destruct s; [reflexivity | cbn in H; lia].
Qed.

Lemma concat_slash_snoc (dirs : list string) (f : string) :
  String.concat "/" (dirs ++ [f])%list
  = (match dirs with [] => "" | _ => String.concat "/" dirs +:+ "/" end) +:+ f.
Proof.
  induction dirs as [|d dirs IH]; [now rewrite append_nil|].
  destruct dirs as [|e dirs]; [cbn; now rewrite append_assoc|].
  change (String.concat "/" ((d :: e :: dirs) ++ [f])%list)
    with (d +:+ "/" +:+ String.concat "/" ((e :: dirs) ++ [f])%list).
  rewrite IH.
  change (String.concat "/" (d :: e :: dirs)) with (d +:+ "/" +:+ String.concat "/" (e :: dirs)).
  now rewrite !append_assoc.
Qed.

(** The output path: the root and the parts of the directory of the input
    file, then the file name made of the base name, the suffix, a dot and the
    extension. *)
Lemma get_output_path_parts (input_file suffix extension : string) :
  no_slash suffix = true -> no_slash extension = true -> extension <> "" ->
  let input_path := PyPath.parse input_file in
  FileHandler.get_output_path input_file suffix extension
  = PyPath.p_root input_path
    +:+ String.concat "/"
          (removelast (PyPath.p_parts input_path)
           ++ [PyPath.stem input_path +:+ suffix +:+ "." +:+ extension])%list.
Proof.
  intros Hs He Hne input_path. unfold FileHandler.get_output_path. cbv zeta. fold input_path.
  set (fname := PyPath.stem input_path +:+ suffix +:+ "." +:+ extension).
  assert (no_slash fname = true) as Hf.
  { unfold fname. rewrite !no_slash_app, Hs, He. unfold input_path.
    now rewrite stem_no_slash. }
  assert (2 <= String.length fname)%nat as Hlen.
  { unfold fname. rewrite !append_length. destruct extension; [contradiction|]. cbn. lia. }
  assert (PyPath.parse fname = {| PyPath.p_root := ""; PyPath.p_parts := [fname] |}) as Hp.
  { apply parse_component; [exact Hf| |]; intros H; rewrite H in Hlen; cbn in Hlen; lia. }
  unfold PyPath.join. rewrite Hp. cbn [PyPath.p_root PyPath.p_parts String.eqb PyPath.parent].
  unfold PyPath.to_str. cbn [PyPath.p_root PyPath.p_parts].
  destruct (PyPath.p_root input_path); [|reflexivity].
  destruct (removelast (PyPath.p_parts input_path)); reflexivity.
Qed.

(** Finds the clash in an equation between two of the suffixes. *)
Ltac string_clash H :=
  first
    [ discriminate H
    | exfalso; apply (f_equal String.length) in H;
      rewrite ?append_length in H; cbn [String.length] in H; lia
    | rewrite ?append_cons, ?append_nil in H;
      first
        [ discriminate H
        | let H' := fresh "H" in injection H as H'; string_clash H' ]
    | idtac ].

(** Two of the eight combinations with the same file name are the same. *)
Lemma plan_names_differ (lang : string) :
  lang <> "summary" ->
  forall it1 it2,
    In it1 PlanSpec.all_combinations -> In it2 PlanSpec.all_combinations ->
    PlanSpec.suffix lang (fst it1) (snd it1) +:+ "." +:+ PlanSpec.extension (fst it1)
    = PlanSpec.suffix lang (fst it2) (snd it2) +:+ "." +:+ PlanSpec.extension (fst it2) ->
    it1 = it2.
Proof.
  intros Hne it1 it2 H1 H2 Heq. cbn [PlanSpec.all_combinations In] in H1, H2.
  repeat (destruct H1 as [<-|H1]); try contradiction;
    repeat (destruct H2 as [<-|H2]); try contradiction; try reflexivity; exfalso;
    cbn [fst snd PlanSpec.suffix PlanSpec.extension] in Heq;
    apply append_inj_r in Heq as [Hs Hx]; try reflexivity;
    try (apply append_inj_l in Hx; discriminate Hx);
    string_clash Hs; try (apply Hne; congruence).
Qed.

Lemma suffix_no_slash (lang : string) (f : PlanSpec.format) (v : PlanSpec.variant) :
  no_slash lang = true -> no_slash (PlanSpec.suffix lang f v) = true.
Proof. intros H. destruct f, v; cbn [PlanSpec.suffix]; rewrite ?no_slash_app, ?H; reflexivity. Qed.

(** The path of an item of the plan, through [get_output_path]. *)
Lemma plan_path_parts (self : TranscriptionWorker.config)
  (it : PlanSpec.format * PlanSpec.variant) :
  no_slash (TranscriptionWorker.target_language self) = true ->
  let input_path := PyPath.parse (TranscriptionWorker.file_path self) in
  plan_path self it
  = PyPath.p_root input_path
    +:+ String.concat "/"
          (removelast (PyPath.p_parts input_path)
           ++ [PyPath.stem input_path
               +:+ PlanSpec.suffix (TranscriptionWorker.target_language self) (fst it) (snd it)
               +:+ "." +:+ PlanSpec.extension (fst it)])%list.
Proof.
  intros H.
  apply (get_output_path_parts (TranscriptionWorker.file_path self)
           (PlanSpec.suffix (TranscriptionWorker.target_language self) (fst it) (snd it))
           (PlanSpec.extension (fst it))).
  - now apply suffix_no_slash.
  - destruct it as [[] v]; reflexivity.
  - destruct it as [[] v]; discriminate.
Qed.

(** Two items of the plan with the same path are the same. *)
Lemma plan_path_inj (self : TranscriptionWorker.config)
  (it1 it2 : PlanSpec.format * PlanSpec.variant) :
  no_slash (TranscriptionWorker.target_language self) = true ->
  TranscriptionWorker.target_language self <> "summary" ->
  In it1 PlanSpec.all_combinations -> In it2 PlanSpec.all_combinations ->
  plan_path self it1 = plan_path self it2 -> it1 = it2.
Proof.
  intros Hs Hne H1 H2 Heq.
  rewrite !plan_path_parts in Heq by exact Hs. cbv zeta in Heq.
  apply append_inj_l in Heq. rewrite !concat_slash_snoc in Heq.
  apply append_inj_l in Heq. apply append_inj_l in Heq.
  now apply (plan_names_differ (TranscriptionWorker.target_language self)).
Qed.

Lemma sublist_In {A} (l1 l2 : list A) :
  sublist l1 l2 -> forall x, In x l1 -> In x l2.
Proof.
  induction 1 as [|y l1 l2 _ IH|y l1 l2 _ IH]; intros x Hx; [exact Hx| |].
  - destruct Hx as [->|Hx]; [now left | right; auto].
  - right. auto.
Qed.

(** The plan takes its items from the eight combinations, in their order. *)
Lemma plan_sublist (formats : list string) (d : PlanSpec.data) :
  sublist (PlanSpec.plan formats d) PlanSpec.all_combinations.
Proof.
  unfold PlanSpec.plan, PlanSpec.all_combinations.
  destruct (TranscriptionWorker.has_format "txt" formats),
    (TranscriptionWorker.has_format "srt" formats),
    (TranscriptionWorker.has_format "pdf" formats),
    (PyStr.truthy_opt (PlanSpec.d_summary d)),
    (PyStr.truthy_opt (PlanSpec.d_translated_text d)),
    (PyStr.truthy_opt (PlanSpec.d_translated_summary d)),
    (TranscriptionWorker.truthy_segments (PlanSpec.d_translated_segments d));
    cbn [PlanSpec.optional app];
    repeat first [apply sublist_nil | apply sublist_skip | apply sublist_cons].
Qed.

(** No two files of the plan have the same path. *)
Lemma planned_paths_nodup (self : TranscriptionWorker.config) (d : PlanSpec.data) :
  no_slash (TranscriptionWorker.target_language self) = true ->
  TranscriptionWorker.target_language self <> "summary" ->
  NoDup (map (plan_path self) (PlanSpec.plan (TranscriptionWorker.output_formats self) d)).
Proof.
  intros Hs Hne.
  assert (NoDup (PlanSpec.plan (TranscriptionWorker.output_formats self) d)) as Hnd.
  { eapply sublist_NoDup; [|apply plan_sublist].
    unfold PlanSpec.all_combinations.
    repeat (apply NoDup_cons; split;
            [rewrite ?elem_of_cons, elem_of_nil; intros H;
             repeat (destruct H as [H|H]; [discriminate H|]); exact H|]).
    apply NoDup_nil_2. }
  apply (NoDup_fmap_2_strong (plan_path self)); [|exact Hnd].
  intros x y Hx Hy. apply plan_path_inj; try assumption.
  - eapply sublist_In; [apply plan_sublist | apply list_elem_of_In, Hx].
  - eapply sublist_In; [apply plan_sublist | apply list_elem_of_In, Hy].
Qed.

(** ** Claim C1: cancellation between the transcription and the output *)

(** C1, as stated, fails for a job with summarization and translation
    disabled when the observer asks for cancellation while progress 70 is
    reported: the transcription has returned and stage 5 has not begun, the run
    ends with the cancellation completion, yet the three files are written,
    because [run] looks at the flag again only after the output files are
    made. *)
Lemma cancellation_before_output_still_writes :
  ~ cancellation_leaves_no_file (Demo.env (Some 13%nat)) (Demo.job false false) Demo.start.
Proof.
  unfold cancellation_leaves_no_file. cbv zeta. intros H.
  destruct H as [_ Hw].
  - eexists (before_request _), (after_request _).
    split; [apply split_request; vm_compute; reflexivity|]. split.
    + vm_compute. repeat (first [left; reflexivity | right]).
    + vm_compute. intros H. repeat (destruct H as [H|H]; [discriminate H|]). exact H.
  - vm_compute in Hw. discriminate Hw.
Qed.

(** C1 (amended): when the observer asks for cancellation after the
    transcription has returned its result and before stage 5 begins, the run
    ends with the cancellation completion (success flag false, the
    cancellation message as payload) and with no other completion.  No file is
    written, and the disk is as it was, when the request comes before the
    cancellation check of an enabled optional stage is made: the check after
    summarization when summarization is enabled, or the check after
    translation when translation is enabled. *)
Theorem cancellation_before_output (E : environment) (self : TranscriptionWorker.config)
  (ws : whisper_state) (disk : gmap string file_content) :
  let w := snd (TranscriptionWorker.run E self (TranscriptionWorker.initial_world ws disk)) in
  requested_between stage2_complete stage5_begins (w_log w) ->
  ends_with_completion false PCancelled (w_log w)
  /\ ((TranscriptionWorker.enable_summary self = true /\ requested_before_check 3 (w_log w))
      \/ (TranscriptionWorker.enable_translation self = true
          /\ requested_before_check 4 (w_log w)) ->
      writes_nothing (w_log w) /\ w_disk w = disk).
Proof.
  intros w (pre & post & Heq & Hin & Hnot).
  pose proof (run_trace E self ws disk) as Ht. fold w in Ht. split.
  - exact (model_load_cancelled self _ pre post Ht Heq Hin Hnot).
  - intros Hcase.
    assert (writes_nothing (w_log w)) as Hw.
    { destruct Hcase as [[Hs (pre' & post' & Heq' & Hn')] | [Hs (pre' & post' & Heq' & Hn')]].
      - apply (model_load_no_write self _ pre' post' Ht Heq'). left. now split.
      - apply (model_load_no_write self _ pre' post' Ht Heq'). right. now split. }
    split; [exact Hw|]. now apply run_keeps_disk.
Qed.

Lemma cancellation_before_output_witness :
  let w := snd (TranscriptionWorker.run (Demo.env (Some 14%nat)) (Demo.job true false)
                  (TranscriptionWorker.initial_world Demo.whisper0 ∅)) in
  requested_between stage2_complete stage5_begins (w_log w)
  /\ ends_with_completion false PCancelled (w_log w)
  /\ writes_nothing (w_log w) /\ w_disk w = ∅.
Proof.
  cbv zeta.
  pose proof (cancellation_before_output (Demo.env (Some 14%nat)) (Demo.job true false)
                Demo.whisper0 ∅) as H.
  cbv zeta in H.
  match type of H with
  | requested_between _ _ ?L -> _ =>
      assert (L = (before_request L ++ ECancelRequested :: after_request L)%list) as Hsplit
        by (apply split_request; vm_compute; reflexivity);
      assert (requested_between stage2_complete stage5_begins L) as Hreq;
      [ exists (before_request L), (after_request L);
        split; [exact Hsplit|]; split;
        [ vm_compute; repeat (first [left; reflexivity | right])
        | vm_compute; intros Hin; repeat (destruct Hin as [Hin|Hin]; [discriminate Hin|]);
          exact Hin ]
      | split; [exact Hreq|];
        destruct (H Hreq) as [Hend Hfiles];
        split; [exact Hend|];
        apply Hfiles; left; split; [reflexivity|];
        exists (before_request L), (after_request L);
        split; [exact Hsplit|];
        vm_compute; intros Hin; repeat (destruct Hin as [Hin|Hin]; [discriminate Hin|]);
        exact Hin ]
  end.
Defined.

(** ** Claims C2 and C8: the progress notifications *)

(** C2: with summarization and translation both disabled, a run that
    nobody cancels and that completes with success reports the progress values
    0, 10, 60, 70, 85, 100, in this order and no other: the milestones of the
    skipped stages 3 and 4 are reported as well. *)
Theorem progress_of_plain_run (E : environment) (self : TranscriptionWorker.config)
  (ws : whisper_state) (disk : gmap string file_content) :
  let l := w_log (snd (TranscriptionWorker.run E self
                         (TranscriptionWorker.initial_world ws disk))) in
  TranscriptionWorker.enable_summary self = false ->
  TranscriptionWorker.enable_translation self = false ->
  requested l = false ->
  existsb is_success l = true ->
  progress_values l = [0; 10; 60; 70; 85; 100].
Proof.
  intros l Hs Ht Hreq Hok.
  exact (model_load_calm self [] l Hs Ht (run_trace E self ws disk) Hreq Hok).
Qed.

Lemma progress_of_plain_run_witness :
  progress_values
    (w_log (snd (TranscriptionWorker.run (Demo.env None) (Demo.job false false) Demo.start)))
  = [0; 10; 60; 70; 85; 100].
Proof.
  apply (progress_of_plain_run (Demo.env None) (Demo.job false false) Demo.whisper0 ∅).
  - reflexivity.
  - reflexivity.
  - vm_compute. reflexivity.
  - vm_compute. reflexivity.
Defined.

(** C8: whatever the value passed to [update_progress], below 0 and above
    100 included, what the call adds to the log holds no progress value
    outside 0..100 (it is the value clamped, when the notification is sent);
    and every progress notification of a run carries a value from 0 to
    100. *)
Theorem progress_stays_in_range (E : environment) :
  (forall (value : Z) (w : world),
     exists d,
       w_log (snd (BaseWorker.update_progress E value w)) = (w_log w ++ d)%list
       /\ (progress_values d = [] \/ progress_values d = [Z.max 0 (Z.min 100 value)])
       /\ Forall (fun p => 0 <= p <= 100) (progress_values d))
  /\ (forall (self : TranscriptionWorker.config) (ws : whisper_state)
        (disk : gmap string file_content),
        Forall (fun p => 0 <= p <= 100)
          (progress_values
             (w_log (snd (TranscriptionWorker.run E self
                            (TranscriptionWorker.initial_world ws disk)))))).
Proof.
  split.
  - intros value w.
    destruct (notify_log E (EProgress (Z.max 0 (Z.min 100 value))) w) as (y & Hy & Hlog).
    exists (y ++ (if flag w || requested y then []
                  else [EProgress (Z.max 0 (Z.min 100 value))]))%list.
    split; [exact Hlog|].
    rewrite progress_values_app.
    rewrite (progress_values_class is_cancel_request y); [|class_incl|exact Hy].
    destruct (flag w || requested y); cbn.
    + split; [now left | constructor].
    + split; [now right|]. constructor; [lia | constructor].
  - intros self ws disk. apply progress_in_range_values.
    exact (model_load_in_range self [] _ (run_trace E self ws disk)).
Qed.

(** ** Claims C3 and C10: the translator *)

(** C3: for every non-empty segment sequence, [translate_segments] returns a
    sequence of the same length, in the same order; every segment keeps its
    start and end times; its text is the translated text when the translation
    of its (trimmed) text succeeds, that is yields a text that is not empty,
    and the original text when it fails.  What a segment ends with depends on
    its own request only.  The batch size is any number but zero (the worker
    leaves the default, 10). *)
Theorem translate_segments_keeps_order_and_timing (E : environment)
  (segments : list segment) (target_lang source_lang : string)
  (cb : option (status_msg -> M unit)) (batch_size : Z) (w : world) :
  segments <> [] ->
  batch_size <> 0 ->
  makes_no_request cb ->
  exists out,
    fst (Translator.translate_segments E segments target_lang source_lang cb batch_size w)
    = Some out
    /\ List.length out = List.length segments
    /\ forall k seg, segments !! k = Some seg ->
         exists seg', out !! k = Some seg'
           /\ seg_start seg' = seg_start seg
           /\ seg_end seg' = seg_end seg
           /\ seg_text seg'
              = TranslateSpec.final_text seg
                  (TranslateSpec.attempt E target_lang source_lang
                     (Translator.requests (w_log w)
                      + TranslateSpec.requests_for (take k segments)) seg).
Proof.
  intros Hne Hb Hcb. unfold Translator.translate_segments.
  destruct segments as [|seg rest]; [contradiction|].
  rewrite run_bind.
  destruct (translate_loop_spec E target_lang source_lang cb batch_size
              (Z.of_nat (List.length (seg :: rest))) Hb Hcb (seg :: rest) 0 [] w)
    as (out & Hout & Hlen & _ & Hall).
  rewrite Hout. rewrite run_bind. cbn [ret fst snd app].
  exists out. auto.
Qed.

Lemma translate_segments_keeps_order_and_timing_witness :
  exists out,
    fst (Translator.translate_segments (Demo.env None) example_segments "ko" "auto" None 10
           Demo.start) = Some out
    /\ List.length out = List.length example_segments
    /\ forall k seg, example_segments !! k = Some seg ->
         exists seg', out !! k = Some seg'
           /\ seg_start seg' = seg_start seg
           /\ seg_end seg' = seg_end seg
           /\ seg_text seg'
              = TranslateSpec.final_text seg
                  (TranslateSpec.attempt (Demo.env None) "ko" "auto"
                     (Translator.requests (w_log Demo.start)
                      + TranslateSpec.requests_for (take k example_segments)) seg).
Proof.
  apply (translate_segments_keeps_order_and_timing (Demo.env None) example_segments
           "ko" "auto" None 10 Demo.start).
  - discriminate.
  - lia.
  - intros m w. reflexivity.
Defined.

(** C10: [translate_text] of a text that is empty or all white space
    returns [None] and leaves the world as it is: no request reaches the
    translation service, no callback is called.  [translate_segments] of the
    empty sequence returns [None], not an empty sequence. *)
Theorem translation_of_nothing_is_null (E : environment) (text target_lang source_lang : string)
  (cb : option (status_msg -> M unit)) (batch_size : Z) (w : world) :
  PyStr.all_space text = true ->
  Translator.translate_text E text target_lang source_lang cb w = (None, w)
  /\ Translator.translate_segments E [] target_lang source_lang cb batch_size w = (None, w).
Proof.
  intros Hs. split; [|reflexivity].
  unfold Translator.translate_text. rewrite blank_guard, Hs. reflexivity.
Qed.

Lemma translation_of_nothing_is_null_witness :
  Translator.translate_text (Demo.env None) "  " "ko" "auto"
    (Some (BaseWorker.update_status (Demo.env None))) Demo.start = (None, Demo.start)
  /\ Translator.translate_segments (Demo.env None) [] "ko" "auto"
       (Some (BaseWorker.update_status (Demo.env None))) 10 Demo.start = (None, Demo.start).
Proof.
  apply (translation_of_nothing_is_null (Demo.env None) "  " "ko" "auto"
           (Some (BaseWorker.update_status (Demo.env None))) 10 Demo.start).
  reflexivity.
Defined.

(** ** Claim C4: the subtitle file *)

(** C4 at the example of the specification: for the segments
    [{0.0, 2.5, "a"}; {2.5, 5.999, "b"}] [create_srt] returns True and the
    file holds the two cue blocks, but the second cue ends at
    [00:00:05,998] where the claim says [00:00:05,999].  [format_time]
    computes [int((secs - int(secs)) * 1000)] in binary64: the number nearest
    to 5.999 lies below it, so does the product, below 999, and [int] cuts it
    to 998. *)
Theorem create_srt_example_loses_a_millisecond :
  let r := FileHandler.create_srt (Demo.env None) example_segments "/media/talk.srt" None
             Demo.start in
  FileHandler.format_time (seg_end seg_b) = Some "00:00:05,998"
  /\ fst r = true
  /\ w_disk (snd r) !! "/media/talk.srt" = Some (TextFile example_srt)
  /\ example_srt <> example_srt_of_spec.
Proof.
  cbv zeta. split; [vm_compute; reflexivity|].
  split; [vm_compute; reflexivity|].
  split; [vm_compute; reflexivity|].
  vm_compute. intros H. discriminate H.
Qed.

(** ** Claim C5: a required collaborator fails *)

(** C5: when the collaborator of a required stage (the model, the
    transcription) returns its failure value, the log of the run ends with
    this return, the error notification of the stage and the failure
    completion; no other error or completion is signalled; and the log holds
    no work of a later stage: no mark, no check, no collaborator or library
    call of a later stage, no file written. *)
Theorem required_failure_stops_the_run (E : environment) (self : TranscriptionWorker.config)
  (ws : whisper_state) (disk : gmap string file_content) (c : collaborator) :
  let l := w_log (snd (TranscriptionWorker.run E self
                         (TranscriptionWorker.initial_world ws disk))) in
  is_required c = true ->
  In (EReturn c false) l ->
  exists l0,
    l = (l0 ++ [EReturn c false; EError (error_of c); EFinished false PNone])%list
    /\ forallb (fun e => negb (is_verdict e)) l0 = true
    /\ forallb (fun e => negb (work_after (stage_of_collaborator c) e)) l = true.
Proof.
  intros l Hc Hin.
  exact (model_load_failure self l c (run_trace E self ws disk) Hc Hin).
Qed.

Lemma required_failure_stops_the_run_witness :
  let l := w_log (snd (TranscriptionWorker.run Demo.env_no_model (Demo.job true true)
                         Demo.start)) in
  exists l0,
    l = (l0 ++ [EReturn CLoadModel false; EError ErrModelLoad; EFinished false PNone])%list
    /\ forallb (fun e => negb (is_verdict e)) l0 = true
    /\ forallb (fun e => negb (work_after 1 e)) l = true.
Proof.
  apply (required_failure_stops_the_run Demo.env_no_model (Demo.job true true)
           Demo.whisper0 ∅ CLoadModel).
  - reflexivity.
  - vm_compute. repeat (first [left; reflexivity | right]).
Defined.

(** ** Claim C9: a cancelled worker is silent *)

(** C9: once the worker is cancelled (one of its two flags is set), the
    calls of [update_progress] and of [update_status] emit nothing, however
    many are made and whatever their arguments: the log gains no progress and
    no status notification (only the requests of the observer, should it ask
    again).  [emit_error] and [emit_finished] deliver their signal all the
    same. *)
Theorem cancelled_worker_is_silent (E : environment) (w : world) :
  flag w = true ->
  (forall calls : list notification,
     exists y, Trace.request_only y
       /\ w_log (snd (notify_all E calls w)) = (w_log w ++ y)%list)
  /\ (forall message : error_msg,
        w_log (snd (BaseWorker.emit_error message w)) = (w_log w ++ [EError message])%list)
  /\ (forall (success : bool) (result : payload),
        w_log (snd (BaseWorker.emit_finished success result w))
        = (w_log w ++ [EFinished success result])%list).
Proof.
  intros Hw. split; [|split].
  - intros calls. now apply notify_all_cancelled.
  - reflexivity.
  - reflexivity.
Qed.

Lemma cancelled_worker_is_silent_witness :
  exists y, Trace.request_only y
    /\ w_log (snd (notify_all (Demo.env None) [NProgress 60; NStatus SAllDone; NProgress 100]
                     Demo.cancelled_world))
       = (w_log Demo.cancelled_world ++ y)%list.
Proof.
  destruct (cancelled_worker_is_silent (Demo.env None) Demo.cancelled_world) as [H _].
  - reflexivity.
  - apply H.
Defined.

(** ** The runs of the transcription worker *)

(** Every run of a fresh worker signals its completion once, as the last
    thing it does: the log ends with the cancellation completion, or with an
    error notification followed by the failure completion, or with the success
    completion carrying the result; no error and no completion is signalled
    before. *)
Theorem run_ends_once (E : environment) (self : TranscriptionWorker.config)
  (ws : whisper_state) (disk : gmap string file_content) :
  ends_once
    (w_log (snd (TranscriptionWorker.run E self (TranscriptionWorker.initial_world ws disk)))).
Proof. exact (model_load_ends self [] _ (run_trace E self ws disk)). Qed.

(** The progress values a run reports are the first milestones of
    0, 10, 60, 70, 85, 100, in this order: the percentage never decreases, no
    value is reported twice and none is skipped before the last one
    reported. *)
Theorem run_reports_milestones (E : environment) (self : TranscriptionWorker.config)
  (ws : whisper_state) (disk : gmap string file_content) :
  exists k,
    progress_values
      (w_log (snd (TranscriptionWorker.run E self (TranscriptionWorker.initial_world ws disk))))
    = firstn k milestones.
Proof. exact (proj1 (model_load_reports self [] _ (run_trace E self ws disk))). Qed.

(** A stage the job does not ask for (summarization is stage 3,
    translation stage 4) does no work: the log of the run holds no call of its
    collaborators, no return of them and no call of its libraries. *)
Theorem skipped_stage_calls_nothing (E : environment) (self : TranscriptionWorker.config)
  (ws : whisper_state) (disk : gmap string file_content) (n : nat) :
  stage_enabled self n = false ->
  forallb (fun e => negb (is_stage_call n e))
    (w_log (snd (TranscriptionWorker.run E self (TranscriptionWorker.initial_world ws disk))))
  = true.
Proof.
  intros Hn. exact (model_load_skips self n Hn [] _ (run_trace E self ws disk)).
Qed.

Lemma skipped_stage_calls_nothing_witness :
  forallb (fun e => negb (is_stage_call 4 e))
    (w_log (snd (TranscriptionWorker.run (Demo.env None) (Demo.job true false)
                   (TranscriptionWorker.initial_world Demo.whisper0 ∅))))
  = true.
Proof.
  apply (skipped_stage_calls_nothing (Demo.env None) (Demo.job true false) Demo.whisper0 ∅ 4).
  reflexivity.
Defined.

(** ** The whisper processor (core/core_whisper.py) *)

(** [load_model] keeps the processor coherent (the current model is the
    model the cache holds for the current size) and never takes a model out of
    the cache.  When it returns true the requested size is current and its
    model is in the cache; when it returns false the processor is as it
    was. *)
Theorem load_model_keeps_cache_coherent (E : environment) (size : string)
  (cb : option (status_msg -> M unit)) (w : world) :
  keeps_whisper cb ->
  coherent (w_whisper w) ->
  let r := WhisperProcessor.load_model E size cb w in
  coherent (w_whisper (snd r))
  /\ _models (w_whisper w) ⊆ _models (w_whisper (snd r))
  /\ (if fst r
      then current_model_size (w_whisper (snd r)) = Some size
           /\ exists m, current_model (w_whisper (snd r)) = Some m
                /\ _models (w_whisper (snd r)) !! size = Some m
      else w_whisper (snd r) = w_whisper w).
Proof.
  intros Hcb Hco r. pose proof (load_model_state E size cb w Hcb) as H.
  cbv zeta in H. fold r in H.
  destruct (bool_decide (current_model_size (w_whisper w) = Some size)
            && bool_decide (is_Some (current_model (w_whisper w)))) eqn:Hcur.
  - destruct H as [-> ->]. split; [exact Hco|]. split; [reflexivity|].
    apply andb_true_iff in Hcur as [Hs Hm].
    apply bool_decide_eq_true in Hs. apply bool_decide_eq_true in Hm.
    split; [exact Hs|]. destruct Hm as [m Hm]. exists m. split; [exact Hm|].
    destruct (Hco m Hm) as (size0 & Hs0 & Hc0). congruence.
  - destruct (_models (w_whisper w) !! size) as [m|] eqn:Hc.
    + destruct H as [-> ->]. cbn. split; [|split; [reflexivity|]].
      * intros m' [= <-]. exists size. now split.
      * split; [reflexivity|]. now exists m.
    + destruct (whisper_load_model E size) as [m|].
      * destruct H as [-> ->]. cbn. split; [|split].
        -- intros m' [= <-]. exists size. split; [reflexivity|]. apply lookup_insert_eq.
        -- now apply insert_subseteq.
        -- split; [reflexivity|]. exists m. split; [reflexivity|]. apply lookup_insert_eq.
      * destruct H as [-> ->]. split; [exact Hco|]. split; reflexivity.
Qed.

Lemma load_model_keeps_cache_coherent_witness :
  let r := WhisperProcessor.load_model (Demo.env None) "base"
             (Some (BaseWorker.update_status (Demo.env None))) Demo.start in
  coherent (w_whisper (snd r))
  /\ _models (w_whisper Demo.start) ⊆ _models (w_whisper (snd r))
  /\ (if fst r
      then current_model_size (w_whisper (snd r)) = Some "base"
           /\ exists m, current_model (w_whisper (snd r)) = Some m
                /\ _models (w_whisper (snd r)) !! "base" = Some m
      else w_whisper (snd r) = w_whisper Demo.start).
Proof.
  apply (load_model_keeps_cache_coherent (Demo.env None) "base"
           (Some (BaseWorker.update_status (Demo.env None))) Demo.start).
  - apply update_status_keeps_whisper.
  - intros m H. discriminate H.
Defined.

(** Once the cache holds a model for a size, [load_model] of that size does
    not ask whisper again: it returns true, the cached model is current
    afterwards, the cache is as it was, and the log gets status texts only. *)
Theorem cached_model_is_not_loaded_again (E : environment) (size : string)
  (cb : option (status_msg -> M unit)) (w : world) (m : whisper_model) :
  keeps_whisper cb ->
  adds_status_only cb ->
  coherent (w_whisper w) ->
  _models (w_whisper w) !! size = Some m ->
  let r := WhisperProcessor.load_model E size cb w in
  fst r = true
  /\ current_model (w_whisper (snd r)) = Some m
  /\ _models (w_whisper (snd r)) = _models (w_whisper w)
  /\ exists d, w_log (snd r) = (w_log w ++ d)%list /\ forallb is_status_or_request d = true.
Proof.
  intros Hcb Hlog Hco Hc r. pose proof (load_model_state E size cb w Hcb) as H.
  cbv zeta in H. fold r in H.
  assert (exists d, w_log (snd r) = (w_log w ++ d)%list
                    /\ forallb is_status_or_request d = true) as Hd.
  { apply load_model_cached_log; [exact Hlog|]. left. now exists m. }
  destruct (bool_decide (current_model_size (w_whisper w) = Some size)
            && bool_decide (is_Some (current_model (w_whisper w)))) eqn:Hcur.
  - destruct H as [Hr Hs]. rewrite Hr, Hs. split; [reflexivity|].
    apply andb_true_iff in Hcur as [Hsz Hm].
    apply bool_decide_eq_true in Hsz. apply bool_decide_eq_true in Hm.
    destruct Hm as [m' Hm]. destruct (Hco m' Hm) as (size0 & Hs0 & Hc0).
    split; [congruence|]. split; [reflexivity | exact Hd].
  - rewrite Hc in H. destruct H as [Hr Hs]. rewrite Hr, Hs. cbn.
    split; [reflexivity|]. split; [reflexivity|]. split; [reflexivity | exact Hd].
Qed.

Lemma cached_model_is_not_loaded_again_witness :
  let w := set_whisper {| current_model := None; current_model_size := None;
                          _models := {["base" := 7%N]} |} Demo.start in
  let r := WhisperProcessor.load_model Demo.env_no_model "base" None w in
  fst r = true
  /\ current_model (w_whisper (snd r)) = Some 7%N
  /\ _models (w_whisper (snd r)) = _models (w_whisper w)
  /\ exists d, w_log (snd r) = (w_log w ++ d)%list /\ forallb is_status_or_request d = true.
Proof.
  apply (cached_model_is_not_loaded_again Demo.env_no_model "base" None
           (set_whisper {| current_model := None; current_model_size := None;
                           _models := {["base" := 7%N]} |} Demo.start) 7%N).
  - apply no_callback_keeps_whisper.
  - apply no_callback_adds_status_only.
  - intros m H. discriminate H.
  - reflexivity.
Defined.

(** [load_model] returns false in one case only: the cache holds no model
    for the size and whisper fails to load one. *)
Theorem load_model_fails_only_when_whisper_fails (E : environment) (size : string)
  (cb : option (status_msg -> M unit)) (w : world) :
  keeps_whisper cb ->
  coherent (w_whisper w) ->
  fst (WhisperProcessor.load_model E size cb w) = false
  <-> (_models (w_whisper w) !! size = None /\ whisper_load_model E size = None).
Proof.
  intros Hcb Hco. pose proof (load_model_state E size cb w Hcb) as H. cbv zeta in H.
  destruct (bool_decide (current_model_size (w_whisper w) = Some size)
            && bool_decide (is_Some (current_model (w_whisper w)))) eqn:Hcur.
  - destruct H as [Hr _]. rewrite Hr. split; [discriminate|]. intros [Hmiss _].
    apply andb_true_iff in Hcur as [Hsz Hm].
    apply bool_decide_eq_true in Hsz. apply bool_decide_eq_true in Hm.
    destruct Hm as [m Hm]. destruct (Hco m Hm) as (size0 & Hs0 & Hc0). congruence.
  - destruct (_models (w_whisper w) !! size) as [m|] eqn:Hc.
    + destruct H as [Hr _]. rewrite Hr. split; [discriminate | intros [? _]; discriminate].
    + destruct (whisper_load_model E size) as [m|].
      * destruct H as [Hr _]. rewrite Hr. split; [discriminate | intros [_ ?]; discriminate].
      * destruct H as [Hr _]. rewrite Hr. split; auto.
Qed.

Lemma load_model_fails_only_when_whisper_fails_witness :
  fst (WhisperProcessor.load_model Demo.env_no_model "base" None Demo.start) = false
  <-> (_models (w_whisper Demo.start) !! "base" = None
       /\ whisper_load_model Demo.env_no_model "base" = None).
Proof.
  apply (load_model_fails_only_when_whisper_fails Demo.env_no_model "base" None Demo.start).
  - apply no_callback_keeps_whisper.
  - intros m H. discriminate H.
Defined.

(** [get_instance] runs [__init__] on the one instance again: the cache is
    kept but the current model is forgotten, so that [transcribe] called next,
    before any [load_model], returns None and does nothing: no callback, no
    call of whisper.  The same holds after [clear_cache], which empties the
    cache as well. *)
Theorem transcribe_needs_load_model (E : environment) (file_path : string)
  (language : option string) (cb : option (status_msg -> M unit)) (w : world) :
  let w1 := snd (WhisperProcessor.get_instance w) in
  let w2 := snd (WhisperProcessor.clear_cache w) in
  _models (w_whisper w1) = _models (w_whisper w)
  /\ WhisperProcessor.transcribe E file_path language cb w1 = (None, w1)
  /\ _models (w_whisper w2) = ∅
  /\ WhisperProcessor.transcribe E file_path language cb w2 = (None, w2).
Proof.
  cbv zeta. repeat split.
Qed.

(** ** The summarizer (core/core_summarizer.py) *)

(** [summarize] of a blank text (empty, or white space only) returns None
    and does nothing else: no callback, no call of the tokenizer or of the LSA
    summarizer. *)
Theorem summarize_of_blank_is_null (E : environment) (text : string) (ratio : float)
  (cb : option (status_msg -> M unit)) (w : world) :
  PyStr.all_space text = true ->
  TextSummarizer.summarize E text ratio cb w = (None, w).
Proof.
  intros Hb. unfold TextSummarizer.summarize. now rewrite blank_guard, Hb.
Qed.

Lemma summarize_of_blank_is_null_witness :
  TextSummarizer.summarize (Demo.env None) "  " 0x1p-1%float None Demo.start
  = (None, Demo.start).
Proof.
  apply (summarize_of_blank_is_null (Demo.env None) "  " 0x1p-1%float None Demo.start).
  reflexivity.
Defined.

(** A text in which the tokenizer finds one sentence at most is returned as
    it is, and the LSA summarizer is not asked. *)
Theorem summarize_returns_short_text_unchanged (E : environment) (text : string)
  (ratio : float) (cb : option (status_msg -> M unit)) (w : world) (n : Z) :
  adds_status_only cb ->
  PyStr.all_space text = false ->
  sent_tokenize_count E text = Some n ->
  n <= 1 ->
  let r := TextSummarizer.summarize E text ratio cb w in
  fst r = Some text /\ lsa_requests (w_log (snd r)) = lsa_requests (w_log w).
Proof.
  intros Hcb Hb Hn Hle r. destruct (summarize_spec E text ratio cb w Hcb) as [Hlog Hres].
  fold r in Hlog, Hres. unfold lsa_request_of in Hlog.
  rewrite Hb, Hn in Hlog, Hres.
  destruct (n <=? 1) eqn:Hc; [|apply Z.leb_gt in Hc; lia].
  split; [exact Hres | now rewrite Hlog, app_nil_r].
Qed.

Lemma summarize_returns_short_text_unchanged_witness :
  let r := TextSummarizer.summarize Cases.env_one_sentence "One sentence." 0x1p-1%float
             None Demo.start in
  fst r = Some "One sentence." /\ lsa_requests (w_log (snd r)) = lsa_requests (w_log Demo.start).
Proof.
  apply (summarize_returns_short_text_unchanged Cases.env_one_sentence "One sentence."
           0x1p-1%float None Demo.start 1).
  - apply no_callback_adds_status_only.
  - reflexivity.
  - reflexivity.
  - lia.
Defined.

(** [summarize] asks the LSA summarizer once at most, and never for fewer
    than one sentence, whatever the ratio. *)
Theorem summarize_asks_for_one_sentence_at_least (E : environment) (text : string)
  (ratio : float) (cb : option (status_msg -> M unit)) (w : world) :
  adds_status_only cb ->
  exists ks,
    lsa_requests (w_log (snd (TextSummarizer.summarize E text ratio cb w)))
    = (lsa_requests (w_log w) ++ ks)%list
    /\ (List.length ks <= 1)%nat
    /\ Forall (fun k => 1 <= k) ks.
Proof.
  intros Hcb. destruct (summarize_spec E text ratio cb w Hcb) as [Hlog _].
  exists (lsa_request_of E text ratio). split; [exact Hlog|].
  unfold lsa_request_of.
  destruct (PyStr.all_space text); [split; [cbn; lia | constructor]|].
  destruct (sent_tokenize_count E text) as [n|]; [|split; [cbn; lia | constructor]].
  destruct (n <=? 1); [split; [cbn; lia | constructor]|].
  destruct (PyFloat.py_int _) as [k|]; [|split; [cbn; lia | constructor]].
  split; [cbn; lia|]. constructor; [lia | constructor].
Qed.

Lemma summarize_asks_for_one_sentence_at_least_witness :
  exists ks,
    lsa_requests
      (w_log (snd (TextSummarizer.summarize (Demo.env None) "A. B. C." 0x1p-4%float
                     (Some (BaseWorker.update_status (Demo.env None))) Demo.start)))
    = (lsa_requests (w_log Demo.start) ++ ks)%list
    /\ (List.length ks <= 1)%nat
    /\ Forall (fun k => 1 <= k) ks.
Proof.
  apply (summarize_asks_for_one_sentence_at_least (Demo.env None) "A. B. C." 0x1p-4%float
           (Some (BaseWorker.update_status (Demo.env None))) Demo.start).
  apply update_status_adds_status_only.
Defined.

(** ** The translator (core/translator.py) *)

(** [translate_segments] of a non-empty sequence, with a batch size that is
    not zero, makes one request to the translation service for each segment
    whose text is not blank, and pauses once each time the number of segments
    handled reaches a multiple of the batch size: [len(segments) // |batch_size|]
    times in all. *)
Theorem translate_segments_requests_and_pauses (E : environment)
  (segments : list segment) (target_lang source_lang : string)
  (cb : option (status_msg -> M unit)) (batch_size : Z) (w : world) :
  segments <> [] ->
  batch_size <> 0 ->
  adds_status_only cb ->
  let w' := snd (Translator.translate_segments E segments target_lang source_lang cb
                   batch_size w) in
  Translator.requests (w_log w')
  = (Translator.requests (w_log w) + TranslateSpec.requests_for segments)%nat
  /\ Z.of_nat (sleeps (w_log w'))
     = Z.of_nat (sleeps (w_log w)) + Z.of_nat (List.length segments) / Z.abs batch_size.
Proof.
  intros Hne Hb Hcb w'. subst w'. unfold Translator.translate_segments.
  destruct segments as [|seg rest]; [contradiction|].
  rewrite run_bind.
  pose proof (status_only_makes_no_request cb Hcb) as Hreq.
  destruct (translate_loop_spec E target_lang source_lang cb batch_size
              (Z.of_nat (List.length (seg :: rest))) Hb Hreq (seg :: rest) 0 [] w)
    as (out & Hout & _ & Hn & _).
  pose proof (translate_loop_sleeps E target_lang source_lang cb batch_size
                (Z.of_nat (List.length (seg :: rest))) Hb Hcb (seg :: rest) 0 [] w
                ltac:(lia)) as Hs.
  rewrite Hout. rewrite run_bind. cbn [ret fst snd].
  rewrite Hreq, (sleeps_callback cb _ _ Hcb). split; [exact Hn|].
  rewrite Hs. rewrite Z.add_0_l, Z.div_0_l by lia. lia.
Qed.

Lemma translate_segments_requests_and_pauses_witness :
  let w' := snd (Translator.translate_segments (Demo.env None) example_segments "ko" "auto"
                   (Some (BaseWorker.update_status (Demo.env None))) 2 Demo.start) in
  Translator.requests (w_log w')
  = (Translator.requests (w_log Demo.start) + TranslateSpec.requests_for example_segments)%nat
  /\ Z.of_nat (sleeps (w_log w'))
     = Z.of_nat (sleeps (w_log Demo.start))
       + Z.of_nat (List.length example_segments) / Z.abs 2.
Proof.
  apply (translate_segments_requests_and_pauses (Demo.env None) example_segments "ko" "auto"
           (Some (BaseWorker.update_status (Demo.env None))) 2 Demo.start).
  - discriminate.
  - lia.
  - apply update_status_adds_status_only.
Defined.

(** With the batch size 0, [translate_segments] of a non-empty sequence
    returns None: the division by zero, raised once the first segment is
    handled, leaves the loop for the handler.  One request at most was made by
    then, and the translations are lost. *)
Theorem translate_segments_with_batch_size_zero (E : environment)
  (segments : list segment) (target_lang source_lang : string)
  (cb : option (status_msg -> M unit)) (w : world) :
  segments <> [] ->
  adds_status_only cb ->
  let r := Translator.translate_segments E segments target_lang source_lang cb 0 w in
  fst r = None
  /\ (Translator.requests (w_log (snd r)) <= Translator.requests (w_log w) + 1)%nat.
Proof.
  intros Hne Hcb r. subst r. unfold Translator.translate_segments.
  destruct segments as [|seg rest]; [contradiction|].
  pose proof (status_only_makes_no_request cb Hcb) as Hreq.
  rewrite run_bind. cbn [Translator.translate_loop]. rewrite !run_bind.
  destruct (translate_segment_spec E target_lang source_lang cb
              (Z.of_nat (List.length (seg :: rest))) 0 seg w Hreq) as (_ & _ & _ & Hn).
  cbv zeta in Hn.
  set (w1 := snd (Translator.translate_segment E target_lang source_lang cb
                    (Z.of_nat (List.length (seg :: rest))) 0 seg w)) in *.
  clearbody w1.
  cbn [Z.eqb ret fst snd]. rewrite run_bind. cbn [ret fst snd].
  split; [reflexivity|]. rewrite Hreq, Hn.
  destruct (PyStr.all_space (seg_text seg)); lia.
Qed.

Lemma translate_segments_with_batch_size_zero_witness :
  let r := Translator.translate_segments (Demo.env None) example_segments "ko" "auto" None 0
             Demo.start in
  fst r = None
  /\ (Translator.requests (w_log (snd r)) <= Translator.requests (w_log Demo.start) + 1)%nat.
Proof.
  apply (translate_segments_with_batch_size_zero (Demo.env None) example_segments "ko" "auto"
           None Demo.start).
  - discriminate.
  - apply no_callback_adds_status_only.
Defined.

(** ** The renderers (core/core_file_handler.py) *)

(** When a time stamp of a segment cannot be formatted (a NaN, an
    infinity), [create_srt] returns False, yet the file is on the disk,
    truncated: it holds the cue blocks of the segments before that one,
    followed by the number line of that one. *)
Theorem create_srt_failure_leaves_truncated_file (E : environment)
  (good : list segment) (bad : segment) (rest : list segment) (doc : string)
  (output_file : string) (cb : option (status_msg -> M unit)) (w : world) :
  keeps_disk cb ->
  fs_open_ok E output_file = true ->
  SrtSpec.cues 1 good = Some doc ->
  SrtSpec.cue (1 + Z.of_nat (List.length good)) bad = None ->
  let r := FileHandler.create_srt E (good ++ bad :: rest) output_file cb w in
  fst r = false
  /\ w_disk (snd r) !! output_file
     = Some (TextFile (doc +:+ PyStr.digits (1 + Z.of_nat (List.length good))
                         +:+ PyStr.newline)).
Proof.
  intros Hcb Hopen Hdoc Hbad r. subst r. unfold FileHandler.create_srt.
  rewrite run_bind, Hopen.
  rewrite (write_cues_stops good bad rest 0 "" doc Hdoc Hbad). cbv iota.
  rewrite !run_bind. cbn [ret fst snd]. split; [reflexivity|].
  rewrite Hcb, write_file_disk, Hcb. cbn. apply lookup_insert_eq.
Qed.

Lemma create_srt_failure_leaves_truncated_file_witness :
  let r := FileHandler.create_srt (Demo.env None) ([seg_a] ++ Cases.seg_nan :: [seg_b])
             "/media/talk.srt" None Demo.start in
  fst r = false
  /\ w_disk (snd r) !! "/media/talk.srt"
     = Some (TextFile (("1" +:+ PyStr.newline +:+ "00:00:00,000 --> 00:00:02,500"
                          +:+ PyStr.newline +:+ "a" +:+ PyStr.newline +:+ PyStr.newline)
                         +:+ PyStr.digits (1 + Z.of_nat (List.length [seg_a]))
                         +:+ PyStr.newline)).
Proof.
  apply (create_srt_failure_leaves_truncated_file (Demo.env None) [seg_a] Cases.seg_nan
           [seg_b] _ "/media/talk.srt" None Demo.start).
  - intros m w. reflexivity.
  - reflexivity.
  - vm_compute. reflexivity.
  - vm_compute. reflexivity.
Defined.

(** When [format_time] returns a string for every time stamp and the file
    can be opened, [create_srt] returns True and the file holds one cue block
    per segment, in the order of the segments and nothing else.  The block of
    the segment at index [k] is the number [k + 1] on a line, the line of the
    two time stamps joined by [ --> ], the trimmed text on a line, and an
    empty line. *)
Theorem create_srt_writes_cue_blocks (E : environment) (segments : list segment)
  (output_file : string) (cb : option (status_msg -> M unit)) (w : world) :
  SrtSpec.printable_times segments ->
  fs_open_ok E output_file = true ->
  keeps_disk cb ->
  let r := FileHandler.create_srt E segments output_file cb w in
  exists blocks,
    fst r = true
    /\ w_disk (snd r) !! output_file = Some (TextFile (String.concat "" blocks))
    /\ List.length blocks = List.length segments
    /\ (forall k seg, segments !! k = Some seg ->
          exists start_time end_time,
            FileHandler.format_time (seg_start seg) = Some start_time
            /\ FileHandler.format_time (seg_end seg) = Some end_time
            /\ blocks !! k
               = Some (PyStr.digits (Z.of_nat k + 1) +:+ PyStr.newline
                       +:+ start_time +:+ " --> " +:+ end_time +:+ PyStr.newline
                       +:+ PyStr.strip (seg_text seg) +:+ PyStr.newline +:+ PyStr.newline)).
Proof.
  intros Hfin Hopen Hcb r. subst r.
  destruct (cues_printable segments Hfin 1) as [doc Hdoc].
  destruct (cues_length segments 1 doc Hdoc) as (blocks & Hlen & -> & Hblocks).
  exists blocks.
  assert (FileHandler.write_cues 0 segments "" = (String.concat "" blocks, true)) as Hw.
  { rewrite (write_cues_cues segments 0 "" _ Hdoc). reflexivity. }
  unfold FileHandler.create_srt.
  rewrite run_bind, Hopen, Hw. cbv iota.
  unfold FileHandler.write_file, FileHandler.store. rewrite !run_bind. cbn [fst snd ret].
  split; [reflexivity|]. split; [|split].
  - rewrite Hcb. cbn. apply lookup_insert_eq.
  - exact Hlen.
  - intros k seg Hk. destruct (Hblocks k seg Hk) as (c & Hc & Hcue).
    unfold SrtSpec.cue in Hcue.
    destruct (FileHandler.format_time (seg_start seg)) as [a|]; [|discriminate].
    destruct (FileHandler.format_time (seg_end seg)) as [b|]; [|discriminate].
    injection Hcue as <-. exists a, b. repeat split.
    rewrite Hc. now replace (Z.of_nat k + 1) with (1 + Z.of_nat k) by lia.
Qed.

Lemma create_srt_writes_cue_blocks_witness :
  exists blocks,
    fst (FileHandler.create_srt (Demo.env None) example_segments "/media/talk.srt" None
           Demo.start) = true
    /\ w_disk (snd (FileHandler.create_srt (Demo.env None) example_segments
                      "/media/talk.srt" None Demo.start)) !! "/media/talk.srt"
       = Some (TextFile (String.concat "" blocks))
    /\ List.length blocks = List.length example_segments
    /\ (forall k seg, example_segments !! k = Some seg ->
          exists start_time end_time,
            FileHandler.format_time (seg_start seg) = Some start_time
            /\ FileHandler.format_time (seg_end seg) = Some end_time
            /\ blocks !! k
               = Some (PyStr.digits (Z.of_nat k + 1) +:+ PyStr.newline
                       +:+ start_time +:+ " --> " +:+ end_time +:+ PyStr.newline
                       +:+ PyStr.strip (seg_text seg) +:+ PyStr.newline +:+ PyStr.newline)).
Proof.
  apply (create_srt_writes_cue_blocks (Demo.env None) example_segments "/media/talk.srt"
           None Demo.start).
  - repeat constructor; vm_compute; eauto.
  - reflexivity.
  - intros m w. reflexivity.
Defined.

(** ** Wrapping the lines of the document (core/core_file_handler.py) *)

(** The lines of [_wrap_text] hold the words of the text, all of them, in
    order and nothing else: splitting the lines again gives the words of the
    text.  No line is empty; the words of a line are separated by one blank,
    with no blank before or after.  A line is longer than [max_width] only if
    it is one word: words are never cut. *)
Theorem wrap_text_keeps_the_words (text : string) (max_width : Z) :
  let lines := FileHandler._wrap_text text max_width in
  List.concat (map PyStr.split lines) = PyStr.split text
  /\ Forall (fun line => line <> "" /\ line = String.concat " " (PyStr.split line)) lines
  /\ Forall (fun line => Z.of_nat (String.length line) <= max_width
                         \/ List.length (PyStr.split line) = 1%nat) lines.
Proof.
  intros lines. subst lines.
  destruct (wrap_text_groups text max_width)
    as (groups & -> & Hcat & Hne & Hwidth & Hwords & _).
  rewrite <- Hcat. clear Hcat.
  induction groups as [|g groups IH]; [repeat split; constructor|].
  inversion Hne as [|? ? Hg Hne']; subst.
  inversion Hwidth as [|? ? Hw Hwidth']; subst.
  inversion Hwords as [|? ? Hgw Hwords']; subst.
  destruct (IH Hne' Hwidth' Hwords') as (IH1 & IH2 & IH3).
  cbn [map List.concat]. rewrite (split_join g Hgw). split; [now rewrite IH1|].
  split.
  - constructor; [|exact IH2]. cbv beta. rewrite (split_join g Hgw).
    split; [|reflexivity]. intros Hempty.
    assert (PyStr.truthy (String.concat " " g) = true) as Ht.
    { apply truthy_concat; [|exact Hg].
      eapply Forall_impl; [exact Hgw|]. intros w [H _]. exact H. }
    rewrite Hempty in Ht. discriminate Ht.
  - constructor; [|exact IH3]. cbv beta. rewrite (split_join g Hgw). exact Hw.
Qed.

(** [_wrap_text] fills the lines greedily: the first word of a line did
    not fit, after a blank, at the end of the line before. *)
Theorem wrap_text_fills_lines_greedily (text : string) (max_width : Z) :
  greedy_lines max_width (FileHandler._wrap_text text max_width).
Proof.
  destruct (wrap_text_groups text max_width)
    as (groups & -> & _ & Hne & _ & Hwords & Hgr).
  induction groups as [|g groups IH]; [exact I|].
  inversion Hne as [|? ? Hg Hne']; subst.
  inversion Hwords as [|? ? Hgw Hwords']; subst.
  destruct Hgr as [Hfirst Hgr]. cbn [map greedy_lines]. split; [|now apply IH].
  destruct groups as [|g2 groups]; [exact I|]. cbn [map].
  inversion Hwords' as [|? ? Hg2w _]; subst.
  inversion Hne' as [|? ? Hg2 _]; subst.
  rewrite (split_join g2 Hg2w). destruct g2 as [|w g2]; [contradiction|].
  now rewrite <- concat_snoc.
Qed.

(** ** The output files (workers/workers_transcription.py) *)

Section OutputFiles.
Context (E : environment) (self : TranscriptionWorker.config).
Context (transcript_text : string) (segments : list segment)
  (summary_text translated_text translated_summary : option string)
  (translated_segments : option (list segment)).

Local Abbreviation create_output_files :=
  (TranscriptionWorker._create_output_files E self transcript_text segments summary_text
     translated_text translated_summary translated_segments).

Local Abbreviation planned :=
  (PlanSpec.plan (TranscriptionWorker.output_formats self)
     (plan_data summary_text translated_text translated_summary translated_segments)).

(** [_create_output_files] calls the renderers for the files of the plan
    and for no other, in the order of the plan: for each requested format
    among txt, srt and pdf, in this order, the original, then the variants
    whose data is there (a summary, a translated text, a translated summary
    that is not empty; translated segments that are not empty, for the
    translated subtitles and the translated document).  Each call is for the
    path [get_output_path] gives for the suffix of the variant. *)
Theorem output_files_follow_the_plan (w : world) :
  let r := create_output_files w in
  exists d,
    w_log (snd r) = (w_log w ++ d)%list
    /\ renderer_calls d = map (plan_call self) planned.
Proof.
  cbv zeta.
  destruct (output_files_run E self transcript_text segments summary_text translated_text
              translated_summary translated_segments w)
    as (d & Hlog & Hcalls & _).
  exists d. split; assumption.
Qed.

(** The list [_create_output_files] returns holds the paths of the renderers
    that returned True, in the order of the calls, and no other: a failed
    renderer is left out and does not stop the others.  The paths returned are
    among those of the plan, in order, and each of them is a file on the disk
    when the method returns. *)
Theorem output_files_returns_what_was_rendered (w : world) :
  let r := create_output_files w in
  exists d,
    w_log (snd r) = (w_log w ++ d)%list
    /\ fst r = rendered_files d
    /\ sublist (fst r) (map (plan_path self) planned)
    /\ Forall (fun p => is_Some (w_disk (snd r) !! p)) (fst r).
Proof.
  cbv zeta.
  destruct (output_files_run E self transcript_text segments summary_text translated_text
              translated_summary translated_segments w)
    as (d & Hlog & _ & _ & _ & Hdisk & Hsub & Hret & _).
  exists d. repeat split; assumption.
Qed.

(** [_create_output_files] writes to the paths of the plan only; every other
    file of the disk, and every path that holds no file, is as before. *)
Theorem output_files_touch_planned_paths_only (w : world) :
  let r := create_output_files w in
  exists d,
    w_log (snd r) = (w_log w ++ d)%list
    /\ incl (written d) (map (plan_path self) planned)
    /\ forall p, ~ In p (map (plan_path self) planned) ->
         w_disk (snd r) !! p = w_disk w !! p.
Proof.
  cbv zeta.
  destruct (output_files_run E self transcript_text segments summary_text translated_text
              translated_summary translated_segments w)
    as (d & Hlog & _ & Hwr & Hframe & _).
  exists d. repeat split; assumption.
Qed.

(** When no renderer returns False, [_create_output_files] returns the
    paths of the whole plan, in order: with txt, srt and pdf requested and a
    summary, a translated text, a translated summary and translated segments
    that are not empty, these are eight paths. *)
Theorem output_files_all_created_without_failure (w : world) (d : list event) :
  let r := create_output_files w in
  w_log (snd r) = (w_log w ++ d)%list ->
  forallb (fun e => negb (is_failed_render e)) d = true ->
  fst r = map (plan_path self) planned.
Proof.
  cbv zeta. intros Hlog Hok.
  destruct (output_files_run E self transcript_text segments summary_text translated_text
              translated_summary translated_segments w)
    as (d' & Hlog' & _ & _ & _ & _ & _ & _ & Hall).
  rewrite Hlog in Hlog'. apply app_inv_head in Hlog'. subst d'. exact (Hall Hok).
Qed.

(** When the target language holds no slash and is not the word "summary",
    no two files of the plan have the same path: no output file overwrites
    another, and no path is returned twice.  (For the target language
    "summary" the translated text would take the path of the summary.) *)
Theorem output_files_are_distinct (w : world) :
  no_slash (TranscriptionWorker.target_language self) = true ->
  TranscriptionWorker.target_language self <> "summary" ->
  let r := create_output_files w in
  NoDup (map (plan_path self) planned) /\ NoDup (fst r).
Proof.
  intros Hs Hne. cbv zeta.
  assert (NoDup (map (plan_path self) planned)) as Hnd by now apply planned_paths_nodup.
  split; [exact Hnd|].
  destruct (output_files_run E self transcript_text segments summary_text translated_text
              translated_summary translated_segments w)
    as (d & _ & _ & _ & _ & _ & Hsub & _).
  eapply sublist_NoDup; [exact Hnd | exact Hsub].
Qed.

End OutputFiles.

Lemma output_files_all_created_without_failure_witness :
  fst (TranscriptionWorker._create_output_files (Demo.env None) (Demo.job true true) "a b"
         example_segments (Some "s") (Some "Ta b") (Some "Ts") (Some example_segments)
         (TranscriptionWorker.initial_world Demo.whisper0 ∅))
  = map (plan_path (Demo.job true true))
      (PlanSpec.plan (TranscriptionWorker.output_formats (Demo.job true true))
         (plan_data (Some "s") (Some "Ta b") (Some "Ts") (Some example_segments))).
Proof.
  pose proof (output_files_all_created_without_failure (Demo.env None) (Demo.job true true)
                "a b" example_segments (Some "s") (Some "Ta b") (Some "Ts")
                (Some example_segments) (TranscriptionWorker.initial_world Demo.whisper0 ∅)
                (w_log (snd (TranscriptionWorker._create_output_files (Demo.env None)
                               (Demo.job true true) "a b" example_segments (Some "s")
                               (Some "Ta b") (Some "Ts") (Some example_segments)
                               (TranscriptionWorker.initial_world Demo.whisper0 ∅))))) as H.
  cbv zeta in H. apply H; vm_compute; reflexivity.
Defined.

Lemma output_files_are_distinct_witness :
  NoDup (map (plan_path (Demo.job true true))
           (PlanSpec.plan (TranscriptionWorker.output_formats (Demo.job true true))
              (plan_data (Some "s") (Some "Ta b") (Some "Ts") (Some example_segments))))
  /\ NoDup (fst (TranscriptionWorker._create_output_files (Demo.env None)
                   (Demo.job true true) "a b" example_segments (Some "s") (Some "Ta b")
                   (Some "Ts") (Some example_segments)
                   (TranscriptionWorker.initial_world Demo.whisper0 ∅))).
Proof.
  pose proof (output_files_are_distinct (Demo.env None) (Demo.job true true) "a b"
                example_segments (Some "s") (Some "Ta b") (Some "Ts")
                (Some example_segments)
                (TranscriptionWorker.initial_world Demo.whisper0 ∅)) as H.
  cbv zeta in H. apply H; [reflexivity | discriminate].
Defined.

(** ** The output path (core/core_file_handler.py) *)

(** For a suffix and an extension without a slash, the extension not
    empty, the path [get_output_path] returns is the directory of the input
    file (its root and its components but the last) followed by the file name
    made of the base name of the input file (its name without the last
    extension), the suffix, a dot and the extension: the output file lies
    beside the input file, whatever its name is. *)
Theorem output_path_naming_rule (input_file suffix extension : string) :
  no_slash suffix = true -> no_slash extension = true -> extension <> "" ->
  let input_path := PyPath.parse input_file in
  FileHandler.get_output_path input_file suffix extension
  = PyPath.p_root input_path
    +:+ String.concat "/"
          (removelast (PyPath.p_parts input_path)
           ++ [PyPath.stem input_path +:+ suffix +:+ "." +:+ extension])%list.
Proof. apply get_output_path_parts. Qed.

Lemma output_path_naming_rule_witness :
  FileHandler.get_output_path "/media/day.1/talk.final.mp3" "_summary_ko" "txt"
  = "/media/day.1/talk.final_summary_ko.txt".
Proof.
  pose proof (output_path_naming_rule "/media/day.1/talk.final.mp3" "_summary_ko" "txt") as H.
  cbv zeta in H. rewrite H; [reflexivity | reflexivity | reflexivity | discriminate].
Defined.
